(** * weather-data: the two Supabase edge handlers of paginaHTML

    Shallow embedding of [supabase/functions/weather-data/index.ts].  The
    source file holds two [Deno.serve] handlers: the 5-day forecast handler
    (lines 1-195) and the current-weather handler (lines 195-358).

    Conventions of the embedding.
    - A JavaScript number is a double.  A finite double is modelled as the
      rational it stands for ([Q]); a number that a computation yields is a
      [JsNum]: a finite double, an infinity or [NaN].  Every sum, product
      and quotient of the handlers is the exact one rounded to the nearest
      double ([Js.round64]), as binary64 arithmetic has it; comparisons,
      [Math.round], [Math.floor], [%], the digits of [toFixed] and a
      product with a power of two are exact.
      The sign of a zero is not kept.  The rounding is cross-checked against
      Rocq's primitive floats ([Binary64]) on the inputs that the statements
      and the examples name.
    - The upstream replies are typed as the handlers read them; a part that
      the forecast handler reads without a guard ([list], [main], [wind],
      [weather], [weather[0]]) may be absent, and reading it then throws.
    - A [Date] is its time value (milliseconds since the epoch, [Z]) or
      invalid; an ISO timestamp string that is only stored and compared is
      kept as the time value it renders.
    - The collaborators (clock, environment, cache table, upstream provider,
      random generator) are an oracle record; the handler threads the cache
      table and a trace of its outward calls through a small monad. *)

From Stdlib Require Import ZArith QArith Qround Qabs Qpower List String Ascii Bool Lia Lqa.
From Stdlib Require Import DecimalString.
From Stdlib Require Floats.
Import ListNotations.

Local Open Scope Z_scope.

(* ================================================================== *)
(** ** JavaScript runtime pieces used by the handlers *)
(* ================================================================== *)

Module Js.

(** *** Strings *)

Definition str_eqb (a b : string) : bool := String.eqb a b.

(** [`${n}`] for a non-negative integer. *)
Definition decimal (n : Z) : string :=
  NilZero.string_of_uint (N.to_uint (Z.to_N n)).

Definition digitChar (d : Z) : ascii := ascii_of_nat (48 + Z.to_nat d).

(** Two-digit zero-padded field of an ISO timestamp. *)
Definition pad2 (n : Z) : string :=
  String (digitChar (n / 10)) (String (digitChar (n mod 10)) EmptyString).

Fixpoint zeros (k : nat) : string :=
  match k with
  | O => EmptyString
  | S k' => String "0"%char (zeros k')
  end.

(** [String.prototype.padStart(width, "0")]. *)
Definition padStart0 (width : nat) (s : string) : string :=
  (zeros (width - String.length s) ++ s)%string.

(** A string is truthy unless it is empty. *)
Definition truthyStr (s : string) : bool :=
  match s with
  | EmptyString => false
  | _ => true
  end.

(** *** Numbers *)

(** A number is truthy unless it is zero (NaN cannot come out of JSON). *)
Definition truthyNum (q : Q) : bool := negb (Qeq_bool q 0).

(** [Math.round]: the integer nearest to [x], halves going up.  On a double
    the result is a double again, so nothing is rounded twice. *)
Definition mathRound (x : Q) : Z := Qfloor (x + (1 # 2)).

(** [Math.floor]. *)
Definition mathFloor (x : Q) : Z := Qfloor x.

(** The integer [n] that [Number.prototype.toFixed(1)] prints as [n/10]:
    the sign is split off first, then the integer nearest to [10 * |x|] is
    taken, the larger one on a tie. *)
Definition toFixed1_tenths (x : Q) : Z :=
  if Qle_bool 0 x then Qfloor (x * 10 + (1 # 2))
  else - Qfloor ((- x) * 10 + (1 # 2)).

(** *** binary64

    A finite double is the rational it stands for; an operation of the
    runtime is the exact operation followed by the rounding to the nearest
    double, ties going to the even significand.  The sign of a zero is not
    kept. *)

Definition pow2 (e : Z) : Q := Qpower 2 e.

(** The binary exponent of a positive rational: [2^e <= a < 2^(e+1)]. *)
Definition ilog2 (a : Q) : Z :=
  let k := Z.log2 (Qnum a) - Z.log2 (Zpos (Qden a)) in
  if Qle_bool (pow2 k) a then k else k - 1.

(** The nearest integer, the even one on a tie. *)
Definition roundEven (y : Q) : Z :=
  let f := Qfloor y in
  match Qcompare (y - inject_Z f) (1 # 2) with
  | Lt => f
  | Gt => f + 1
  | Eq => if Z.even f then f else f + 1
  end.

(** The exponent of the last place of the doubles around a positive [a]:
    53 significant bits, and no finer than [2^-1074]. *)
Definition quantum (a : Q) : Z := Z.max (ilog2 a - 52) (-1074).

Definition nearestPos (a : Q) : Q :=
  let p := quantum a in (inject_Z (roundEven (a / pow2 p)) * pow2 p)%Q.

Definition near (x : Q) : Q :=
  match Qcompare x 0 with
  | Eq => 0%Q
  | Gt => nearestPos x
  | Lt => (- nearestPos (- x))%Q
  end.

(** The double nearest to [x], were the exponent range unbounded above; as a
    fraction in lowest terms. *)
Definition nearest64 (x : Q) : Q := Qred (near x).

(** [Number.MAX_VALUE]. *)
Definition maxDouble : Q := inject_Z ((2 ^ 53 - 1) * 2 ^ 971).

(** [x] is the value of a finite double. *)
Definition isDouble (x : Q) : Prop :=
  (nearest64 x == x)%Q /\ (Qabs x <= maxDouble)%Q.

(** The double that a decimal literal denotes. *)
Definition double (x : Q) : Q := nearest64 x.

(** A number of the runtime: a finite double, an infinity or [NaN]. *)
Inductive JsNum : Type :=
  | Fin (q : Q)
  | PosInf
  | NegInf
  | NaN.

(** The rounding of an exact result: what lies beyond the largest double
    becomes an infinity. *)
Definition round64 (x : Q) : JsNum :=
  let r := nearest64 x in
  if Qle_bool r maxDouble
  then if Qle_bool (- maxDouble) r then Fin r else NegInf
  else PosInf.

(** [a + b]. *)
Definition add (a b : JsNum) : JsNum :=
  match a, b with
  | NaN, _ | _, NaN => NaN
  | PosInf, NegInf | NegInf, PosInf => NaN
  | PosInf, _ | _, PosInf => PosInf
  | NegInf, _ | _, NegInf => NegInf
  | Fin x, Fin y => round64 (x + y)
  end.

(** [a * b] for two finite numbers. *)
Definition mul (x y : Q) : JsNum := round64 (x * y).

(** [a / b] for two finite numbers, the second one not zero. *)
Definition div (x y : Q) : JsNum := round64 (x / y).

(** [parseFloat(x.toFixed(1))] for a finite [x]: [toFixed] rounds the exact
    value of [x] to tenths and [parseFloat] reads the decimal back as the
    nearest double.  From 1e21 on, [toFixed] prints the number itself (in
    exponent notation), which [parseFloat] reads back. *)
Definition roundTo1 (x : Q) : Q :=
  if Qle_bool (1000000000000000000000 # 1) (Qabs x) then x
  else double (toFixed1_tenths x # 10).

Definition jsMax2 (a b : JsNum) : JsNum :=
  match a, b with
  | NaN, _ | _, NaN => NaN
  | PosInf, _ | _, PosInf => PosInf
  | NegInf, y => y
  | x, NegInf => x
  | Fin x, Fin y => if Qle_bool x y then Fin y else Fin x
  end.

Definition jsMin2 (a b : JsNum) : JsNum :=
  match a, b with
  | NaN, _ | _, NaN => NaN
  | NegInf, _ | _, NegInf => NegInf
  | PosInf, y => y
  | x, PosInf => x
  | Fin x, Fin y => if Qle_bool y x then Fin y else Fin x
  end.

(** [Math.max(...xs)] and [Math.min(...xs)]: [-Infinity] and [Infinity] for
    no argument.  Comparing rounds nothing. *)
Definition mathMax (xs : list Q) : JsNum :=
  fold_left (fun acc x => jsMax2 acc (Fin x)) xs NegInf.

Definition mathMin (xs : list Q) : JsNum :=
  fold_left (fun acc x => jsMin2 acc (Fin x)) xs PosInf.

(** [xs.reduce((a, b) => a + b, 0)]: the elements are added one by one, from
    the left, each sum rounded. *)
Definition sum (xs : list JsNum) : JsNum :=
  fold_left add xs (Fin 0).

(** [s / n] for a list length [n]: [0 / 0] is [NaN]. *)
Definition divLen (s : JsNum) (n : nat) : JsNum :=
  match s, n with
  | Fin q, O => if Qeq_bool q 0 then NaN else if Qle_bool 0 q then PosInf else NegInf
  | Fin q, S _ => div q (inject_Z (Z.of_nat n))
  | other, _ => other
  end.

(** [parseFloat(v.toFixed(1))]; [toFixed] prints an infinity and [NaN] by
    name, and [parseFloat] reads the names back. *)
Definition jsRoundTo1 (v : JsNum) : JsNum :=
  match v with
  | Fin q => Fin (roundTo1 q)
  | other => other
  end.

(** [Math.round(v)]. *)
Definition jsMathRound (v : JsNum) : JsNum :=
  match v with
  | Fin q => Fin (inject_Z (mathRound q))
  | other => other
  end.

(** [a >= b]; every comparison with [NaN] is false. *)
Definition jsGe (a b : JsNum) : bool :=
  match a, b with
  | NaN, _ | _, NaN => false
  | PosInf, _ => true
  | _, NegInf => true
  | _, PosInf => false
  | NegInf, _ => false
  | Fin x, Fin y => Qle_bool y x
  end.

(** [a <= b]. *)
Definition jsLe (a b : JsNum) : Prop := jsGe b a = true.

(** *** Dates *)

Definition msPerDay : Z := 86400000.
Definition maxTimeValue : Z := 8640000000000000.

(** [new Date(v)]: the time value, or [None] for an Invalid Date. *)
Definition JsDate : Type := option Z.

Definition newDate (v : Z) : JsDate :=
  if Z.abs v <=? maxTimeValue then Some v else None.

Record Civil : Type := mkCivil { c_year : Z; c_month : Z; c_day : Z }.

(** Year, month (1-12) and day of month (1-31) of a day number counted from
    1970-01-01, in the proleptic Gregorian calendar. *)
Definition civilFromDays (days : Z) : Civil :=
  let z := days + 719468 in
  let era := z / 146097 in
  let doe := z - era * 146097 in
  let yoe := (doe - doe / 1460 + doe / 36524 - doe / 146096) / 365 in
  let y := yoe + era * 400 in
  let doy := doe - (365 * yoe + yoe / 4 - yoe / 100) in
  let mp := (5 * doy + 2) / 153 in
  let d := doy - (153 * mp + 2) / 5 + 1 in
  let m := if mp <? 10 then mp + 3 else mp - 9 in
  mkCivil (if m <=? 2 then y + 1 else y) m d.

Definition civilOfTime (t : Z) : Civil := civilFromDays (t / msPerDay).

(** The year field of [toISOString]: four digits for 0..9999, otherwise a
    sign and six digits. *)
Definition isoYear (y : Z) : string :=
  if (0 <=? y) && (y <=? 9999) then padStart0 4 (decimal y)
  else ((if (y <? 0)%Z then "-" else "+") ++ padStart0 6 (decimal (Z.abs y)))%string.

(** [d.toISOString().split('T')[0]] for a valid date: "YYYY-MM-DD" in UTC. *)
Definition isoDateOfTime (t : Z) : string :=
  let c := civilOfTime t in
  (isoYear (c_year c) ++ "-" ++ pad2 (c_month c) ++ "-" ++ pad2 (c_day c))%string.

(** What [toISOString] can throw. *)
Inductive Exn : Type :=
  | ErrorObj (message : string)   (* an [Error] instance *)
  | Thrown.                       (* any other thrown value *)

Definition isoDate (d : JsDate) : Exn + string :=
  match d with
  | Some t => inr (isoDateOfTime t)
  | None => inl (ErrorObj "Invalid time value")
  end.

(** [d.getDate()]: the day of the month in the runtime's local zone, whose
    offset from UTC (in milliseconds, at a given instant) is [tz]; [None] is
    the [NaN] of an Invalid Date. *)
Definition getDate (tz : Z -> Z) (d : JsDate) : option Z :=
  match d with
  | Some t => Some (c_day (civilOfTime (t + tz t)))
  | None => None
  end.

(** [a !== b] on the results of [getDate]: [NaN] differs from everything,
    itself included. *)
Definition dayStrictNe (a b : option Z) : bool :=
  match a, b with
  | Some x, Some y => negb (x =? y)
  | _, _ => true
  end.

End Js.

(* ================================================================== *)
(** ** The formulas over Rocq's primitive floats *)
(* ================================================================== *)

Module Binary64.

Import Floats.PrimFloat Floats.SpecFloat Floats.FloatOps.

Definition number : Type := float.

(** The number an integer literal denotes (exact below 2^53). *)
Definition ofInt (n : Z) : number :=
  if (n <? 0)%Z then opp (of_uint63 (Uint63.of_Z (- n)))
  else of_uint63 (Uint63.of_Z n).

(** The number a decimal literal [n / 10^k] denotes: the nearest double. *)
Definition ofDecimal (n : Z) (k : N) : number :=
  div (ofInt n) (ofInt (10 ^ Z.of_N k)).

(** The rational a finite double stands for. *)
Definition exact (x : number) : option Q :=
  match Prim2SF x with
  | S754_zero _ => Some 0%Q
  | S754_finite s m e =>
      Some ((if s then - (1) else 1) * inject_Z (Zpos m) * Qpower 2 e)%Q
  | _ => None
  end.

(** [parseFloat(x.toFixed(1))]: [toFixed] rounds the exact value of [x] to
    tenths and [parseFloat] reads the decimal back as the nearest double. *)
Definition roundTo1 (x : number) : number :=
  match exact x with
  | Some q =>
      if Qle_bool (1000000000000000000000 # 1) (Qabs q) then x
      else div (ofInt (Js.toFixed1_tenths q)) (ofInt 10)
  | None => x
  end.

(** Line 120. *)
Definition windSpeedKmh (s : number) : number :=
  roundTo1 (mul s (ofDecimal 36 1)).

(** Line 144. *)
Definition average (ts : list number) : number :=
  roundTo1 (div (fold_left add ts (ofInt 0)) (ofInt (Z.of_nat (List.length ts)))).


(** A primitive float as a number of the embedding. *)
Definition value (x : number) : Js.JsNum :=
  match Prim2SF x with
  | S754_zero _ => Js.Fin 0
  | S754_finite s m e =>
      Js.Fin (Qred ((if s then - (1) else 1) * inject_Z (Zpos m) * Qpower 2 e))
  | S754_infinity s => if s then Js.NegInf else Js.PosInf
  | S754_nan => Js.NaN
  end.

End Binary64.

(* ================================================================== *)
(** ** The request, the response and the collaborators *)
(* ================================================================== *)

Module Http.

Definition Headers : Type := list (string * string).

(** [corsHeaders], lines 4-7 and 197-200. *)
Definition corsHeaders : Headers :=
  [ ("Access-Control-Allow-Origin", "*");
    ("Access-Control-Allow-Headers",
     "authorization, x-client-info, apikey, content-type") ]%string.

(** [{ ...corsHeaders, 'Content-Type': 'application/json' }]. *)
Definition jsonHeaders : Headers :=
  (corsHeaders ++ [ ("Content-Type", "application/json")%string ])%list.

(** What the handler reads of the request: the method and
    [url.searchParams.get('location')] ([None] is [null]). *)
Record Request : Type := mkRequest {
  method : string;
  location_param : option string
}.

(** The argument of [JSON.stringify], or the [null] body of the preflight
    answer. *)
Inductive Body (D : Type) : Type :=
  | NoBody
  | Success (data : D) (source message : string)
  | Failure (error details : string).

Arguments NoBody {D}.
Arguments Success {D} data source message.
Arguments Failure {D} error details.

Record Response (D : Type) : Type := mkResponse {
  status : N;
  headers : Headers;
  body : Body D
}.

Arguments mkResponse {D} status headers body.
Arguments status {D} r.
Arguments headers {D} r.
Arguments body {D} r.

(** [new Response(null, { headers: corsHeaders })]: the status defaults to
    200. *)
Definition preflight {D} : Response D := mkResponse 200%N corsHeaders NoBody.

Definition ok200 {D} (data : D) (source message : string) : Response D :=
  mkResponse 200%N jsonHeaders (Success data source message).

Definition error500 {D} (error : string) : Response D :=
  mkResponse 500%N jsonHeaders (Failure error "Failed to fetch weather data").

(** [url.searchParams.get('location') || 'Santiago']. *)
Definition locationOf (req : Request) : string :=
  match location_param req with
  | Some l => if Js.truthyStr l then l else "Santiago"%string
  | None => "Santiago"%string
  end.

(** [response.ok]. *)
Definition isOk (st : N) : bool := ((200 <=? st) && (st <=? 299))%N.

End Http.

Module Rt.

Import Http.

(** The answer of the upstream provider to the one [fetch] of a request:
    the call fails, or a reply arrives with a status and the body that
    [json()] would parse (typed as the handler reads it). *)
Inductive Upstream (J : Type) : Type :=
  | NetworkFailure (message : string)
  | HttpReply (st : N) (json : J).

Arguments NetworkFailure {J} message.
Arguments HttpReply {J} st json.

(** Everything a run asks of its surroundings.  A request makes at most one
    cache read, one upstream call and one cache write, so one answer of each
    kind is enough; the clock and the random generator are read several
    times. *)
Record Oracle (J : Type) : Type := mkOracle {
  tz : Z -> Z;                        (* local zone offset, milliseconds *)
  clock : nat -> Z;                   (* k-th reading of the clock *)
  random : nat -> Q;                  (* k-th [Math.random()] *)
  api_key : option string;            (* [Deno.env.get('OPENWEATHER_API_KEY')] *)
  cache_read_error : option string;   (* [error] of the select *)
  upstream : Upstream J;
  insert_error : option string        (* [error] of the insert *)
}.

Arguments tz {J} o.
Arguments clock {J} o.
Arguments random {J} o.
Arguments api_key {J} o.
Arguments cache_read_error {J} o.
Arguments upstream {J} o.
Arguments insert_error {J} o.

(** [!OPENWEATHER_API_KEY] is false. *)
Definition keyConfigured {J} (o : Oracle J) : option string :=
  match api_key o with
  | Some k => if Js.truthyStr k then Some k else None
  | None => None
  end.

(** Outward calls of a run, in order. *)
Inductive Event (R : Type) : Type :=
  | CacheRead (location : string) (cutoff : Z)
  | UpstreamCall (location key : string)
  | CacheInsert (row : R).

Arguments CacheRead {R} location cutoff.
Arguments UpstreamCall {R} location key.
Arguments CacheInsert {R} row.

(** The cache table, the number of clock readings and random draws made so
    far, and the trace. *)
Record Sys (R : Type) : Type := mkSys {
  table : list R;
  ticks : nat;
  draws : nat;
  trace : list (Event R)
}.

Arguments mkSys {R} table ticks draws trace.
Arguments table {R} s.
Arguments ticks {R} s.
Arguments draws {R} s.
Arguments trace {R} s.

(** A step of the handler body goes on with a value, leaves through a
    [return new Response(...)], or throws. *)
Inductive Res (D A : Type) : Type :=
  | Val (a : A)
  | Return (r : Response D)
  | Throw (e : Js.Exn).

Arguments Val {D A} a.
Arguments Return {D A} r.
Arguments Throw {D A} e.

Definition M (R D A : Type) : Type := Sys R -> Res D A * Sys R.

Definition ret {R D A} (a : A) : M R D A := fun s => (Val a, s).

Definition bind {R D A B} (m : M R D A) (f : A -> M R D B) : M R D B :=
  fun s =>
    match m s with
    | (Val a, s') => f a s'
    | (Return r, s') => (Return r, s')
    | (Throw e, s') => (Throw e, s')
    end.

Definition respond {R D A} (r : Response D) : M R D A := fun s => (Return r, s).

Definition raise {R D A} (e : Js.Exn) : M R D A := fun s => (Throw e, s).

Definition emit {R D} (e : Event R) : M R D unit :=
  fun s => (Val tt, mkSys (table s) (ticks s) (draws s) (trace s ++ [e])).

(** [Date.now()] / [new Date()]. *)
Definition now {J R D} (o : Oracle J) : M R D Z :=
  fun s => (Val (clock o (ticks s)),
            mkSys (table s) (S (ticks s)) (draws s) (trace s)).

(** [Math.random()]. *)
Definition mathRandom {J R D} (o : Oracle J) : M R D Q :=
  fun s => (Val (random o (draws s)),
            mkSys (table s) (ticks s) (S (draws s)) (trace s)).

(** A thrown value becomes a value of the body. *)
Definition liftExn {R D A} (x : Js.Exn + A) : M R D A :=
  match x with
  | inl e => raise e
  | inr a => ret a
  end.

Section Table.

Variable R : Type.
Variable rowLocation : R -> string.
Variable rowFetchedAt : R -> Z.

(** [.eq('location', location).gte('fetched_at', cutoff)]. *)
Definition fresh (location : string) (cutoff : Z) (r : R) : bool :=
  Js.str_eqb (rowLocation r) location && (cutoff <=? rowFetchedAt r).

(** [.order('fetched_at', { ascending: false }).limit(1).maybeSingle()]:
    the row with the greatest [fetched_at] (the earlier one in the table on a
    tie, where the store is free to choose), or [null]. *)
Fixpoint latest (rows : list R) : option R :=
  match rows with
  | [] => None
  | r :: rest =>
      match latest rest with
      | Some r' => if rowFetchedAt r' <=? rowFetchedAt r then Some r else Some r'
      | None => Some r
      end
  end.

Definition select (rows : list R) (location : string) (cutoff : Z) : option R :=
  latest (filter (fresh location cutoff) rows).

(** The awaited select: [{ data, error }].  A failed read has no data. *)
Definition cacheRead {J D} (o : Oracle J) (location : string) (cutoff : Z)
  : M R D (option R * option string) :=
  bind (emit (CacheRead location cutoff)) (fun _ s =>
    match cache_read_error o with
    | Some e => (Val (None, Some e), s)
    | None => (Val (select (table s) location cutoff, None), s)
    end).

(** The awaited insert: [{ error }].  A successful insert appends the row. *)
Definition cacheInsert {J D} (o : Oracle J) (row : R) : M R D (option string) :=
  bind (emit (CacheInsert row)) (fun _ s =>
    match insert_error o with
    | Some e => (Val (Some e), s)
    | None => (Val None, mkSys (table s ++ [row]) (ticks s) (draws s) (trace s))
    end).

(** The awaited [fetch]: a network failure rejects with an [Error]. *)
Definition fetch {J D} (o : Oracle J) (location key : string) : M R D (N * J) :=
  bind (emit (UpstreamCall location key)) (fun _ =>
    match upstream o with
    | NetworkFailure msg => raise (Js.ErrorObj msg)
    | HttpReply st json => ret (st, json)
    end).

(** [try { ... } catch (error) { ... }] around the body, lines 181-194 and
    344-357, from the state a request starts in. *)
Definition runHandler {D} (rows : list R) (m : M R D (Response D))
  : Response D * Sys R :=
  match m (mkSys rows 0%nat 0%nat []) with
  | (Val r, s) => (r, s)
  | (Return r, s) => (r, s)
  | (Throw (Js.ErrorObj msg), s) => (error500 msg, s)
  | (Throw Js.Thrown, s) => (error500 "Unknown error", s)
  end.

End Table.

Arguments fresh {R} rowLocation rowFetchedAt location cutoff r.
Arguments latest {R} rowFetchedAt rows.
Arguments select {R} rowLocation rowFetchedAt rows location cutoff.
Arguments cacheRead {R} rowLocation rowFetchedAt {J D} o location cutoff.
Arguments cacheInsert {R J D} o row.
Arguments fetch {R J D} o location key.
Arguments runHandler {R D} rows m.

End Rt.

Declare Scope handler_scope.
Delimit Scope handler_scope with handler.
Notation "x <- m ;; k" := (Rt.bind m (fun x => k))
  (at level 61, m at next level, right associativity) : handler_scope.
Notation "' p <- m ;; k" := (Rt.bind m (fun x => match x with p => k end))
  (at level 61, p pattern, m at next level, right associativity) : handler_scope.

(* ================================================================== *)
(** ** The forecast handler (lines 1-195) *)
(* ================================================================== *)

Module Forecast.

Import Http Rt.
Local Open Scope handler_scope.

(** One 3-hour sample of [weatherJson.list], as the handler reads it:
    [item.dt]; [item.main], here the [temp] it carries, or [None] for a
    sample without [main]; [item.weather], here the [description]s of its
    elements, or [None] for a sample without [weather]; [item.wind], here
    the [speed] it carries, or [None] for a sample without [wind]. *)
Record Item : Type := mkItem {
  dt : Z;
  main : option Q;
  weather : option (list string);
  wind : option Q
}.

(** The upstream reply, as the handler reads it: [weatherJson.list], or
    [None] for a reply without [list]. *)
Record Reply : Type := mkReply {
  reply_list : option (list Item)
}.

(** A value of the [dailyForecasts] map, lines 106-110.  A wind speed in
    km/h is the result of a multiplication, which may have overflowed. *)
Record Group : Type := mkGroup {
  temps : list Q;
  conditions : list string;
  windSpeeds : list Js.JsNum
}.

(** [interface DayForecast], lines 13-20.  [day_conditions] is the field
    [conditions] ([None] where the array access is out of range) and
    [day_wind_speed] the field [wind_speed]. *)
Record DayForecast : Type := mkDayForecast {
  date : string;
  temperature_max : Js.JsNum;
  temperature_min : Js.JsNum;
  temperature_avg : Js.JsNum;
  day_conditions : option string;
  day_wind_speed : Js.JsNum
}.

(** [interface ForecastData], lines 22-26. *)
Record ForecastData : Type := mkForecastData {
  location : string;
  forecast : list DayForecast;
  fetched_at : Z
}.

(** A row of [forecast_cache]. *)
Record Row : Type := mkRow {
  row_location : string;
  forecast_data : ForecastData;
  row_fetched_at : Z
}.

(** *** The [Map] of line 106: keys in insertion order *)

Definition DailyMap : Type := list (string * Group).

Fixpoint has (k : string) (m : DailyMap) : bool :=
  match m with
  | [] => false
  | (k', _) :: rest => if Js.str_eqb k k' then true else has k rest
  end.

Fixpoint get (k : string) (m : DailyMap) : option Group :=
  match m with
  | [] => None
  | (k', g) :: rest => if Js.str_eqb k k' then Some g else get k rest
  end.

(** [set] keeps the place of a key that is present and appends a new one;
    it also stands for a mutation of the value object held under [k]. *)
Fixpoint set (k : string) (g : Group) (m : DailyMap) : DailyMap :=
  match m with
  | [] => [(k, g)]
  | (k', g') :: rest =>
      if Js.str_eqb k k' then (k', g) :: rest else (k', g') :: set k g rest
  end.

Definition emptyGroup : Group := mkGroup [] [] [].

(** The three [push] calls of lines 131-133. *)
Definition push (data : Group) (t : Q) (c : string) (w : Js.JsNum) : Group :=
  mkGroup (temps data ++ [t]) (conditions data ++ [c]) (windSpeeds data ++ [w]).

(** *** Aggregation, lines 106-147 *)

(** Line 120: [parseFloat((item.wind.speed * 3.6).toFixed(1))]. *)
Definition windSpeedKmh (s : Q) : Js.JsNum :=
  Js.jsRoundTo1 (Js.mul s (Js.double (36 # 10))).

(** What reading a property of [undefined] throws: a [TypeError], which is
    an [Error]. *)
Definition cannotRead (property : string) : Js.Exn :=
  Js.ErrorObj ("Cannot read properties of undefined (reading '" ++ property ++ "')").

Definition itemDate (item : Item) : Js.JsDate := Js.newDate (dt item * 1000).

(** The predicate of the filter of line 115; [now] is [new Date()]. *)
Definition notToday (tz : Z -> Z) (now : Z) (item : Item) : bool :=
  Js.dayStrictNe (Js.getDate tz (itemDate item)) (Js.getDate tz (Some now)).

(** The callback of [list.forEach], lines 117-134. *)
Definition addItem (m : DailyMap) (item : Item) : Js.Exn + DailyMap :=
  match Js.isoDate (itemDate item) with
  | inl e => inl e
  | inr dateKey =>
      match wind item with
      | None => inl (cannotRead "speed")
      | Some speed =>
          let w := windSpeedKmh speed in
          let m1 := if negb (has dateKey m) then set dateKey emptyGroup m else m in
          match get dateKey m1 with
          | None => inl (cannotRead "temps")
          | Some data =>
              match main item with
              | None => inl (cannotRead "temp")
              | Some temp =>
                  match weather item with
                  | None => inl (cannotRead "0")
                  | Some [] => inl (cannotRead "description")
                  | Some (description :: _) =>
                      inr (set dateKey (push data temp description w) m1)
                  end
              end
          end
      end
  end.

(** [forEach]: the first throw ends the loop. *)
Fixpoint forEach (items : list Item) (m : DailyMap) : Js.Exn + DailyMap :=
  match items with
  | [] => inr m
  | item :: rest =>
      match addItem m item with
      | inl e => inl e
      | inr m' => forEach rest m'
      end
  end.

(** The arrow function of lines 139-147. *)
Definition toDayForecast (entry : string * Group) : DayForecast :=
  let (dateKey, data) := entry in
  mkDayForecast
    dateKey
    (Js.mathMax (temps data))
    (Js.mathMin (temps data))
    (Js.jsRoundTo1
       (Js.divLen (Js.sum (map Js.Fin (temps data))) (List.length (temps data))))
    (nth_error (conditions data) (List.length (conditions data) / 2)%nat)
    (Js.jsMathRound
       (Js.divLen (Js.sum (windSpeeds data)) (List.length (windSpeeds data)))).

(** Lines 113-134: the map that the transformation of step 4 starts from. *)
Definition groupByDate (tz : Z -> Z) (now : Z) (items : list Item)
  : Js.Exn + DailyMap :=
  forEach (filter (notToday tz now) items) [].

(** Lines 106-147: [forecast] out of the samples of [weatherJson.list]. *)
Definition aggregate (tz : Z -> Z) (now : Z) (items : list Item)
  : Js.Exn + list DayForecast :=
  match groupByDate tz now items with
  | inl e => inl e
  | inr m => inr (map toDayForecast (firstn 5 m))
  end.

(** Lines 106-147 on the reply: line 115 reads [weatherJson.list.filter]. *)
Definition forecastOf (tz : Z -> Z) (now : Z) (weatherJson : Reply)
  : Js.Exn + list DayForecast :=
  match reply_list weatherJson with
  | None => inl (cannotRead "filter")
  | Some items => aggregate tz now items
  end.

(** *** The handler *)

Definition sixHours : Z := 6 * 60 * 60 * 1000.

Definition Handler (A : Type) : Type := M Row ForecastData A.

(** The body of the [try], lines 40-179.  Console output is left out. *)
Definition handlerBody (o : Oracle Reply) (req : Request)
  : Handler (Response ForecastData) :=
  let location := locationOf req in
  t0 <- now o ;;
  let sixHoursAgo := t0 - sixHours in
  '(cachedData, cacheError) <-
     cacheRead row_location row_fetched_at o location sixHoursAgo ;;
  match cachedData, cacheError with
  | Some cached, None =>
      respond (ok200 (forecast_data cached) "cache"
                 "Data from cache (less than 6 hours old)")
  | _, _ =>
      match keyConfigured o with
      | None =>
          raise (Js.ErrorObj "OPENWEATHER_API_KEY is not set in environment secrets.")
      | Some key =>
          '(st, weatherJson) <- fetch o location key ;;
          if negb (isOk st)
          then raise (Js.ErrorObj ("Weather API error: " ++ Js.decimal (Z.of_N st)))
          else
            tnow <- now o ;;
            forecast <- liftExn (forecastOf (tz o) tnow weatherJson) ;;
            t1 <- now o ;;
            let forecastData := mkForecastData location forecast t1 in
            t2 <- now o ;;
            insertError <- cacheInsert o (mkRow location forecastData t2) ;;
            respond (ok200 forecastData "api"
                       "Fresh 5-day forecast from OpenWeatherMap")
      end
  end.

(** [Deno.serve(async (req) => ...)], lines 33-195, against a cache table. *)
Definition serve (o : Oracle Reply) (req : Request) (rows : list Row)
  : Response ForecastData * Sys Row :=
  if Js.str_eqb (method req) "OPTIONS"
  then (preflight, mkSys rows 0%nat 0%nat [])
  else runHandler rows (handlerBody o req).

End Forecast.

(* ================================================================== *)
(** ** The current-weather handler (lines 195-358) *)
(* ================================================================== *)

Module Current.

Import Http Rt.
Local Open Scope handler_scope.

(** A string-valued property: a string, [null], or [undefined] (an array
    access out of range). *)
Inductive Field : Type :=
  | Value (s : string)
  | Null
  | Undefined.

(** [interface WeatherData], lines 202-210; a numeric field is a number or
    [null].  This is also the row of [weather_cache]. *)
Record WeatherData : Type := mkWeatherData {
  location : string;
  temperature : option Q;
  humidity : option Q;
  wind_speed : option Q;
  wind_direction : Field;
  weather_description : Field;
  fetched_at : Z
}.

(** The fields read of the upstream reply: [main?.temp], [main?.humidity],
    [wind?.speed], [wind?.deg] and [weather?.[0]?.description]; [None] is
    [undefined]. *)
Record WeatherJson : Type := mkWeatherJson {
  main_temp : option Q;
  main_humidity : option Q;
  wind_speed_ms : option Q;
  wind_deg : option Q;
  weather0_description : option string
}.

Definition directions : list string :=
  [ "N"; "NE"; "E"; "SE"; "S"; "SW"; "W"; "NW" ]%string.

Definition descriptions : list string :=
  [ "Despejado"; "Parcialmente nublado"; "Nublado"; "Viento" ]%string.

(** [arr[i]] for an integer [i]. *)
Definition at_ (arr : list string) (i : Z) : Field :=
  if i <? 0 then Undefined
  else match nth_error arr (Z.to_nat i) with
       | Some s => Value s
       | None => Undefined
       end.

(** Lines 305-309.  The quotient is rounded to a double; [Math.round] and
    [%] are exact on doubles, and [%] keeps the sign of the dividend.  An
    infinite quotient makes the index [NaN], which is no index. *)
Definition degToCardinal (deg : Q) : Field :=
  match Js.div deg 45 with
  | Js.Fin quotient =>
      let index := Z.rem (Js.mathRound quotient) 8 in
      at_ directions index
  | _ => Undefined
  end.

(** [x || null] for an optional number. *)
Definition numOrNull (x : option Q) : option Q :=
  match x with
  | Some q => if Js.truthyNum q then Some q else None
  | None => None
  end.

(** [x || null] for an optional string. *)
Definition strOrNull (x : option string) : Field :=
  match x with
  | Some s => if Js.truthyStr s then Value s else Null
  | None => Null
  end.

(** Line 317: [weatherJson.wind?.deg ? degToCardinal(weatherJson.wind.deg) : null]. *)
Definition windDirection (deg : option Q) : Field :=
  match deg with
  | Some d => if Js.truthyNum d then degToCardinal d else Null
  | None => Null
  end.

(** Lines 311-320. *)
Definition normalize (location : string) (weatherJson : WeatherJson) (t : Z)
  : WeatherData :=
  mkWeatherData
    location
    (numOrNull (main_temp weatherJson))
    (numOrNull (main_humidity weatherJson))
    (numOrNull (wind_speed_ms weatherJson))
    (windDirection (wind_deg weatherJson))
    (strOrNull (weather0_description weatherJson))
    t.

(** Lines 267-275, from five draws and the clock.  The product and the sum
    of lines 269-271 are rounded each (they stay far from the largest
    double); a product with 8 or 4 is exact in binary64. *)
Definition mockOf (location : string) (r1 r2 r3 r4 r5 : Q) (t : Z) : WeatherData :=
  mkWeatherData
    location
    (Some (Js.nearest64 (18 + Js.nearest64 (r1 * 10)))%Q)
    (Some (Js.nearest64 (50 + Js.nearest64 (r2 * 30)))%Q)
    (Some (Js.nearest64 (5 + Js.nearest64 (r3 * 15)))%Q)
    (at_ directions (Js.mathFloor (r4 * 8)))
    (at_ descriptions (Js.mathFloor (r5 * 4)))
    t.

Definition thirtyMinutes : Z := 30 * 60 * 1000.

(** The columns that the select of lines 234-241 filters and orders on. *)
Definition rowLocation (r : WeatherData) : string := location r.
Definition rowFetchedAt (r : WeatherData) : Z := fetched_at r.

Definition Handler (A : Type) : Type := M WeatherData WeatherData A.

(** The body of the [try], lines 219-342.  Console output is left out. *)
Definition handlerBody (o : Oracle WeatherJson) (req : Request)
  : Handler (Response WeatherData) :=
  let location := locationOf req in
  t0 <- now o ;;
  let thirtyMinutesAgo := t0 - thirtyMinutes in
  '(cachedData, cacheError) <-
     cacheRead rowLocation rowFetchedAt o location thirtyMinutesAgo ;;
  match cachedData, cacheError with
  | Some cached, None =>
      respond (ok200 cached "cache" "Data from cache (less than 30 minutes old)")
  | _, _ =>
      match keyConfigured o with
      | None =>
          r1 <- mathRandom o ;;
          r2 <- mathRandom o ;;
          r3 <- mathRandom o ;;
          r4 <- mathRandom o ;;
          r5 <- mathRandom o ;;
          t <- now o ;;
          let mockData := mockOf location r1 r2 r3 r4 r5 t in
          _ <- cacheInsert o mockData ;;
          respond (ok200 mockData "mock"
                     "Mock data - Add OPENWEATHER_API_KEY secret for real weather data")
      | Some key =>
          '(st, weatherJson) <- fetch o location key ;;
          if negb (isOk st)
          then raise (Js.ErrorObj ("Weather API error: " ++ Js.decimal (Z.of_N st)))
          else
            t <- now o ;;
            let weatherData := normalize location weatherJson t in
            insertError <- cacheInsert o weatherData ;;
            respond (ok200 weatherData "api" "Fresh data from weather service")
      end
  end.

(** [Deno.serve(async (req) => ...)], lines 212-358, against a cache table. *)
Definition serve (o : Oracle WeatherJson) (req : Request) (rows : list WeatherData)
  : Response WeatherData * Sys WeatherData :=
  if Js.str_eqb (method req) "OPTIONS"
  then (preflight, mkSys rows 0%nat 0%nat [])
  else runHandler rows (handlerBody o req).

End Current.

(* ================================================================== *)
(** ** Notions the statements are written with *)
(* ================================================================== *)

Module Spec.

Import Forecast.

(** The UTC calendar date of a sample, as the handler keys it. *)
Definition dateKeyOf (item : Item) : string := Js.isoDateOfTime (dt item * 1000).

(** The sample's timestamp makes a valid [Date]. *)
Definition validTime (item : Item) : Prop :=
  Z.abs (dt item * 1000) <= Js.maxTimeValue.

(** The sample carries what lines 120-132 read: [wind], [main] and a first
    element of [weather]. *)
Definition wellFormed (item : Item) : Prop :=
  (exists s, wind item = Some s) /\
  (exists t, main item = Some t) /\
  (exists c rest, weather item = Some (c :: rest)).

(** The callback of line 117 takes the sample in. *)
Definition validItem (item : Item) : Prop :=
  validTime item /\ wellFormed item.

(** The three readings of a sample that carries them; they are asked of no
    other sample. *)
Definition temp (item : Item) : Q :=
  match main item with
  | Some t => t
  | None => 0%Q
  end.

Definition description (item : Item) : string :=
  match weather item with
  | Some (c :: _) => c
  | _ => EmptyString
  end.

Definition speed (item : Item) : Q :=
  match wind item with
  | Some s => s
  | None => 0%Q
  end.

(** The distinct elements of a list, each at the place where it appears
    first. *)
Fixpoint firstOccurrences (ks : list string) : list string :=
  match ks with
  | [] => []
  | k :: rest =>
      k :: filter (fun k' => negb (Js.str_eqb k' k)) (firstOccurrences rest)
  end.

(** The three lists of a group are as long as each other and not empty. *)
Definition populated (g : Group) : Prop :=
  (0 < List.length (temps g))%nat /\
  List.length (conditions g) = List.length (temps g) /\
  List.length (windSpeeds g) = List.length (temps g).

(** [m] is an upper bound of [xs] that [xs] attains. *)
Definition isMaximum (m : Q) (xs : list Q) : Prop :=
  In m xs /\ forall x, In x xs -> (x <= m)%Q.

Definition isMinimum (m : Q) (xs : list Q) : Prop :=
  In m xs /\ forall x, In x xs -> (m <= x)%Q.

(** A number with one decimal: the double nearest to a whole number of
    tenths.  From 1e21 on, and for an infinity, rounding to one decimal
    leaves the number as it is. *)
Definition oneDecimal (v : Js.JsNum) : Prop :=
  match v with
  | Js.Fin q =>
      (exists n : Z, q = Js.double (n # 10)) \/
      (inject_Z (10 ^ 21) <= Qabs q)%Q
  | Js.PosInf | Js.NegInf => True
  | Js.NaN => False
  end.

(** The average of line 144 as a function of the temperatures, and the
    mean of line 146 as a function of wind speeds that are finite. *)
Definition average (xs : list Q) : Js.JsNum :=
  Js.jsRoundTo1 (Js.divLen (Js.sum (map Js.Fin xs)) (List.length xs)).

Definition windMean (ws : list Q) : Js.JsNum :=
  Js.jsMathRound (Js.divLen (Js.sum (map Js.Fin ws)) (List.length ws)).


(** What the cache lookup hands to the handler as usable data: the latest
    fresh row, unless the read fails. *)
Definition cacheHit {R J} (rowLocation : R -> string) (rowFetchedAt : R -> Z)
           (o : Rt.Oracle J) (rows : list R) (location : string) (cutoff : Z)
  : option R :=
  match Rt.cache_read_error o with
  | Some _ => None
  | None => Rt.select rowLocation rowFetchedAt rows location cutoff
  end.

(** The run called the upstream provider. *)
Definition calledUpstream {R} (s : Rt.Sys R) : Prop :=
  exists location key, In (Rt.UpstreamCall location key) (Rt.trace s).

(** The run wrote to the cache table. *)
Definition wroteCache {R} (s : Rt.Sys R) : Prop :=
  exists row, In (Rt.CacheInsert row) (Rt.trace s).

(** The same surroundings with another answer to the insert. *)
Definition withInsertError {J} (o : Rt.Oracle J) (e : option string) : Rt.Oracle J :=
  Rt.mkOracle J (Rt.tz o) (Rt.clock o) (Rt.random o) (Rt.api_key o)
              (Rt.cache_read_error o) (Rt.upstream o) e.

(** The same surroundings with another answer to the cache read. *)
Definition withReadError {J} (o : Rt.Oracle J) (e : option string) : Rt.Oracle J :=
  Rt.mkOracle J (Rt.tz o) (Rt.clock o) (Rt.random o) (Rt.api_key o)
              e (Rt.upstream o) (Rt.insert_error o).


End Spec.

(* ================================================================== *)
(** ** Further notions: the samples of a date, the shape of a run *)
(* ================================================================== *)

Module Notions.

Import Forecast.

(** The samples that the filter of line 115 retains. *)
Definition retained (tz : Z -> Z) (now : Z) (items : list Item) : list Item :=
  filter (notToday tz now) items.

(** The samples of a list that carry the date [k], in the order of the list. *)
Definition samplesOf (k : string) (items : list Item) : list Item :=
  filter (fun item => Js.str_eqb (Spec.dateKeyOf item) k) items.

(** A group after the readings of further samples have been pushed. *)
Definition extend (g : Group) (items : list Item) : Group :=
  mkGroup (temps g ++ map Spec.temp items)
          (conditions g ++ map Spec.description items)
          (windSpeeds g ++ map (fun item => windSpeedKmh (Spec.speed item)) items).

(** The readings of a list of samples, column by column. *)
Definition groupOf (items : list Item) : Group := extend emptyGroup items.

(** What the callback of line 117 throws on a sample, if it throws: the
    error of the first of lines 119, 120, 131 and 132 that fails. *)
Definition errorOf (item : Item) : option Js.Exn :=
  if negb (Z.abs (dt item * 1000) <=? Js.maxTimeValue)
  then Some (Js.ErrorObj "Invalid time value")
  else
    match wind item, main item, weather item with
    | None, _, _ =>
        Some (Js.ErrorObj "Cannot read properties of undefined (reading 'speed')")
    | Some _, None, _ =>
        Some (Js.ErrorObj "Cannot read properties of undefined (reading 'temp')")
    | Some _, Some _, None =>
        Some (Js.ErrorObj "Cannot read properties of undefined (reading '0')")
    | Some _, Some _, Some [] =>
        Some (Js.ErrorObj
                "Cannot read properties of undefined (reading 'description')")
    | Some _, Some _, Some (_ :: _) => None
    end.

(** The error of the first sample of a list that has one. *)
Fixpoint firstError (items : list Item) : option Js.Exn :=
  match items with
  | [] => None
  | item :: rest =>
      match errorOf item with
      | Some e => Some e
      | None => firstError rest
      end
  end.

(** The [source] of a success body. *)
Definition sourceOf {D} (r : Http.Response D) : option string :=
  match Http.body r with
  | Http.Success _ source _ => Some source
  | _ => None
  end.

(** An answer is a success envelope with one of the given sources, or the
    error envelope. *)
Definition envelope {D} (sources : list string) (r : Http.Response D) : Prop :=
  Http.headers r = Http.jsonHeaders /\
  ((Http.status r = 200%N /\
    exists data source message,
      Http.body r = Http.Success data source message /\ In source sources) \/
   (Http.status r = 500%N /\
    exists error, Http.body r = Http.Failure error "Failed to fetch weather data")).

(** The outward calls of a run, in order: nothing; the cache read alone; the
    read and the upstream call; the read, the call and one insert; or (with
    [direct]) the read and one insert without a call. *)
Definition orderly {R} (direct : bool) (t : list (Rt.Event R)) : Prop :=
  t = [] \/
  exists location cutoff,
    t = [Rt.CacheRead location cutoff] \/
    (exists key, t = [Rt.CacheRead location cutoff; Rt.UpstreamCall location key]) \/
    (exists key row,
       t = [Rt.CacheRead location cutoff; Rt.UpstreamCall location key;
            Rt.CacheInsert row]) \/
    (direct = true /\
     exists row, t = [Rt.CacheRead location cutoff; Rt.CacheInsert row]).

(** The seven ways a run of the forecast handler goes, each with its answer
    and the state it ends in. *)
Inductive ForecastRun (o : Rt.Oracle Reply) (req : Http.Request)
          (rows : list Row)
  : Http.Response ForecastData * Rt.Sys Row -> Prop :=
  | FPreflight :
      Http.method req = "OPTIONS"%string ->
      ForecastRun o req rows (Http.preflight, Rt.mkSys rows 0 0 [])
  | FCacheHit (cached : Row) :
      Http.method req <> "OPTIONS"%string ->
      Spec.cacheHit row_location row_fetched_at o rows (Http.locationOf req)
                    (Rt.clock o 0 - sixHours) = Some cached ->
      ForecastRun o req rows
        (Http.ok200 (forecast_data cached) "cache"
                    "Data from cache (less than 6 hours old)",
         Rt.mkSys rows 1 0
                  [Rt.CacheRead (Http.locationOf req) (Rt.clock o 0 - sixHours)])
  | FNoKey :
      Http.method req <> "OPTIONS"%string ->
      Spec.cacheHit row_location row_fetched_at o rows (Http.locationOf req)
                    (Rt.clock o 0 - sixHours) = None ->
      Rt.keyConfigured o = None ->
      ForecastRun o req rows
        (Http.error500 "OPENWEATHER_API_KEY is not set in environment secrets.",
         Rt.mkSys rows 1 0
                  [Rt.CacheRead (Http.locationOf req) (Rt.clock o 0 - sixHours)])
  | FNetworkFailure (key msg : string) :
      Http.method req <> "OPTIONS"%string ->
      Spec.cacheHit row_location row_fetched_at o rows (Http.locationOf req)
                    (Rt.clock o 0 - sixHours) = None ->
      Rt.keyConfigured o = Some key ->
      Rt.upstream o = Rt.NetworkFailure msg ->
      ForecastRun o req rows
        (Http.error500 msg,
         Rt.mkSys rows 1 0
                  [Rt.CacheRead (Http.locationOf req) (Rt.clock o 0 - sixHours);
                   Rt.UpstreamCall (Http.locationOf req) key])
  | FUpstreamError (key : string) (st : N) (json : Reply) :
      Http.method req <> "OPTIONS"%string ->
      Spec.cacheHit row_location row_fetched_at o rows (Http.locationOf req)
                    (Rt.clock o 0 - sixHours) = None ->
      Rt.keyConfigured o = Some key ->
      Rt.upstream o = Rt.HttpReply st json ->
      Http.isOk st = false ->
      ForecastRun o req rows
        (Http.error500 ("Weather API error: " ++ Js.decimal (Z.of_N st)),
         Rt.mkSys rows 1 0
                  [Rt.CacheRead (Http.locationOf req) (Rt.clock o 0 - sixHours);
                   Rt.UpstreamCall (Http.locationOf req) key])
  | FAggregateThrows (key : string) (st : N) (json : Reply) (e : Js.Exn) :
      Http.method req <> "OPTIONS"%string ->
      Spec.cacheHit row_location row_fetched_at o rows (Http.locationOf req)
                    (Rt.clock o 0 - sixHours) = None ->
      Rt.keyConfigured o = Some key ->
      Rt.upstream o = Rt.HttpReply st json ->
      Http.isOk st = true ->
      forecastOf (Rt.tz o) (Rt.clock o 1) json = inl e ->
      ForecastRun o req rows
        (match e with
         | Js.ErrorObj msg => Http.error500 msg
         | Js.Thrown => Http.error500 "Unknown error"
         end,
         Rt.mkSys rows 2 0
                  [Rt.CacheRead (Http.locationOf req) (Rt.clock o 0 - sixHours);
                   Rt.UpstreamCall (Http.locationOf req) key])
  | FFresh (key : string) (st : N) (json : Reply) (days : list DayForecast) :
      Http.method req <> "OPTIONS"%string ->
      Spec.cacheHit row_location row_fetched_at o rows (Http.locationOf req)
                    (Rt.clock o 0 - sixHours) = None ->
      Rt.keyConfigured o = Some key ->
      Rt.upstream o = Rt.HttpReply st json ->
      Http.isOk st = true ->
      forecastOf (Rt.tz o) (Rt.clock o 1) json = inr days ->
      ForecastRun o req rows
        (Http.ok200 (mkForecastData (Http.locationOf req) days (Rt.clock o 2)) "api"
                    "Fresh 5-day forecast from OpenWeatherMap",
         Rt.mkSys
           (match Rt.insert_error o with
            | Some _ => rows
            | None =>
                rows ++ [mkRow (Http.locationOf req)
                               (mkForecastData (Http.locationOf req) days (Rt.clock o 2))
                               (Rt.clock o 3)]
            end)
           4 0
           [Rt.CacheRead (Http.locationOf req) (Rt.clock o 0 - sixHours);
            Rt.UpstreamCall (Http.locationOf req) key;
            Rt.CacheInsert
              (mkRow (Http.locationOf req)
                     (mkForecastData (Http.locationOf req) days (Rt.clock o 2))
                     (Rt.clock o 3))]).

(** The six ways a run of the current-weather handler goes. *)
Inductive CurrentRun (o : Rt.Oracle Current.WeatherJson) (req : Http.Request)
          (rows : list Current.WeatherData)
  : Http.Response Current.WeatherData * Rt.Sys Current.WeatherData -> Prop :=
  | CPreflight :
      Http.method req = "OPTIONS"%string ->
      CurrentRun o req rows (Http.preflight, Rt.mkSys rows 0 0 [])
  | CCacheHit (cached : Current.WeatherData) :
      Http.method req <> "OPTIONS"%string ->
      Spec.cacheHit Current.rowLocation Current.rowFetchedAt o rows
                    (Http.locationOf req)
                    (Rt.clock o 0 - Current.thirtyMinutes) = Some cached ->
      CurrentRun o req rows
        (Http.ok200 cached "cache" "Data from cache (less than 30 minutes old)",
         Rt.mkSys rows 1 0
                  [Rt.CacheRead (Http.locationOf req)
                                (Rt.clock o 0 - Current.thirtyMinutes)])
  | CMock :
      Http.method req <> "OPTIONS"%string ->
      Spec.cacheHit Current.rowLocation Current.rowFetchedAt o rows
                    (Http.locationOf req)
                    (Rt.clock o 0 - Current.thirtyMinutes) = None ->
      Rt.keyConfigured o = None ->
      CurrentRun o req rows
        (Http.ok200
           (Current.mockOf (Http.locationOf req) (Rt.random o 0) (Rt.random o 1)
                           (Rt.random o 2) (Rt.random o 3) (Rt.random o 4)
                           (Rt.clock o 1))
           "mock"
           "Mock data - Add OPENWEATHER_API_KEY secret for real weather data",
         Rt.mkSys
           (match Rt.insert_error o with
            | Some _ => rows
            | None =>
                rows ++ [Current.mockOf (Http.locationOf req) (Rt.random o 0)
                           (Rt.random o 1) (Rt.random o 2) (Rt.random o 3)
                           (Rt.random o 4) (Rt.clock o 1)]
            end)
           2 5
           [Rt.CacheRead (Http.locationOf req)
                         (Rt.clock o 0 - Current.thirtyMinutes);
            Rt.CacheInsert
              (Current.mockOf (Http.locationOf req) (Rt.random o 0) (Rt.random o 1)
                              (Rt.random o 2) (Rt.random o 3) (Rt.random o 4)
                              (Rt.clock o 1))])
  | CNetworkFailure (key msg : string) :
      Http.method req <> "OPTIONS"%string ->
      Spec.cacheHit Current.rowLocation Current.rowFetchedAt o rows
                    (Http.locationOf req)
                    (Rt.clock o 0 - Current.thirtyMinutes) = None ->
      Rt.keyConfigured o = Some key ->
      Rt.upstream o = Rt.NetworkFailure msg ->
      CurrentRun o req rows
        (Http.error500 msg,
         Rt.mkSys rows 1 0
                  [Rt.CacheRead (Http.locationOf req)
                                (Rt.clock o 0 - Current.thirtyMinutes);
                   Rt.UpstreamCall (Http.locationOf req) key])
  | CUpstreamError (key : string) (st : N) (json : Current.WeatherJson) :
      Http.method req <> "OPTIONS"%string ->
      Spec.cacheHit Current.rowLocation Current.rowFetchedAt o rows
                    (Http.locationOf req)
                    (Rt.clock o 0 - Current.thirtyMinutes) = None ->
      Rt.keyConfigured o = Some key ->
      Rt.upstream o = Rt.HttpReply st json ->
      Http.isOk st = false ->
      CurrentRun o req rows
        (Http.error500 ("Weather API error: " ++ Js.decimal (Z.of_N st)),
         Rt.mkSys rows 1 0
                  [Rt.CacheRead (Http.locationOf req)
                                (Rt.clock o 0 - Current.thirtyMinutes);
                   Rt.UpstreamCall (Http.locationOf req) key])
  | CFresh (key : string) (st : N) (json : Current.WeatherJson) :
      Http.method req <> "OPTIONS"%string ->
      Spec.cacheHit Current.rowLocation Current.rowFetchedAt o rows
                    (Http.locationOf req)
                    (Rt.clock o 0 - Current.thirtyMinutes) = None ->
      Rt.keyConfigured o = Some key ->
      Rt.upstream o = Rt.HttpReply st json ->
      Http.isOk st = true ->
      CurrentRun o req rows
        (Http.ok200 (Current.normalize (Http.locationOf req) json (Rt.clock o 1))
                    "api" "Fresh data from weather service",
         Rt.mkSys
           (match Rt.insert_error o with
            | Some _ => rows
            | None =>
                rows ++ [Current.normalize (Http.locationOf req) json (Rt.clock o 1)]
            end)
           2 0
           [Rt.CacheRead (Http.locationOf req)
                         (Rt.clock o 0 - Current.thirtyMinutes);
            Rt.UpstreamCall (Http.locationOf req) key;
            Rt.CacheInsert
              (Current.normalize (Http.locationOf req) json (Rt.clock o 1))]).

End Notions.

(* ================================================================== *)
(** ** Sample surroundings *)
(* ================================================================== *)

(** A runtime whose local zone is UTC. *)
Definition utc (t : Z) : Z := 0.

(** Four samples read at 2024-01-10T01:00Z: one later that day, two on the
    11th and one on the 12th. *)
Definition sampleSeries : list Forecast.Item :=
  [ Forecast.mkItem 1704855600 (Some (Js.double (2016 # 100)))
                    (Some ["nubes"%string]) (Some 10%Q);
    Forecast.mkItem 1704931200 (Some 5%Q) (Some ["cielo claro"%string]) (Some 10%Q);
    Forecast.mkItem 1704942000 (Some 7%Q) (Some ["nubes"%string]) (Some 10%Q);
    Forecast.mkItem 1705017600 (Some 1%Q) (Some ["lluvia ligera"%string]) (Some 10%Q) ].

Definition sampleReply : Forecast.Reply := Forecast.mkReply (Some sampleSeries).

(** A clock that stands at 2024-01-10T01:00Z. *)
Definition at0100 (k : nat) : Z := 1704848400000.

Definition getColina : Http.Request := Http.mkRequest "GET" (Some "Colina"%string).

(** A forecast row for Colina fetched one hour earlier. *)
Definition cachedForecast : Forecast.Row :=
  Forecast.mkRow "Colina"
    (Forecast.mkForecastData "Colina" [] 1704844800000) 1704844800000.

(** A weather row for Colina fetched ten minutes earlier. *)
Definition cachedWeather : Current.WeatherData :=
  Current.mkWeatherData "Colina" (Some 21%Q) (Some 40%Q) (Some 3%Q)
    (Current.Value "S") (Current.Value "cielo claro") 1704847800000.

(** The draws 0.5, 0.25, 0.75, 0.9 and 0.3, whatever their number. *)
Definition someDraws (k : nat) : Q :=
  nth k [ 1 # 2; 1 # 4; 3 # 4; 9 # 10; 3 # 10 ]%Q (0 # 1).

(** The reply that carries the four samples of [sampleSeries], and an insert
    that fails. *)
Definition failingInsert : Rt.Oracle Forecast.Reply :=
  Rt.mkOracle _ utc at0100 (fun _ => 0%Q) (Some "k"%string) None
           (Rt.HttpReply 200 sampleReply) (Some "relation does not exist"%string).

Definition failingInsertNow : Rt.Oracle Current.WeatherJson :=
  Rt.mkOracle _ utc at0100 (fun _ => 0%Q) (Some "k"%string) None
           (Rt.HttpReply 200 (Current.mkWeatherJson (Some 21%Q) (Some 40%Q) (Some 3%Q)
                                                 (Some 180%Q) (Some "cielo claro"%string)))
           (Some "relation does not exist"%string).

(** The same reply with an insert that works, and the row that the forecast
    handler writes for it. *)
Definition workingInsert : Rt.Oracle Forecast.Reply :=
  Rt.mkOracle _ utc at0100 (fun _ => 0%Q) (Some "k"%string) None
              (Rt.HttpReply 200 sampleReply) None.

Definition writtenRow : Forecast.Row :=
  Forecast.mkRow "Colina"
    (Forecast.mkForecastData "Colina"
       (map Forecast.toDayForecast
          [ ("2024-01-11"%string,
             Forecast.mkGroup [5; 7]%Q ["cielo claro"; "nubes"]%string
                              [Js.Fin 36; Js.Fin 36]);
            ("2024-01-12"%string,
             Forecast.mkGroup [1]%Q ["lluvia ligera"]%string [Js.Fin 36]) ])
       1704848400000)
    1704848400000.

(** Surroundings in which the provider cannot be reached. *)
Definition unreachable : Rt.Oracle Forecast.Reply :=
  Rt.mkOracle _ utc at0100 (fun _ => 0%Q) (Some "k"%string) None
              (Rt.NetworkFailure "error sending request") None.

(** Surroundings without a provider key. *)
Definition noKey : Rt.Oracle Forecast.Reply :=
  Rt.mkOracle _ utc at0100 (fun _ => 0%Q) None None
              (Rt.HttpReply 200 sampleReply) None.

(* ================================================================== *)
(** ** The runtime pieces on known values *)
(* ================================================================== *)

Example isoDate_epoch : Js.isoDateOfTime 0 = "1970-01-01"%string.
Proof. reflexivity. Qed.

Example isoDate_2024_01_10 : Js.isoDateOfTime 1704844800000 = "2024-01-10"%string.
Proof. reflexivity. Qed.

Example isoDate_leap : Js.isoDateOfTime 1709251199999 = "2024-02-29"%string.
Proof. reflexivity. Qed.

Example isoDate_before_epoch : Js.isoDateOfTime (-1) = "1969-12-31"%string.
Proof. reflexivity. Qed.

Example isoDate_far : Js.isoDateOfTime 8640000000000000 = "+275760-09-13"%string.
Proof. reflexivity. Qed.

Example tenths_2016 : Js.toFixed1_tenths (Js.double (2016 # 100)) = 202.
Proof. vm_compute. reflexivity. Qed.

Example tenths_neg : Js.toFixed1_tenths (- (25 # 100)) = -3.
Proof. reflexivity. Qed.

(** The double of the literal 3.6, and the rounding on a tie, at the edge of
    the subnormal range and past the largest double. *)
Example double_3_6 :
  Js.double (36 # 10) = (8106479329266893 # 2251799813685248)%Q.
Proof. vm_compute. reflexivity. Qed.

Example round64_tie_to_even :
  Js.round64 (inject_Z (2 ^ 53 + 1)) = Js.Fin (inject_Z (2 ^ 53)) /\
  Js.round64 (inject_Z (2 ^ 53 + 3)) = Js.Fin (inject_Z (2 ^ 53 + 4)).
Proof. split; vm_compute; reflexivity. Qed.

Example round64_underflow :
  Js.round64 (1 # 2 ^ 1075) = Js.Fin 0 /\
  Js.round64 (3 # 2 ^ 1075) = Js.Fin (1 # 2 ^ 1073).
Proof. split; vm_compute; reflexivity. Qed.

Example round64_overflow :
  Js.round64 (Js.maxDouble + inject_Z (2 ^ 969)) = Js.Fin Js.maxDouble /\
  Js.round64 (Js.maxDouble + inject_Z (2 ^ 970)) = Js.PosInf /\
  Js.round64 (- (Js.maxDouble + inject_Z (2 ^ 970))) = Js.NegInf.
Proof. repeat split; vm_compute; reflexivity. Qed.

(** The operations of the embedding against those of the primitive floats. *)
Example product_agrees :
  Js.mul (Js.double (875 # 1000)) (Js.double (36 # 10)) =
    Binary64.value (PrimFloat.mul (Binary64.ofDecimal 875 3) (Binary64.ofDecimal 36 1)) /\
  Js.mul (Js.double (1625 # 1000)) (Js.double (36 # 10)) =
    Binary64.value (PrimFloat.mul (Binary64.ofDecimal 1625 3) (Binary64.ofDecimal 36 1)).
Proof. split; vm_compute; reflexivity. Qed.

Example sum_agrees :
  Js.add (Js.Fin (Js.double (1 # 10))) (Js.Fin (Js.double (2 # 10))) =
    Binary64.value (PrimFloat.add (Binary64.ofDecimal 1 1) (Binary64.ofDecimal 2 1)) /\
  Js.add (Js.Fin Js.maxDouble) (Js.Fin Js.maxDouble) =
    Binary64.value (PrimFloat.add PrimFloat.infinity PrimFloat.one).
Proof. split; vm_compute; reflexivity. Qed.

Example quotient_agrees :
  Js.div (Js.double (2015 # 100)) 3 =
    Binary64.value (PrimFloat.div (Binary64.ofDecimal 2015 2) (Binary64.ofInt 3)) /\
  Js.div (inject_Z (45 * 2 ^ 53 + 64)) 45 =
    Binary64.value (PrimFloat.div (Binary64.ofInt (45 * 2 ^ 53 + 64)) (Binary64.ofInt 45)).
Proof. split; vm_compute; reflexivity. Qed.

(* ================================================================== *)
(** ** Facts about the runtime pieces *)
(* ================================================================== *)

Section StringFacts.

Local Open Scope string_scope.

Lemma string_length_append (s t : string) :
  String.length (s ++ t) = (String.length s + String.length t)%nat.
Proof.
  induction s as [| c s IH]; simpl; [reflexivity | now rewrite IH].
Qed.

(** Two strings that end in suffixes of one length end in the same suffix. *)
Lemma append_suffix_inj (s1 : string) :
  forall s2 t1 t2,
    s1 ++ t1 = s2 ++ t2 -> String.length t1 = String.length t2 -> t1 = t2.
Proof.
  induction s1 as [| c s1 IH]; intros [| c' s2] t1 t2 E L; simpl in E.
  - exact E.
  - exfalso. subst t1. simpl in L. rewrite string_length_append in L. lia.
  - exfalso. subst t2. simpl in L. rewrite string_length_append in L. lia.
  - injection E as _ E. eauto.
Qed.

Lemma str_eqb_true (a b : string) : Js.str_eqb a b = true <-> a = b.
Proof. unfold Js.str_eqb. apply String.eqb_eq. Qed.

Lemma str_eqb_false (a b : string) : Js.str_eqb a b = false <-> a <> b.
Proof. unfold Js.str_eqb. apply String.eqb_neq. Qed.

Lemma str_eqb_refl (a : string) : Js.str_eqb a a = true.
Proof. now apply str_eqb_true. Qed.

Lemma str_eqb_sym (a b : string) : Js.str_eqb a b = Js.str_eqb b a.
Proof. unfold Js.str_eqb. apply String.eqb_sym. Qed.

End StringFacts.

Section DateFacts.

Lemma digitChar_inj (a b : Z) :
  0 <= a < 10 -> 0 <= b < 10 -> Js.digitChar a = Js.digitChar b -> a = b.
Proof.
  intros Ha Hb E. unfold Js.digitChar in E.
  apply (f_equal nat_of_ascii) in E.
  rewrite !nat_ascii_embedding in E by lia. lia.
Qed.

Lemma pad2_inj (a b : Z) :
  0 <= a < 100 -> 0 <= b < 100 -> Js.pad2 a = Js.pad2 b -> a = b.
Proof.
  intros Ha Hb E. unfold Js.pad2 in E. injection E as E1 E2.
  apply digitChar_inj in E1;
    [| split; [apply Z.div_pos | apply Z.div_lt_upper_bound]; lia ..].
  apply digitChar_inj in E2; [| apply Z.mod_pos_bound; lia ..].
  rewrite (Z.div_mod a 10), (Z.div_mod b 10) by lia. lia.
Qed.

Lemma day_formula_bounds (doy : Z) :
  1 <= doy - (153 * ((5 * doy + 2) / 153) + 2) / 5 + 1 <= 31.
Proof. Z.to_euclidean_division_equations. lia. Qed.

(** The day of the month is one. *)
Lemma civil_day_bounds (n : Z) : 1 <= Js.c_day (Js.civilFromDays n) <= 31.
Proof.
  unfold Js.civilFromDays; cbv zeta; simpl Js.c_day.
  apply day_formula_bounds.
Qed.

Lemma date_tail_day (y1 y2 : string) (m1 d1 m2 d2 : Z) :
  (y1 ++ "-" ++ Js.pad2 m1 ++ "-" ++ Js.pad2 d1 =
   y2 ++ "-" ++ Js.pad2 m2 ++ "-" ++ Js.pad2 d2)%string ->
  Js.pad2 d1 = Js.pad2 d2.
Proof.
  intros E. apply append_suffix_inj in E; [| reflexivity].
  unfold Js.pad2 in *. cbn [String.append] in E.
  injection E as _ _ E1 E2. now rewrite E1, E2.
Qed.

(** The date string determines the day of the month. *)
Lemma isoDate_day (a b : Z) :
  Js.isoDateOfTime a = Js.isoDateOfTime b ->
  Js.c_day (Js.civilOfTime a) = Js.c_day (Js.civilOfTime b).
Proof.
  unfold Js.isoDateOfTime; cbv zeta. intros E.
  apply date_tail_day in E.
  pose proof (civil_day_bounds (a / Js.msPerDay)).
  pose proof (civil_day_bounds (b / Js.msPerDay)).
  apply pad2_inj in E; unfold Js.civilOfTime in *; lia.
Qed.

End DateFacts.

(* ================================================================== *)
(** ** Facts about the [dailyForecasts] map *)
(* ================================================================== *)

(** Concrete samples are valid. *)
Ltac valid_sample :=
  split;
  [ unfold Spec.validTime; vm_compute; discriminate
  | unfold Spec.wellFormed; cbn; eauto 8 ].

Ltac valid_samples :=
  repeat (apply Forall_cons; [valid_sample |]); try apply Forall_nil.

Section MapFacts.

Import Forecast Spec.

Lemma has_app (k : string) (m1 m2 : DailyMap) :
  has k (m1 ++ m2) = has k m1 || has k m2.
Proof.
  induction m1 as [| [k' g'] m1 IH]; simpl; [reflexivity |].
  destruct (Js.str_eqb k k'); [reflexivity | exact IH].
Qed.

Lemma has_In (k : string) (m : DailyMap) :
  has k m = true <-> In k (map fst m).
Proof.
  induction m as [| [k' g'] m IH]; simpl.
  - split; [discriminate | tauto].
  - destruct (Js.str_eqb k k') eqn:E.
    + apply str_eqb_true in E. subst. tauto.
    + apply str_eqb_false in E. rewrite IH. split; [tauto |].
      intros [H | H]; [congruence | exact H].
Qed.

(** A new key goes to the end of the map. *)
Lemma set_absent (k : string) (g : Group) (m : DailyMap) :
  has k m = false -> set k g m = m ++ [(k, g)].
Proof.
  induction m as [| [k' g'] m IH]; simpl; [reflexivity |].
  destruct (Js.str_eqb k k'); [discriminate |].
  intros H. now rewrite IH.
Qed.

(** Writing twice under a key is writing the second value. *)
Lemma set_set (k : string) (g1 g2 : Group) (m : DailyMap) :
  set k g2 (set k g1 m) = set k g2 m.
Proof.
  induction m as [| [k' g'] m IH]; simpl.
  - now rewrite str_eqb_refl.
  - destruct (Js.str_eqb k k') eqn:E; simpl; rewrite E; [reflexivity |].
    now rewrite IH.
Qed.

Lemma get_set_same (k : string) (g : Group) (m : DailyMap) :
  get k (set k g m) = Some g.
Proof.
  induction m as [| [k' g'] m IH]; simpl.
  - now rewrite str_eqb_refl.
  - destruct (Js.str_eqb k k') eqn:E; simpl; rewrite E; [reflexivity | exact IH].
Qed.

Lemma has_get (k : string) (m : DailyMap) :
  has k m = true -> exists g, get k m = Some g /\ In (k, g) m.
Proof.
  induction m as [| [k' g'] m IH]; simpl; [discriminate |].
  destruct (Js.str_eqb k k') eqn:E.
  - intros _. apply str_eqb_true in E. subst. eauto.
  - intros H. destruct (IH H) as (g & G & I). eauto.
Qed.

(** A key that is present keeps its place, and the map its keys. *)
Lemma set_present_keys (k : string) (g : Group) (m : DailyMap) :
  has k m = true -> map fst (set k g m) = map fst m.
Proof.
  induction m as [| [k' g'] m IH]; simpl; [discriminate |].
  destruct (Js.str_eqb k k') eqn:E; simpl; [reflexivity |].
  intros H. now rewrite IH.
Qed.

Lemma set_In (k : string) (g : Group) (m : DailyMap) (e : string * Group) :
  In e (set k g m) -> In e m \/ e = (k, g).
Proof.
  induction m as [| [k' g'] m IH]; simpl.
  - intros [H | []]. now right.
  - destruct (Js.str_eqb k k') eqn:E; simpl.
    + apply str_eqb_true in E. subst k'. intros [H | H]; auto.
    + intros [H | H]; auto. destruct (IH H); auto.
Qed.

(** What the callback does to the map: a sample with a valid timestamp and
    all its readings opens a group at the end of the map, or goes into the
    group of its date. *)
Lemma addItem_spec (m m' : DailyMap) (item : Item) :
  addItem m item = inr m' ->
  validItem item /\
  let k := dateKeyOf item in
  let w := windSpeedKmh (speed item) in
  (has k m = false /\
   m' = m ++ [(k, push emptyGroup (temp item) (description item) w)]) \/
  (has k m = true /\
   exists data, In (k, data) m /\
     m' = set k (push data (temp item) (description item) w) m).
Proof.
  unfold addItem, itemDate, Js.newDate, validItem, validTime, wellFormed,
    dateKeyOf, temp, description, speed.
  destruct (Z.abs (dt item * 1000) <=? Js.maxTimeValue) eqn:V; simpl;
    [| discriminate].
  apply Z.leb_le in V.
  set (k := Js.isoDateOfTime (dt item * 1000)) in *.
  destruct (wind item) as [s |]; [| discriminate].
  destruct (has k m) eqn:Hk; simpl.
  - destruct (has_get _ _ Hk) as (data & G & I). rewrite G.
    destruct (main item) as [t |]; [| discriminate].
    destruct (weather item) as [[| c rest] |]; try discriminate.
    intros H. injection H as <-.
    split; [split; [exact V | repeat split; eauto] |]. cbv zeta. right. eauto.
  - rewrite get_set_same.
    destruct (main item) as [t |]; [| discriminate].
    destruct (weather item) as [[| c rest] |]; try discriminate.
    intros H. injection H as <-.
    split; [split; [exact V | repeat split; eauto] |]. cbv zeta. left. split; [reflexivity |].
    now rewrite set_set, set_absent.
Qed.

(** The callback does not throw on a sample with a valid timestamp and all
    its readings. *)
Lemma addItem_total (m : DailyMap) (item : Item) :
  validItem item -> exists m', addItem m item = inr m'.
Proof.
  unfold addItem, itemDate, Js.newDate, validItem, validTime, wellFormed.
  intros (V & (s & ->) & (t & ->) & (c & rest & ->)).
  apply Z.leb_le in V. rewrite V. simpl.
  set (k := Js.isoDateOfTime (dt item * 1000)).
  destruct (has k m) eqn:Hk; simpl.
  - destruct (has_get _ _ Hk) as (data & G & _). rewrite G. eauto.
  - rewrite get_set_same. eauto.
Qed.

Lemma forEach_total (items : list Item) :
  Forall validItem items -> forall m, exists m', forEach items m = inr m'.
Proof.
  induction 1 as [| item items V _ IH]; intros m; simpl; [eauto |].
  destruct (addItem_total m item V) as (m1 & ->). apply IH.
Qed.

Lemma forEach_valid (items : list Item) :
  forall m m', forEach items m = inr m' -> Forall validItem items.
Proof.
  induction items as [| item items IH]; intros m m' H; simpl in H; [constructor |].
  destruct (addItem m item) as [e | m1] eqn:A; [discriminate |].
  constructor; [apply (addItem_spec _ _ _ A) | eauto].
Qed.

Lemma filter_all {A} (p : A -> bool) (l : list A) :
  (forall x, p x = true) -> filter p l = l.
Proof.
  intros H. induction l as [| x l IH]; simpl; [reflexivity |].
  now rewrite H, IH.
Qed.

Lemma filter_filter_and {A} (p q : A -> bool) (l : list A) :
  filter p (filter q l) = filter (fun x => q x && p x) l.
Proof.
  induction l as [| x l IH]; simpl; [reflexivity |].
  destruct (q x); simpl; [destruct (p x) |]; now rewrite IH.
Qed.

(** The keys of the map after the loop: those it started with, then the new
    dates in the order in which they first appear. *)
Lemma forEach_keys (items : list Item) :
  forall m m',
    forEach items m = inr m' ->
    map fst m' =
    map fst m ++
    filter (fun k => negb (has k m)) (firstOccurrences (map dateKeyOf items)).
Proof.
  induction items as [| item items IH]; intros m m' H; simpl in H.
  - injection H as <-. simpl. now rewrite app_nil_r.
  - destruct (addItem m item) as [e | m1] eqn:A; [discriminate |].
    rewrite (IH _ _ H). clear IH H.
    destruct (addItem_spec _ _ _ A) as (_ & S). cbv zeta in S.
    set (k := dateKeyOf item) in *. cbn [map firstOccurrences filter]. fold k.
    rewrite filter_filter_and.
    assert (X : forall k', has k' m1 = has k' m || Js.str_eqb k' k).
    { intros k'. destruct S as [(N & ->) | (P & data & I & ->)].
      - rewrite has_app. simpl. now destruct (Js.str_eqb k' k).
      - destruct (Js.str_eqb k' k) eqn:E.
        + apply str_eqb_true in E. subst k'. rewrite P. simpl.
          apply has_In. rewrite set_present_keys by exact P. now apply has_In.
        + rewrite orb_false_r. destruct (has k' m) eqn:Hm.
          * apply has_In. rewrite set_present_keys by exact P. now apply has_In.
          * apply not_true_is_false. intros T. apply has_In in T.
            rewrite set_present_keys in T by exact P. apply has_In in T.
            congruence. }
    assert (F : forall l,
      filter (fun k' => negb (has k' m1)) l =
      filter (fun x => negb (Js.str_eqb x k) && negb (has x m)) l).
    { intros l. apply filter_ext. intros x. rewrite X.
      now destruct (has x m), (Js.str_eqb x k). }
    rewrite F. clear F X.
    destruct S as [(N & ->) | (P & data & I & ->)].
    + rewrite N. simpl. rewrite map_app, <- app_assoc. reflexivity.
    + rewrite P. simpl. now rewrite set_present_keys by exact P.
Qed.

(** Every group of the map after the loop has received a sample. *)
Lemma forEach_populated (items : list Item) :
  forall m m',
    forEach items m = inr m' ->
    (forall e, In e m -> populated (snd e)) ->
    forall e, In e m' -> populated (snd e).
Proof.
  assert (P : forall g t c w,
             g = emptyGroup \/ populated g -> populated (push g t c w)).
  { intros g t c w [-> | (L & C & W)]; unfold populated, push; simpl.
    - repeat split; lia.
    - rewrite !length_app, C, W. simpl. repeat split; lia. }
  induction items as [| item items IH]; intros m m' H Inv; simpl in H.
  - now injection H as <-.
  - destruct (addItem m item) as [e | m1] eqn:A; [discriminate |].
    apply (IH _ _ H). clear IH H.
    destruct (addItem_spec _ _ _ A) as (_ & S). cbv zeta in S.
    intros e I. destruct S as [(N & ->) | (_ & data & D & ->)].
    + apply in_app_or in I. destruct I as [I | [<- | []]]; [auto |].
      apply P. now left.
    + apply set_In in I. destruct I as [I | ->]; [auto |].
      apply P. right. apply (Inv _ D).
Qed.

(** The samples that stay after the filter of line 115 are not of the
    current date, when the local zone is UTC. *)
Lemma notToday_utc (tz : Z -> Z) (now : Z) (item : Item) :
  (forall t, tz t = 0) ->
  validItem item ->
  notToday tz now item = true ->
  dateKeyOf item <> Js.isoDateOfTime now.
Proof.
  intros U (V & _) N E. unfold notToday, itemDate, Js.newDate in N.
  apply Z.leb_le in V. rewrite V in N.
  cbn [Js.getDate Js.dayStrictNe] in N.
  rewrite !U, !Z.add_0_r in N.
  unfold dateKeyOf in E.
  pose proof (isoDate_day (dt item * 1000) now E) as D.
  rewrite D, Z.eqb_refl in N. discriminate.
Qed.

Lemma firstOccurrences_In (k : string) (ks : list string) :
  In k (firstOccurrences ks) -> In k ks.
Proof.
  induction ks as [| k0 ks IH]; simpl; [tauto |].
  intros [H | H]; [now left |].
  apply filter_In in H. right. tauto.
Qed.

End MapFacts.

(* ================================================================== *)
(** ** Forecast aggregation: at most five days, not today, in order *)
(* ================================================================== *)

Section AggregationOrder.

Import Forecast Spec.

Lemma date_toDayForecast (m : DailyMap) :
  map date (map toDayForecast m) = map fst m.
Proof.
  induction m as [| [k g] m IH]; simpl; [reflexivity | now rewrite IH].
Qed.

Lemma aggregate_inv (tz : Z -> Z) (now : Z) (items : list Item)
      (out : list DayForecast) :
  aggregate tz now items = inr out ->
  exists m,
    forEach (filter (notToday tz now) items) [] = inr m /\
    out = map toDayForecast (firstn 5 m).
Proof.
  unfold aggregate, groupByDate.
  destruct (forEach _ _) as [e | m]; [discriminate |].
  intros H. injection H as <-. eauto.
Qed.

(** The aggregation of an upstream series, at any current time: when every
    sample carries its readings and a timestamp that makes a valid date, the
    aggregation yields an output; and an output it yields has at most 5 day
    entries and lists the distinct dates of the retained samples in the
    order in which they first appear in the series (the first five of them);
    where the runtime's local zone is UTC, it has no entry whose date is the
    current date. *)
Theorem aggregate_five_days_in_order_not_today
        (tz : Z -> Z) (now : Z) (items : list Item) :
  (Forall validItem items -> exists out, aggregate tz now items = inr out) /\
  forall out,
    aggregate tz now items = inr out ->
    (List.length out <= 5)%nat /\
    map date out =
      firstn 5 (firstOccurrences
                  (map dateKeyOf (filter (notToday tz now) items))) /\
    ((forall t, tz t = 0) ->
     forall d, In d out -> date d <> Js.isoDateOfTime now).
Proof.
  split.
  - intros V. unfold aggregate, groupByDate.
    destruct (forEach_total (filter (notToday tz now) items)) with (m := @nil (string * Group))
      as (m & ->); [| eauto].
    apply Forall_forall. intros x I. apply filter_In in I.
    rewrite Forall_forall in V. now apply V.
  - intros out A. destruct (aggregate_inv _ _ _ _ A) as (m & F & ->).
    assert (K : map date (map toDayForecast (firstn 5 m)) =
                firstn 5 (firstOccurrences
                  (map dateKeyOf (filter (notToday tz now) items)))).
    { rewrite date_toDayForecast, <- firstn_map, (forEach_keys _ _ _ F).
      cbn [map app]. now rewrite filter_all by reflexivity. }
    split; [| split].
    + rewrite length_map. apply firstn_le_length.
    + exact K.
    + intros U d I E.
      apply (in_map date) in I. rewrite K in I.
      assert (I' : In (date d)
                (map dateKeyOf (filter (notToday tz now) items))).
      { apply firstOccurrences_In. revert I. clear.
        generalize 5%nat as n.
        induction (firstOccurrences _) as [| x l IH]; intros [| n]; simpl; try tauto.
        intros [H | H]; eauto. }
      apply in_map_iff in I'. destruct I' as (item & Ek & If).
      pose proof (forEach_valid _ _ _ F) as V. rewrite Forall_forall in V.
      apply filter_In in If as I2. destruct I2 as (_ & N).
      apply (notToday_utc tz now item U (V _ If) N). congruence.
Qed.

Lemma aggregate_five_days_in_order_not_today_witness :
  exists out,
    aggregate utc 1704848400000 sampleSeries = inr out /\
    map date out = [ "2024-01-11"; "2024-01-12" ]%string /\
    forall d, In d out -> date d <> "2024-01-10"%string.
Proof.
  destruct (aggregate_five_days_in_order_not_today utc 1704848400000 sampleSeries)
    as (T & P).
  destruct T as (out & E).
  { valid_samples. }
  exists out. destruct (P out E) as (_ & K & N).
  split; [exact E | split].
  - rewrite K. vm_compute. reflexivity.
  - apply N. reflexivity.
Defined.

(** C1.  The forecast handler's output is to have no entry for the current
    calendar date: lines 112-114 announce that the remaining hours of today
    are excluded.  The filter of line 115 reads the day of the month in the
    runtime's local zone and the key of line 119 the date in UTC, so the
    exclusion holds on a runtime whose zone is UTC and is missed elsewhere:
    nine hours east of Greenwich, a sample of 2024-01-10T15:00Z fetched at
    2024-01-10T12:00Z (21:00 local time) passes the filter, for in local
    time it belongs to the 11th, and the output is one entry dated
    2024-01-10, the date of the fetch both in UTC and in local time. *)
Theorem aggregate_east_of_utc :
  exists d,
    notToday (fun _ => 9 * 3600000) 1704888000000
             (mkItem 1704898800 (Some (Js.double (2016 # 100)))
                     (Some ["nubes"%string]) (Some 10%Q)) = true /\
    aggregate (fun _ => 9 * 3600000) 1704888000000
              [ mkItem 1704898800 (Some (Js.double (2016 # 100)))
                       (Some ["nubes"%string]) (Some 10%Q) ] = inr [ d ] /\
    date d = "2024-01-10"%string /\
    date d = Js.isoDateOfTime 1704888000000 /\
    date d = Js.isoDateOfTime (1704888000000 + 9 * 3600000).
Proof. eexists. repeat split; vm_compute; reflexivity. Qed.

End AggregationOrder.

(* ================================================================== *)
(** ** The rounding to binary64 *)
(* ================================================================== *)

Section Rounding.

Import Js.
Local Open Scope Q_scope.

Lemma pow2_pos (e : Z) : 0 < pow2 e.
Proof. apply Qpower_0_lt. reflexivity. Qed.

Lemma pow2_add (a b : Z) : pow2 (a + b) == pow2 a * pow2 b.
Proof. apply Qpower_plus. discriminate. Qed.

Lemma pow2_sub (a b : Z) : pow2 (a - b) == pow2 a / pow2 b.
Proof. apply Qpower_minus. discriminate. Qed.

Lemma pow2_le (a b : Z) : (a <= b)%Z -> pow2 a <= pow2 b.
Proof. intro H. apply Qpower_le_compat_l; [exact H | discriminate]. Qed.

Lemma pow2_int (e : Z) : (0 <= e)%Z -> pow2 e == inject_Z (2 ^ e).
Proof. intro H. unfold pow2. rewrite Zpower_Qpower by exact H. reflexivity. Qed.

Lemma pow2_lt_inv (a b : Z) : pow2 a < pow2 b -> (a < b)%Z.
Proof. intro H. apply (Qpower_lt_compat_l_inv 2); [exact H | reflexivity]. Qed.

(** [ilog2] finds the binary exponent. *)
Lemma ilog2_spec (a : Q) : 0 < a -> pow2 (ilog2 a) <= a /\ a < pow2 (ilog2 a + 1).
Proof.
  intro Ha. destruct a as [n d].
  assert (Hn : (0 < n)%Z) by (unfold Qlt in Ha; simpl in Ha; lia).
  unfold ilog2. cbn [Qnum Qden].
  set (ln := Z.log2 n). set (ld := Z.log2 (Z.pos d)).
  assert (Ln : (2 ^ ln <= n < 2 ^ (ln + 1))%Z).
  { pose proof (Z.log2_spec n Hn) as H. unfold ln. rewrite <- Z.add_1_r in H. exact H. }
  assert (Ld : (2 ^ ld <= Z.pos d < 2 ^ (ld + 1))%Z).
  { pose proof (Z.log2_spec (Z.pos d) eq_refl) as H. unfold ld.
    rewrite <- Z.add_1_r in H. exact H. }
  assert (Hln : (0 <= ln)%Z) by apply Z.log2_nonneg.
  assert (Hld : (0 <= ld)%Z) by apply Z.log2_nonneg.
  assert (E : n # d == inject_Z n / inject_Z (Z.pos d)) by apply Qmake_Qdiv.
  assert (Pd : 0 < inject_Z (Z.pos d)) by reflexivity.
  assert (Q1 : pow2 ln <= inject_Z n).
  { rewrite pow2_int by lia. rewrite <- Zle_Qle. lia. }
  assert (Q2 : inject_Z n < pow2 (ln + 1)).
  { rewrite pow2_int by lia. rewrite <- Zlt_Qlt. lia. }
  assert (Q3 : pow2 ld <= inject_Z (Z.pos d)).
  { rewrite pow2_int by lia. rewrite <- Zle_Qle. lia. }
  assert (Q4 : inject_Z (Z.pos d) < pow2 (ld + 1)).
  { rewrite pow2_int by lia. rewrite <- Zlt_Qlt. lia. }
  assert (Up : n # d < pow2 (ln - ld + 1)).
  { rewrite E. apply Qlt_shift_div_r; [exact Pd |].
    replace (ln - ld + 1)%Z with ((ln + 1) - ld)%Z by lia.
    rewrite pow2_sub.
    pose proof (pow2_pos ld) as P1. pose proof (pow2_pos (ln + 1)) as P2.
    apply Qlt_le_trans with (pow2 (ln + 1)); [exact Q2 |].
    setoid_replace (pow2 (ln + 1)) with (pow2 (ln + 1) / pow2 ld * pow2 ld) at 1
      by (field; intro Z0; rewrite Z0 in P1; discriminate).
    apply Qmult_le_l.
    - apply Qlt_shift_div_l; [exact P1 |]. rewrite Qmult_0_l. exact P2.
    - exact Q3. }
  assert (Lo : pow2 (ln - ld - 1) < n # d).
  { rewrite E. apply Qlt_shift_div_l; [exact Pd |].
    replace (ln - ld - 1)%Z with (ln - (ld + 1))%Z by lia.
    rewrite pow2_sub.
    pose proof (pow2_pos (ld + 1)) as P1. pose proof (pow2_pos ln) as P2.
    apply Qlt_le_trans with (pow2 ln); [| exact Q1].
    setoid_replace (pow2 ln) with (pow2 ln / pow2 (ld + 1) * pow2 (ld + 1)) at 2
      by (field; intro Z0; rewrite Z0 in P1; discriminate).
    apply Qmult_lt_l.
    - apply Qlt_shift_div_l; [exact P1 |]. rewrite Qmult_0_l. exact P2.
    - exact Q4. }
  destruct (Qle_bool (pow2 (ln - ld)) (n # d)) eqn:B.
  - apply Qle_bool_iff in B. split; [exact B | exact Up].
  - split.
    + apply Qlt_le_weak. exact Lo.
    + replace (ln - ld - 1 + 1)%Z with (ln - ld)%Z by lia.
      apply Qnot_le_lt. intro H. apply Qle_bool_iff in H. congruence.
Qed.

Lemma ilog2_lower (a : Q) (e : Z) : pow2 e <= a -> (e <= ilog2 a)%Z.
Proof.
  intros H.
  assert (Ha : 0 < a) by (eapply Qlt_le_trans; [apply (pow2_pos e) | exact H]).
  destruct (ilog2_spec a Ha) as [_ S2].
  assert (e < ilog2 a + 1)%Z; [| lia].
  apply pow2_lt_inv. eapply Qle_lt_trans; [exact H | exact S2].
Qed.

Lemma ilog2_mono (a b : Q) : 0 < a -> a <= b -> (ilog2 a <= ilog2 b)%Z.
Proof.
  intros Ha Hab. destruct (ilog2_spec a Ha) as [A1 _].
  apply ilog2_lower. eapply Qle_trans; eauto.
Qed.

Lemma roundEven_cases (y : Q) :
  roundEven y = Qfloor y \/ roundEven y = (Qfloor y + 1)%Z.
Proof.
  unfold roundEven.
  destruct (Qcompare _ _); [destruct (Z.even _) | |]; auto.
Qed.

Lemma roundEven_mono (x y : Q) : x <= y -> (roundEven x <= roundEven y)%Z.
Proof.
  intro H.
  pose proof (Qfloor_resp_le _ _ H) as F.
  destruct (Z.eq_dec (Qfloor x) (Qfloor y)) as [E | N].
  - unfold roundEven. rewrite <- E.
    destruct (Qcompare_spec (x - inject_Z (Qfloor x)) (1 # 2)) as [Cx | Cx | Cx];
      destruct (Qcompare_spec (y - inject_Z (Qfloor x)) (1 # 2)) as [Cy | Cy | Cy];
      try (destruct (Z.even (Qfloor x))); try lia; exfalso; lra.
  - destruct (roundEven_cases x) as [Rx | Rx];
      destruct (roundEven_cases y) as [Ry | Ry]; lia.
Qed.

Lemma roundEven_int (n : Z) : roundEven (inject_Z n) = n.
Proof.
  unfold roundEven. rewrite Qfloor_Z.
  destruct (Qcompare_spec (inject_Z n - inject_Z n) (1 # 2)) as [C | C | C].
  - exfalso. lra.
  - reflexivity.
  - exfalso. lra.
Qed.

Lemma div_pow2_le (a b : Q) (p : Z) : a <= b -> a / pow2 p <= b / pow2 p.
Proof.
  intro H. unfold Qdiv. apply Qmult_le_compat_r; [exact H |].
  apply Qlt_le_weak, Qinv_lt_0_compat, pow2_pos.
Qed.

Lemma nearestPos_nonneg (a : Q) : 0 <= a -> 0 <= nearestPos a.
Proof.
  intro H. unfold nearestPos.
  apply Qmult_le_0_compat; [| apply Qlt_le_weak, pow2_pos].
  change 0 with (inject_Z 0). rewrite <- Zle_Qle.
  rewrite <- (roundEven_int 0). apply roundEven_mono.
  apply Qle_shift_div_l; [apply pow2_pos |].
  change (inject_Z 0) with 0. rewrite Qmult_0_l. exact H.
Qed.

(** Rounding a positive number keeps the order: within one binade the
    nearest integer does, and between two binades lies a power of two,
    which is a double. *)
Lemma nearestPos_mono (a b : Q) : 0 < a -> a <= b -> nearestPos a <= nearestPos b.
Proof.
  intros Ha Hab.
  assert (Hb : 0 < b) by (eapply Qlt_le_trans; eauto).
  pose proof (ilog2_mono a b Ha Hab) as He.
  destruct (ilog2_spec a Ha) as [A1 A2]. destruct (ilog2_spec b Hb) as [B1 B2].
  unfold nearestPos.
  destruct (Z.eq_dec (quantum a) (quantum b)) as [E | N].
  - rewrite E. apply Qmult_le_compat_r; [| apply Qlt_le_weak, pow2_pos].
    rewrite <- Zle_Qle. apply roundEven_mono, div_pow2_le, Hab.
  - assert (Pb : quantum b = (ilog2 b - 52)%Z) by (unfold quantum in *; lia).
    assert (Pa : (ilog2 a - 52 <= quantum a)%Z) by (unfold quantum; lia).
    assert (Lt : (quantum a < quantum b)%Z) by (unfold quantum in *; lia).
    apply Qle_trans with (pow2 (ilog2 b)).
    + assert (K : (0 <= ilog2 b - quantum a)%Z) by lia.
      apply Qle_trans with (inject_Z (2 ^ (ilog2 b - quantum a)) * pow2 (quantum a)).
      * apply Qmult_le_compat_r; [| apply Qlt_le_weak, pow2_pos].
        rewrite <- Zle_Qle.
        rewrite <- (roundEven_int (2 ^ (ilog2 b - quantum a))).
        apply roundEven_mono.
        rewrite <- pow2_int by exact K. rewrite pow2_sub.
        apply div_pow2_le.
        apply Qle_trans with (pow2 (ilog2 a + 1)); [apply Qlt_le_weak, A2 |].
        apply pow2_le. lia.
      * rewrite <- pow2_int by exact K. rewrite <- pow2_add.
        apply pow2_le. lia.
    + apply Qle_trans with (inject_Z (2 ^ 52) * pow2 (quantum b)).
      * rewrite <- pow2_int by lia. rewrite <- pow2_add. apply pow2_le. lia.
      * apply Qmult_le_compat_r; [| apply Qlt_le_weak, pow2_pos].
        rewrite <- Zle_Qle.
        rewrite <- (roundEven_int (2 ^ 52)) at 1.
        apply roundEven_mono.
        rewrite <- pow2_int by lia.
        setoid_replace (pow2 52) with (pow2 (ilog2 b) / pow2 (quantum b)).
        -- apply div_pow2_le, B1.
        -- rewrite <- pow2_sub. rewrite Pb.
           replace (ilog2 b - (ilog2 b - 52))%Z with 52%Z by lia. reflexivity.
Qed.

Lemma near_mono (x y : Q) : x <= y -> near x <= near y.
Proof.
  intro H. unfold near.
  destruct (Qcompare_spec x 0) as [Cx | Cx | Cx];
    destruct (Qcompare_spec y 0) as [Cy | Cy | Cy];
    try (exfalso; lra); try lra.
  - apply nearestPos_nonneg. lra.
  - assert (0 <= nearestPos (- x)) by (apply nearestPos_nonneg; lra). lra.
  - assert (nearestPos (- y) <= nearestPos (- x)) by (apply nearestPos_mono; lra). lra.
  - assert (0 <= nearestPos (- x)) by (apply nearestPos_nonneg; lra).
    assert (0 <= nearestPos y) by (apply nearestPos_nonneg; lra). lra.
  - apply nearestPos_mono; lra.
Qed.

(** Rounding to the nearest double keeps the order. *)
Lemma nearest64_mono (x y : Q) : x <= y -> nearest64 x <= nearest64 y.
Proof.
  intro H. unfold nearest64. rewrite !Qred_correct. apply near_mono, H.
Qed.

(** Rounding stays between two doubles. *)
Lemma nearest64_between (x lo hi : Q) :
  nearest64 lo == lo -> nearest64 hi == hi -> lo <= x <= hi ->
  lo <= nearest64 x <= hi.
Proof.
  intros L H (A & B). split.
  - apply Qle_trans with (nearest64 lo); [rewrite L; apply Qle_refl |].
    apply nearest64_mono, A.
  - apply Qle_trans with (nearest64 hi); [| rewrite H; apply Qle_refl].
    apply nearest64_mono, B.
Qed.


(** A double of magnitude [2^e] or more is a multiple of [2^(e-52)]. *)
Lemma double_grid (x : Q) (e : Z) :
  isDouble x -> pow2 e <= Qabs x -> (-1022 <= e)%Z ->
  exists n : Z, x == inject_Z n * pow2 (e - 52).
Proof.
  unfold isDouble, nearest64. rewrite Qred_correct. intros (D & _) H He.
  pose proof (pow2_pos e) as Pe.
  assert (G : forall a, 0 < a -> pow2 e <= a ->
              exists n : Z, nearestPos a == inject_Z n * pow2 (e - 52)).
  { intros a Ha Hle. pose proof (ilog2_lower a e Hle) as L.
    assert (K : (0 <= quantum a - (e - 52))%Z) by (unfold quantum; lia).
    exists (roundEven (a / pow2 (quantum a)) * 2 ^ (quantum a - (e - 52)))%Z.
    unfold nearestPos. rewrite inject_Z_mult. rewrite <- (pow2_int _ K).
    rewrite <- Qmult_assoc. rewrite <- pow2_add.
    replace (quantum a - (e - 52) + (e - 52))%Z with (quantum a) by lia. reflexivity. }
  unfold near in D.
  destruct (Qcompare_spec x 0) as [C | C | C].
  - rewrite C in H. exfalso. change (Qabs 0) with 0 in H. lra.
  - rewrite Qabs_neg in H by lra.
    destruct (G (- x)) as [n E]; [lra | exact H |].
    exists (- n)%Z. rewrite inject_Z_opp. rewrite <- D. rewrite E. ring.
  - rewrite Qabs_pos in H by lra.
    destruct (G x) as [n E]; [lra | exact H |].
    exists n. rewrite <- D. exact E.
Qed.

(** *** The order of the runtime's numbers *)

Lemma jsLe_Fin (x y : Q) : jsLe (Fin x) (Fin y) <-> x <= y.
Proof. unfold jsLe. simpl. apply Qle_bool_iff. Qed.

Lemma jsLe_refl (a : JsNum) : a <> NaN -> jsLe a a.
Proof.
  destruct a; intros H; try reflexivity; [| congruence].
  apply jsLe_Fin, Qle_refl.
Qed.

Lemma jsLe_trans (a b c : JsNum) : jsLe a b -> jsLe b c -> jsLe a c.
Proof.
  destruct a, b, c; unfold jsLe; simpl; try discriminate; try reflexivity.
  rewrite !Qle_bool_iff. apply Qle_trans.
Qed.

Lemma jsLe_not_NaN (a : JsNum) : jsLe a a -> a <> NaN.
Proof. destruct a; unfold jsLe; simpl; congruence. Qed.

Lemma round64_cases (x : Q) :
  round64 x = Fin (nearest64 x) \/ round64 x = PosInf \/ round64 x = NegInf.
Proof.
  unfold round64. destruct (Qle_bool _ _); [destruct (Qle_bool _ _) |]; auto.
Qed.

Lemma round64_not_NaN (x : Q) : round64 x <> NaN.
Proof. destruct (round64_cases x) as [-> | [-> | ->]]; discriminate. Qed.

(** A result inside the range of the doubles is a finite number. *)
Lemma round64_finite (x : Q) :
  - maxDouble <= nearest64 x <= maxDouble -> round64 x = Fin (nearest64 x).
Proof.
  intros (L & U). unfold round64.
  apply Qle_bool_iff in L, U. now rewrite U, L.
Qed.

(** Rounding to a number of the runtime keeps the order. *)
Lemma round64_mono (x y : Q) : x <= y -> jsLe (round64 x) (round64 y).
Proof.
  intro H. pose proof (nearest64_mono x y H) as M. unfold round64.
  assert (MD : 0 <= maxDouble) by discriminate.
  destruct (Qle_bool (nearest64 x) maxDouble) eqn:X1;
    [destruct (Qle_bool (- maxDouble) (nearest64 x)) eqn:X2 |];
    (destruct (Qle_bool (nearest64 y) maxDouble) eqn:Y1;
     [destruct (Qle_bool (- maxDouble) (nearest64 y)) eqn:Y2 |]);
    try reflexivity;
    try (apply jsLe_Fin; exact M);
    exfalso;
    repeat match goal with
    | B : Qle_bool _ _ = true |- _ => apply Qle_bool_iff in B
    | B : Qle_bool ?a ?b = false |- _ =>
        assert (~ a <= b) by (intros Z0; apply Qle_bool_iff in Z0; congruence);
        clear B
    end;
    lra.
Qed.

(** One decimal, through [toFixed(1)] and [parseFloat], keeps the order. *)
Lemma big_is_double :
  nearest64 (inject_Z 1000000000000000000000) == inject_Z 1000000000000000000000 /\
  nearest64 (- inject_Z 1000000000000000000000) == - inject_Z 1000000000000000000000.
Proof. split; vm_compute; reflexivity. Qed.

End Rounding.

(* ================================================================== *)
(** ** Facts about the numeric formulas *)
(* ================================================================== *)

Section NumberFacts.

Import Spec.
Local Open Scope Q_scope.

Lemma tenths_as_quotient (n : Z) : n # 10 == inject_Z n * (1 # 10).
Proof. unfold Qeq, Qmult, inject_Z; simpl. lia. Qed.

Lemma tenths_mono (x y : Q) :
  x <= y -> (Js.toFixed1_tenths x <= Js.toFixed1_tenths y)%Z.
Proof.
  intros L. unfold Js.toFixed1_tenths.
  destruct (Qle_bool 0 x) eqn:Sx, (Qle_bool 0 y) eqn:Sy.
  - apply Qfloor_resp_le. lra.
  - apply Qle_bool_iff in Sx. exfalso.
    assert (0 <= y) by lra. apply Qle_bool_iff in H. congruence.
  - apply Qle_bool_iff in Sy.
    assert (Nx : ~ 0 <= x) by (intros H; apply Qle_bool_iff in H; congruence).
    assert (0 <= Qfloor (- x * 10 + (1 # 2)))%Z.
    { rewrite <- (Qfloor_Z 0). apply Qfloor_resp_le.
      change (inject_Z 0) with 0. lra. }
    assert (0 <= Qfloor (y * 10 + (1 # 2)))%Z.
    { rewrite <- (Qfloor_Z 0). apply Qfloor_resp_le.
      change (inject_Z 0) with 0. lra. }
    lia.
  - apply Z.opp_le_mono. rewrite !Z.opp_involutive.
    apply Qfloor_resp_le. lra.
Qed.

Lemma floor_int_half (n : Z) : Qfloor (inject_Z n + (1 # 2)) = n.
Proof.
  pose proof (Qfloor_le (inject_Z n + (1 # 2))) as L.
  pose proof (Qlt_floor (inject_Z n + (1 # 2))) as U.
  set (f := Qfloor _) in *.
  assert (L' : inject_Z f < inject_Z (n + 1)).
  { rewrite inject_Z_plus. change (inject_Z 1) with 1. lra. }
  assert (U' : inject_Z n < inject_Z (f + 1)) by lra.
  rewrite <- Zlt_Qlt in L', U'. lia.
Qed.

Lemma tenths_of_int (b : Z) : Js.toFixed1_tenths (inject_Z b) = (10 * b)%Z.
Proof.
  unfold Js.toFixed1_tenths. destruct (Qle_bool 0 (inject_Z b)).
  - rewrite <- (floor_int_half (10 * b)). apply Qfloor_comp.
    rewrite inject_Z_mult. change (inject_Z 10) with 10. lra.
  - rewrite <- (Z.opp_involutive (10 * b)). f_equal.
    rewrite <- (floor_int_half (- (10 * b))). apply Qfloor_comp.
    rewrite inject_Z_opp, inject_Z_mult. change (inject_Z 10) with 10. lra.
Qed.

Lemma tenths_below (x : Q) (b : Z) :
  x <= inject_Z b -> Js.toFixed1_tenths x # 10 <= inject_Z b.
Proof.
  intros L. pose proof (tenths_mono _ _ L) as T.
  rewrite tenths_of_int in T. rewrite tenths_as_quotient.
  rewrite Zle_Qle, inject_Z_mult in T.
  change (inject_Z 10) with 10 in T. lra.
Qed.

Lemma tenths_above (x : Q) (b : Z) :
  inject_Z b <= x -> inject_Z b <= Js.toFixed1_tenths x # 10.
Proof.
  intros L. pose proof (tenths_mono _ _ L) as T.
  rewrite tenths_of_int in T. rewrite tenths_as_quotient.
  rewrite Zle_Qle, inject_Z_mult in T.
  change (inject_Z 10) with 10 in T. lra.
Qed.

(** Rounding to one decimal keeps the order. *)
Lemma roundTo1_mono (x y : Q) : x <= y -> Js.roundTo1 x <= Js.roundTo1 y.
Proof.
  intros L. unfold Js.roundTo1, Js.double.
  destruct big_is_double as (Bp & Bn).
  set (big := 1000000000000000000000%Z) in *.
  destruct (Qle_bool (big # 1) (Qabs x)) eqn:Bx,
           (Qle_bool (big # 1) (Qabs y)) eqn:By;
    change (big # 1) with (inject_Z big) in Bx, By; clearbody big.
  - exact L.
  - apply Qle_bool_iff in Bx.
    assert (Sy : Qabs y < inject_Z big).
    { apply Qnot_le_lt. intros H. apply Qle_bool_iff in H.
      rewrite H in By. discriminate. }
    apply Qabs_Qlt_condition in Sy.
    assert (X : x <= - inject_Z big).
    { revert Bx. apply Qabs_case; intros; lra. }
    apply Qle_trans with (Js.nearest64 (- inject_Z big)); [rewrite Bn; exact X |].
    apply nearest64_mono. rewrite <- inject_Z_opp. apply tenths_above.
    rewrite inject_Z_opp. lra.
  - apply Qle_bool_iff in By.
    assert (Sx : Qabs x < inject_Z big).
    { apply Qnot_le_lt. intros H. apply Qle_bool_iff in H.
      rewrite H in Bx. discriminate. }
    apply Qabs_Qlt_condition in Sx.
    assert (Y : inject_Z big <= y).
    { revert By. apply Qabs_case; intros; lra. }
    apply Qle_trans with (Js.nearest64 (inject_Z big)); [| rewrite Bp; exact Y].
    apply nearest64_mono, tenths_below. lra.
  - apply nearest64_mono.
    rewrite (tenths_as_quotient (Js.toFixed1_tenths x)),
      (tenths_as_quotient (Js.toFixed1_tenths y)).
    pose proof (tenths_mono _ _ L) as T.
    rewrite Zle_Qle in T. lra.
Qed.

Lemma jsRoundTo1_mono (a b : Js.JsNum) :
  Js.jsLe a b -> Js.jsLe (Js.jsRoundTo1 a) (Js.jsRoundTo1 b).
Proof.
  destruct a, b; simpl; try (intros H; exact H).
  rewrite !jsLe_Fin. apply roundTo1_mono.
Qed.

Lemma jsMathRound_mono (a b : Js.JsNum) :
  Js.jsLe a b -> Js.jsLe (Js.jsMathRound a) (Js.jsMathRound b).
Proof.
  destruct a, b; simpl; try (intros H; exact H).
  rewrite !jsLe_Fin. intros H. rewrite <- Zle_Qle.
  apply Qfloor_resp_le. lra.
Qed.

(** Adding a finite number keeps the order, and makes no [NaN]. *)
Lemma add_mono (a b : Js.JsNum) (x y : Q) :
  Js.jsLe a b -> x <= y -> Js.jsLe (Js.add a (Js.Fin x)) (Js.add b (Js.Fin y)).
Proof.
  intros H L.
  destruct a as [p | | |], b as [q | | |]; simpl; try exact H; try reflexivity;
    unfold Js.jsLe in H; simpl in H; try discriminate.
  - apply round64_mono. apply Qle_bool_iff in H. lra.
  - destruct (round64_cases (p + x)) as [-> | [-> | ->]]; reflexivity.
  - destruct (round64_cases (q + y)) as [-> | [-> | ->]]; reflexivity.
Qed.

Lemma fold_add_mono (xs ys : list Q) :
  Forall2 Qle xs ys ->
  forall a b,
    Js.jsLe a b ->
    Js.jsLe (fold_left Js.add (map Js.Fin xs) a) (fold_left Js.add (map Js.Fin ys) b).
Proof.
  induction 1 as [| x y xs ys L _ IH]; intros a b H; simpl; [exact H |].
  apply IH, add_mono; assumption.
Qed.

(** The sum of line 144 grows with each of its terms. *)
Lemma sum_mono (xs ys : list Q) :
  Forall2 Qle xs ys -> Js.jsLe (Js.sum (map Js.Fin xs)) (Js.sum (map Js.Fin ys)).
Proof.
  intros H. unfold Js.sum. apply fold_add_mono; [exact H |].
  apply jsLe_Fin, Qle_refl.
Qed.

Lemma sum_not_NaN (xs : list Q) : Js.sum (map Js.Fin xs) <> Js.NaN.
Proof.
  apply jsLe_not_NaN, sum_mono.
  induction xs; constructor; [apply Qle_refl | assumption].
Qed.

(** Dividing by the length of a list that is not empty keeps the order. *)
Lemma divLen_mono (a b : Js.JsNum) (n : nat) :
  Js.jsLe a b -> Js.jsLe (Js.divLen a (S n)) (Js.divLen b (S n)).
Proof.
  intros H.
  assert (P : 0 < inject_Z (Z.of_nat (S n))).
  { change 0 with (inject_Z 0). rewrite <- Zlt_Qlt. lia. }
  destruct a as [p | | |], b as [q | | |]; cbn [Js.divLen]; try exact H;
    unfold Js.jsLe in H; simpl in H; try discriminate; unfold Js.div.
  - apply round64_mono. apply Qle_bool_iff in H.
    unfold Qdiv. apply Qmult_le_compat_r; [exact H |].
    apply Qlt_le_weak, Qinv_lt_0_compat, P.
  - destruct (round64_cases (p / inject_Z (Z.of_nat (S n)))) as [-> | [-> | ->]];
      reflexivity.
  - destruct (round64_cases (q / inject_Z (Z.of_nat (S n)))) as [-> | [-> | ->]];
      reflexivity.
Qed.

(** [Math.max] of a non-empty list is its greatest element. *)
Lemma fold_max_spec (xs : list Q) :
  forall a,
    exists m,
      fold_left (fun acc x => Js.jsMax2 acc (Js.Fin x)) xs (Js.Fin a) = Js.Fin m /\
      isMaximum m (a :: xs).
Proof.
  induction xs as [| x xs IH]; intros a; simpl fold_left.
  - exists a. split; [reflexivity |]. split; [now left |].
    intros y [<- | []]. apply Qle_refl.
  - cbn [Js.jsMax2]. destruct (Qle_bool a x) eqn:C.
    + apply Qle_bool_iff in C.
      destruct (IH x) as (m & E & I & U). exists m. split; [exact E |]. split.
      * simpl in *. tauto.
      * intros y [<- | Hy]; [| now apply U].
        eapply Qle_trans; [exact C | apply U; now left].
    + assert (C' : x <= a).
      { apply Qlt_le_weak, Qnot_le_lt. intros L.
        apply Qle_bool_iff in L. congruence. }
      destruct (IH a) as (m & E & I & U). exists m. split; [exact E |]. split.
      * simpl in *. tauto.
      * intros y [<- | [<- | Hy]].
        -- apply U. now left.
        -- eapply Qle_trans; [exact C' | apply U; now left].
        -- apply U. now right.
Qed.

Lemma fold_min_spec (xs : list Q) :
  forall a,
    exists m,
      fold_left (fun acc x => Js.jsMin2 acc (Js.Fin x)) xs (Js.Fin a) = Js.Fin m /\
      isMinimum m (a :: xs).
Proof.
  induction xs as [| x xs IH]; intros a; simpl fold_left.
  - exists a. split; [reflexivity |]. split; [now left |].
    intros y [<- | []]. apply Qle_refl.
  - cbn [Js.jsMin2]. destruct (Qle_bool x a) eqn:C.
    + apply Qle_bool_iff in C.
      destruct (IH x) as (m & E & I & U). exists m. split; [exact E |]. split.
      * simpl in *. tauto.
      * intros y [<- | Hy]; [| now apply U].
        eapply Qle_trans; [apply U; now left | exact C].
    + assert (C' : a <= x).
      { apply Qlt_le_weak, Qnot_le_lt. intros L.
        apply Qle_bool_iff in L. congruence. }
      destruct (IH a) as (m & E & I & U). exists m. split; [exact E |]. split.
      * simpl in *. tauto.
      * intros y [<- | [<- | Hy]].
        -- apply U. now left.
        -- eapply Qle_trans; [apply U; now left | exact C'].
        -- apply U. now right.
Qed.

Lemma mathMax_spec (xs : list Q) :
  xs <> [] -> exists m, Js.mathMax xs = Js.Fin m /\ isMaximum m xs.
Proof.
  destruct xs as [| x xs]; [congruence | intros _].
  unfold Js.mathMax. simpl fold_left. apply fold_max_spec.
Qed.

Lemma mathMin_spec (xs : list Q) :
  xs <> [] -> exists m, Js.mathMin xs = Js.Fin m /\ isMinimum m xs.
Proof.
  destruct xs as [| x xs]; [congruence | intros _].
  unfold Js.mathMin. simpl fold_left. apply fold_min_spec.
Qed.



End NumberFacts.

(* ================================================================== *)
(** ** Forecast aggregation: the figures of a day *)
(* ================================================================== *)

Section DayFigures.

Import Forecast Spec.
Local Open Scope Q_scope.

Lemma average_toDayForecast (k : string) (g : Group) :
  temperature_avg (toDayForecast (k, g)) = average (temps g).
Proof. reflexivity. Qed.

(** The average grows with each temperature. *)
Lemma average_mono (xs ys : list Q) :
  xs <> [] -> Forall2 Qle xs ys -> Js.jsLe (average xs) (average ys).
Proof.
  intros N H. unfold average.
  rewrite <- (Forall2_length H).
  destruct xs as [| x xs]; [congruence |]. cbn [List.length].
  apply jsRoundTo1_mono, divLen_mono, sum_mono, H.
Qed.

Lemma Forall2_Qle_refl (xs : list Q) : Forall2 Qle xs xs.
Proof. induction xs; constructor; [apply Qle_refl | assumption]. Qed.

Lemma mean_not_NaN (xs : list Q) :
  xs <> [] -> Js.divLen (Js.sum (map Js.Fin xs)) (List.length xs) <> Js.NaN.
Proof.
  intros N. destruct xs as [| x xs]; [congruence |]. cbn [List.length].
  apply jsLe_not_NaN, divLen_mono, sum_mono, Forall2_Qle_refl.
Qed.

Lemma average_not_NaN (xs : list Q) : xs <> [] -> average xs <> Js.NaN.
Proof.
  intros N. apply jsLe_not_NaN.
  apply average_mono; [exact N | apply Forall2_Qle_refl].
Qed.


Lemma jsRoundTo1_oneDecimal (v : Js.JsNum) :
  v <> Js.NaN -> oneDecimal (Js.jsRoundTo1 v).
Proof.
  destruct v as [q | | |]; intros N; simpl; try exact I; [| congruence].
  unfold Js.roundTo1.
  destruct (Qle_bool (1000000000000000000000 # 1) (Qabs q)) eqn:B.
  - right. apply Qle_bool_iff in B. exact B.
  - left. eauto.
Qed.





(** The average can fall below the minimum as well. *)
Example day_average_below_minimum :
  Js.jsGe (temperature_avg (toDayForecast ("2024-01-11"%string,
                                          mkGroup [Js.double (2014 # 100)]
                                                  ["nubes"%string] [Js.Fin 36])))
          (temperature_min (toDayForecast ("2024-01-11"%string,
                                          mkGroup [Js.double (2014 # 100)]
                                                  ["nubes"%string] [Js.Fin 36])))
  = false.
Proof. vm_compute. reflexivity. Qed.

(** Rounding the sums moves the average too: eight readings of 20.15 add up
    to a mean a little above 20.15, and the average is 20.2 where the
    maximum and the minimum are 20.15; five readings of which one is 0.75
    and the others 0 have the average 0.1.  The primitive floats agree. *)
Example day_average_of_rounded_sums :
  average (repeat (Js.double (2015 # 100)) 8) = Js.Fin (Js.double (202 # 10)) /\
  Binary64.value (Binary64.average (repeat (Binary64.ofDecimal 2015 2) 8))
    = Js.Fin (Js.double (202 # 10)) /\
  average [3 # 4; 0; 0; 0; 0] = Js.Fin (Js.double (1 # 10)) /\
  Binary64.value
    (Binary64.average [Binary64.ofDecimal 75 2; Binary64.ofInt 0; Binary64.ofInt 0;
                       Binary64.ofInt 0; Binary64.ofInt 0])
    = Js.Fin (Js.double (1 # 10)).
Proof. repeat split; vm_compute; reflexivity. Qed.

(** C8.  An upstream wind speed of 10 m/s becomes 36.0 km/h: the product of
    10 and the double of 3.6 is rounded to 36, [toFixed(1)] prints 360
    tenths, the value pushed into the group is 36 (the primitive floats
    agree), and that is what the averaging of line 146 later reads. *)
Theorem wind_speed_10_ms_is_36_kmh :
  Js.toFixed1_tenths (10 * (36 # 10)) = 360%Z /\
  Js.mul 10 (Js.double (36 # 10)) = Js.Fin 36 /\
  windSpeedKmh 10 = Js.Fin 36 /\
  Binary64.windSpeedKmh (Binary64.ofInt 10) = Binary64.ofInt 36 /\
  forall (m : DailyMap) (item : Item),
    wind item = Some 10 ->
    match addItem m item with
    | inr m' =>
        exists g older,
          get (dateKeyOf item) m' = Some g /\
          windSpeeds g = older ++ [windSpeedKmh 10]
    | inl _ => ~ validItem item
    end.
Proof.
  split; [reflexivity |].
  split; [vm_compute; reflexivity |].
  split; [vm_compute; reflexivity |].
  split; [vm_compute; reflexivity |].
  intros m item S.
  destruct (addItem m item) as [e | m'] eqn:A.
  - intros V. destruct (addItem_total m item V) as (m' & E). congruence.
  - destruct (addItem_spec _ _ _ A) as (_ & Sp). cbv zeta in Sp.
    unfold speed in Sp. rewrite S in Sp.
    destruct Sp as [(N & ->) | (P & data & I & ->)].
    + exists (push emptyGroup (temp item) (description item) (windSpeedKmh 10)), [].
      split; [| reflexivity].
      rewrite <- (set_absent _ _ _ N). apply get_set_same.
    + eexists. exists (windSpeeds data). split; [apply get_set_same | reflexivity].
Qed.

Lemma wind_speed_10_ms_is_36_kmh_witness :
  exists g,
    addItem [] (mkItem 1704931200 (Some 5) (Some ["cielo claro"%string]) (Some 10))
      = inr [ ("2024-01-11"%string, g) ] /\
    windSpeeds g = [ Js.Fin 36 ].
Proof.
  destruct wind_speed_10_ms_is_36_kmh as (_ & _ & _ & _ & H).
  pose proof (H [] (mkItem 1704931200 (Some 5) (Some ["cielo claro"%string]) (Some 10))
                eq_refl) as X.
  vm_compute in X. destruct X as (g & older & G & W).
  exists g. injection G as <-. split; reflexivity.
Defined.

(** C9.  Every date group in the map that the transformation starts from
    holds at least one temperature, and as many conditions and wind speeds;
    so the maximum and the minimum are temperatures of the group, the
    average temperature is a number, the average wind speed is one where
    the wind speeds of the group are finite, and the middle index
    [floor(n / 2)] of the conditions exists. *)
Theorem groups_hold_samples
        (tz : Z -> Z) (now : Z) (items : list Item) (m : DailyMap) :
  groupByDate tz now items = inr m ->
  forall k g,
    In (k, g) m ->
    populated g /\
    (List.length (conditions g) / 2 < List.length (conditions g))%nat /\
    (exists c, day_conditions (toDayForecast (k, g)) = Some c) /\
    (exists hi lo,
       temperature_max (toDayForecast (k, g)) = Js.Fin hi /\ In hi (temps g) /\
       temperature_min (toDayForecast (k, g)) = Js.Fin lo /\ In lo (temps g)) /\
    temperature_avg (toDayForecast (k, g)) <> Js.NaN /\
    ((forall w, In w (windSpeeds g) -> exists q, w = Js.Fin q) ->
     day_wind_speed (toDayForecast (k, g)) <> Js.NaN).
Proof.
  unfold groupByDate. intros F k g I.
  assert (P : populated g).
  { apply (forEach_populated _ _ _ F (fun e (X : In e []) => match X with end) _ I). }
  destruct P as (L & C & W).
  assert (Nt : temps g <> []) by (destruct (temps g); simpl in L; [lia | discriminate]).
  assert (Nw : windSpeeds g <> []).
  { destruct (windSpeeds g); simpl in W; [lia | discriminate]. }
  assert (D : (List.length (conditions g) / 2 < List.length (conditions g))%nat).
  { apply Nat.div_lt; lia. }
  split; [repeat split; assumption | split; [exact D | split; [| split; [| split]]]].
  - cbn [toDayForecast day_conditions].
    destruct (nth_error (conditions g) (List.length (conditions g) / 2)) eqn:E;
      [eauto |].
    apply nth_error_None in E. lia.
  - destruct (mathMax_spec _ Nt) as (hi & Ehi & Ihi & _).
    destruct (mathMin_spec _ Nt) as (lo & Elo & Ilo & _).
    exists hi, lo. cbn [toDayForecast temperature_max temperature_min]. auto.
  - rewrite average_toDayForecast. apply average_not_NaN, Nt.
  - intros Fw. cbn [toDayForecast day_wind_speed].
    assert (X : exists ws, windSpeeds g = map Js.Fin ws).
    { clear - Fw. induction (windSpeeds g) as [| w l IH].
      - exists []. reflexivity.
      - destruct (Fw w (or_introl eq_refl)) as (q & ->).
        destruct IH as (ws & ->); [intros; apply Fw; now right |].
        exists (q :: ws). reflexivity. }
    destruct X as (ws & E). rewrite E, length_map.
    assert (N : ws <> []) by (intros ->; rewrite E in Nw; auto).
    pose proof (mean_not_NaN ws N) as M.
    destruct (Js.divLen _ _); simpl; congruence.
Qed.

Lemma groups_hold_samples_witness :
  exists g,
    In ("2024-01-11"%string, g)
       [ ("2024-01-11"%string, mkGroup [5; 7] ["cielo claro"; "nubes"]%string
                                       [Js.Fin 36; Js.Fin 36]);
         ("2024-01-12"%string, mkGroup [1] ["lluvia ligera"]%string [Js.Fin 36]) ] /\
    populated g.
Proof.
  eexists. split; [left; reflexivity |].
  eapply (groups_hold_samples utc 1704848400000 sampleSeries).
  - vm_compute. reflexivity.
  - left. reflexivity.
Defined.

End DayFigures.

(* ================================================================== *)
(** ** Facts about the cache lookup *)
(* ================================================================== *)

Section LookupFacts.

Variable R : Type.
Variable rowLocation : R -> string.
Variable rowFetchedAt : R -> Z.

Lemma latest_spec (rows : list R) (r : R) :
  Rt.latest rowFetchedAt rows = Some r ->
  In r rows /\ forall x, In x rows -> rowFetchedAt x <= rowFetchedAt r.
Proof.
  revert r. induction rows as [| a rows IH]; intros r; simpl; [discriminate |].
  destruct (Rt.latest rowFetchedAt rows) as [r' |] eqn:E.
  - destruct (IH r' eq_refl) as (I & U).
    destruct (rowFetchedAt r' <=? rowFetchedAt a) eqn:C; intros H; injection H as <-.
    + apply Z.leb_le in C. split; [now left |].
      intros x [<- | Hx]; [lia | specialize (U x Hx); lia].
    + apply Z.leb_gt in C. split; [now right |].
      intros x [<- | Hx]; [lia | auto].
  - intros H. injection H as <-. split; [now left |].
    destruct rows as [| b rows]; [| simpl in E; destruct (Rt.latest _ rows);
      [destruct (_ <=? _) |]; discriminate].
    intros x [<- | []]. lia.
Qed.

Lemma latest_none (rows : list R) :
  Rt.latest rowFetchedAt rows = None -> rows = [].
Proof.
  destruct rows as [| a rows]; [reflexivity |]. simpl.
  destruct (Rt.latest rowFetchedAt rows); [destruct (_ <=? _) |]; discriminate.
Qed.

Lemma fresh_spec (location : string) (cutoff : Z) (r : R) :
  Rt.fresh rowLocation rowFetchedAt location cutoff r = true <->
  rowLocation r = location /\ cutoff <= rowFetchedAt r.
Proof.
  unfold Rt.fresh. rewrite andb_true_iff, str_eqb_true, Z.leb_le. tauto.
Qed.

(** The select returns a fresh row of the location, the most recent one. *)
Lemma select_some (rows : list R) (location : string) (cutoff : Z) (r : R) :
  Rt.select rowLocation rowFetchedAt rows location cutoff = Some r ->
  In r rows /\ rowLocation r = location /\ cutoff <= rowFetchedAt r /\
  forall x, In x rows -> rowLocation x = location -> rowFetchedAt x <= rowFetchedAt r.
Proof.
  unfold Rt.select. intros H. apply latest_spec in H. destruct H as (I & U).
  apply filter_In in I. destruct I as (I & F). apply fresh_spec in F.
  destruct F as (F1 & F2). repeat split; try assumption.
  intros x Ix Lx. destruct (Z_le_gt_dec cutoff (rowFetchedAt x)) as [C | C]; [| lia].
  apply U. apply filter_In. split; [exact Ix |]. now apply fresh_spec.
Qed.

(** It returns one whenever the table holds a fresh row of the location. *)
Lemma select_finds (rows : list R) (location : string) (cutoff : Z) (r : R) :
  In r rows -> rowLocation r = location -> cutoff <= rowFetchedAt r ->
  exists r', Rt.select rowLocation rowFetchedAt rows location cutoff = Some r'.
Proof.
  intros I L C. unfold Rt.select.
  destruct (Rt.latest rowFetchedAt _) as [r' |] eqn:E; [eauto |].
  apply latest_none in E.
  assert (X : In r (filter (Rt.fresh rowLocation rowFetchedAt location cutoff) rows)).
  { apply filter_In. split; [exact I |]. now apply fresh_spec. }
  rewrite E in X. destruct X.
Qed.

(** It returns none when the table holds no fresh row of the location. *)
Lemma select_none (rows : list R) (location : string) (cutoff : Z) :
  (forall r, In r rows -> rowLocation r = location -> rowFetchedAt r < cutoff) ->
  Rt.select rowLocation rowFetchedAt rows location cutoff = None.
Proof.
  intros H. destruct (Rt.select _ _ rows location cutoff) as [r |] eqn:E;
    [| reflexivity].
  apply select_some in E. destruct E as (I & L & C & _).
  specialize (H r I L). lia.
Qed.

End LookupFacts.

(* ================================================================== *)
(** ** The paths of the forecast handler *)
(* ================================================================== *)

Section ForecastPaths.

Import Http Rt Forecast Spec.

Variable o : Oracle Reply.
Variable req : Request.
Variable rows : list Row.

Let loc : string := locationOf req.
Let cutoff : Z := clock o 0 - sixHours.
Let hit : option Row := cacheHit row_location row_fetched_at o rows loc cutoff.

Ltac run_forecast :=
  unfold serve, runHandler, handlerBody;
  cbv [bind now cacheRead emit ret respond raise fetch cacheInsert liftExn
       table ticks draws trace app].

Lemma forecast_preflight :
  method req = "OPTIONS"%string ->
  serve o req rows = (preflight, mkSys rows 0 0 []).
Proof. intros M. unfold serve. now rewrite M. Qed.

Lemma forecast_cache_hit (cached : Row) :
  method req <> "OPTIONS"%string ->
  hit = Some cached ->
  serve o req rows =
  (ok200 (forecast_data cached) "cache" "Data from cache (less than 6 hours old)",
   mkSys rows 1 0 [CacheRead loc cutoff]).
Proof.
  intros M H. apply str_eqb_false in M. subst hit. unfold cacheHit in H.
  run_forecast. rewrite M.
  destruct (cache_read_error o); [discriminate |].
  fold loc cutoff. now rewrite H.
Qed.

Lemma forecast_no_key :
  method req <> "OPTIONS"%string ->
  hit = None ->
  keyConfigured o = None ->
  serve o req rows =
  (error500 "OPENWEATHER_API_KEY is not set in environment secrets.",
   mkSys rows 1 0 [CacheRead loc cutoff]).
Proof.
  intros M H K. apply str_eqb_false in M. subst hit. unfold cacheHit in H.
  run_forecast. rewrite M.
  destruct (cache_read_error o); fold loc cutoff; [| rewrite H]; now rewrite K.
Qed.

Lemma forecast_network_failure (key msg : string) :
  method req <> "OPTIONS"%string ->
  hit = None ->
  keyConfigured o = Some key ->
  upstream o = NetworkFailure msg ->
  serve o req rows =
  (error500 msg, mkSys rows 1 0 [CacheRead loc cutoff; UpstreamCall loc key]).
Proof.
  intros M H K U. apply str_eqb_false in M. subst hit. unfold cacheHit in H.
  run_forecast. rewrite M.
  destruct (cache_read_error o); fold loc cutoff; [| rewrite H];
    now rewrite K, U.
Qed.

Lemma forecast_upstream_error (key : string) (st : N) (json : Reply) :
  method req <> "OPTIONS"%string ->
  hit = None ->
  keyConfigured o = Some key ->
  upstream o = HttpReply st json ->
  isOk st = false ->
  serve o req rows =
  (error500 ("Weather API error: " ++ Js.decimal (Z.of_N st)),
   mkSys rows 1 0 [CacheRead loc cutoff; UpstreamCall loc key]).
Proof.
  intros M H K U S. apply str_eqb_false in M. subst hit. unfold cacheHit in H.
  run_forecast. rewrite M.
  destruct (cache_read_error o); fold loc cutoff; [| rewrite H];
    now rewrite K, U, S.
Qed.

Lemma forecast_aggregate_throws
      (key : string) (st : N) (json : Reply) (e : Js.Exn) :
  method req <> "OPTIONS"%string ->
  hit = None ->
  keyConfigured o = Some key ->
  upstream o = HttpReply st json ->
  isOk st = true ->
  forecastOf (tz o) (clock o 1) json = inl e ->
  serve o req rows =
  (match e with
   | Js.ErrorObj msg => error500 msg
   | Js.Thrown => error500 "Unknown error"
   end,
   mkSys rows 2 0 [CacheRead loc cutoff; UpstreamCall loc key]).
Proof.
  intros M H K U S A. apply str_eqb_false in M. subst hit. unfold cacheHit in H.
  run_forecast. rewrite M.
  destruct (cache_read_error o); fold loc cutoff; [| rewrite H];
    rewrite K, U, S; cbn [negb]; rewrite A; now destruct e.
Qed.

(** The path through the upstream call to the answer from fresh data. *)
Lemma forecast_fresh
      (key : string) (st : N) (json : Reply) (days : list DayForecast) :
  method req <> "OPTIONS"%string ->
  hit = None ->
  keyConfigured o = Some key ->
  upstream o = HttpReply st json ->
  isOk st = true ->
  forecastOf (tz o) (clock o 1) json = inr days ->
  let data := mkForecastData loc days (clock o 2) in
  let row := mkRow loc data (clock o 3) in
  serve o req rows =
  (ok200 data "api" "Fresh 5-day forecast from OpenWeatherMap",
   mkSys (match insert_error o with Some _ => rows | None => rows ++ [row] end)
         4 0 [CacheRead loc cutoff; UpstreamCall loc key; CacheInsert row]).
Proof.
  intros M H K U S A. apply str_eqb_false in M. subst hit. unfold cacheHit in H.
  run_forecast. rewrite M.
  destruct (cache_read_error o); fold loc cutoff; [| rewrite H];
    rewrite K, U, S; cbn [negb]; rewrite A; now destruct (insert_error o).
Qed.

End ForecastPaths.

(* ================================================================== *)
(** ** The paths of the current-weather handler *)
(* ================================================================== *)

Section CurrentPaths.

Import Http Rt Current Spec.

Variable o : Oracle WeatherJson.
Variable req : Request.
Variable rows : list WeatherData.

Let loc : string := locationOf req.
Let cutoff : Z := clock o 0 - thirtyMinutes.
Let hit : option WeatherData := cacheHit rowLocation rowFetchedAt o rows loc cutoff.

Ltac run_current :=
  unfold serve, runHandler, handlerBody;
  cbv [bind now mathRandom cacheRead emit ret respond raise fetch cacheInsert
       table ticks draws trace app].

Lemma current_preflight :
  method req = "OPTIONS"%string ->
  serve o req rows = (preflight, mkSys rows 0 0 []).
Proof. intros M. unfold serve. now rewrite M. Qed.

Lemma current_cache_hit (cached : WeatherData) :
  method req <> "OPTIONS"%string ->
  hit = Some cached ->
  serve o req rows =
  (ok200 cached "cache" "Data from cache (less than 30 minutes old)",
   mkSys rows 1 0 [CacheRead loc cutoff]).
Proof.
  intros M H. apply str_eqb_false in M. subst hit. unfold cacheHit in H.
  run_current. rewrite M.
  destruct (cache_read_error o); [discriminate |].
  fold loc cutoff. now rewrite H.
Qed.

(** The path without a provider key: five draws, one clock reading, the
    insert (whose answer is not looked at), the mock answer. *)
Lemma current_mock :
  method req <> "OPTIONS"%string ->
  hit = None ->
  keyConfigured o = None ->
  let mockData :=
    mockOf loc (random o 0) (random o 1) (random o 2) (random o 3) (random o 4)
           (clock o 1) in
  serve o req rows =
  (ok200 mockData "mock"
         "Mock data - Add OPENWEATHER_API_KEY secret for real weather data",
   mkSys (match insert_error o with Some _ => rows | None => rows ++ [mockData] end)
         2 5 [CacheRead loc cutoff; CacheInsert mockData]).
Proof.
  intros M H K. apply str_eqb_false in M. subst hit. unfold cacheHit in H.
  run_current. rewrite M.
  destruct (cache_read_error o); fold loc cutoff; [| rewrite H];
    rewrite K; now destruct (insert_error o).
Qed.

Lemma current_network_failure (key msg : string) :
  method req <> "OPTIONS"%string ->
  hit = None ->
  keyConfigured o = Some key ->
  upstream o = NetworkFailure msg ->
  serve o req rows =
  (error500 msg, mkSys rows 1 0 [CacheRead loc cutoff; UpstreamCall loc key]).
Proof.
  intros M H K U. apply str_eqb_false in M. subst hit. unfold cacheHit in H.
  run_current. rewrite M.
  destruct (cache_read_error o); fold loc cutoff; [| rewrite H];
    now rewrite K, U.
Qed.

Lemma current_upstream_error (key : string) (st : N) (json : WeatherJson) :
  method req <> "OPTIONS"%string ->
  hit = None ->
  keyConfigured o = Some key ->
  upstream o = HttpReply st json ->
  isOk st = false ->
  serve o req rows =
  (error500 ("Weather API error: " ++ Js.decimal (Z.of_N st)),
   mkSys rows 1 0 [CacheRead loc cutoff; UpstreamCall loc key]).
Proof.
  intros M H K U S. apply str_eqb_false in M. subst hit. unfold cacheHit in H.
  run_current. rewrite M.
  destruct (cache_read_error o); fold loc cutoff; [| rewrite H];
    now rewrite K, U, S.
Qed.

(** The path through the upstream call to the answer from fresh data. *)
Lemma current_fresh (key : string) (st : N) (json : WeatherJson) :
  method req <> "OPTIONS"%string ->
  hit = None ->
  keyConfigured o = Some key ->
  upstream o = HttpReply st json ->
  isOk st = true ->
  let weatherData := normalize loc json (clock o 1) in
  serve o req rows =
  (ok200 weatherData "api" "Fresh data from weather service",
   mkSys (match insert_error o with Some _ => rows | None => rows ++ [weatherData] end)
         2 0 [CacheRead loc cutoff; UpstreamCall loc key; CacheInsert weatherData]).
Proof.
  intros M H K U S. apply str_eqb_false in M. subst hit. unfold cacheHit in H.
  run_current. rewrite M.
  destruct (cache_read_error o); fold loc cutoff; [| rewrite H];
    rewrite K, U, S; cbn [negb]; now destruct (insert_error o).
Qed.

End CurrentPaths.

(* ================================================================== *)
(** ** The cache-hit path *)
(* ================================================================== *)

Section CacheHit.

Import Http Rt Spec.

(** What both handlers share: an error-free read of a table that holds a
    fresh row for the location hits, on the most recent such row. *)
Lemma cacheHit_finds {R J} (rowLocation : R -> string) (rowFetchedAt : R -> Z)
      (o : Oracle J) (rows : list R) (location : string) (cutoff : Z) (r : R) :
  cache_read_error o = None ->
  In r rows -> rowLocation r = location -> cutoff <= rowFetchedAt r ->
  exists cached,
    cacheHit rowLocation rowFetchedAt o rows location cutoff = Some cached /\
    In cached rows /\ rowLocation cached = location /\
    cutoff <= rowFetchedAt cached /\
    (forall x, In x rows -> rowLocation x = location ->
               rowFetchedAt x <= rowFetchedAt cached) /\
    ((forall x, In x rows -> rowLocation x = location ->
                cutoff <= rowFetchedAt x -> x = r) -> cached = r).
Proof.
  intros E I L C. unfold cacheHit. rewrite E.
  destruct (select_finds R rowLocation rowFetchedAt rows location cutoff r I L C)
    as (cached & S).
  exists cached. split; [exact S |].
  apply select_some in S. destruct S as (S1 & S2 & S3 & S4).
  repeat split; auto.
Qed.

(** C3.  A request other than the preflight, for a location of which the
    cache table holds a row fetched within the freshness window (6 hours for
    the forecast, 30 minutes for the current weather, counted back from the
    clock reading of the request), the cache read not failing: the handler
    answers 200 with source "cache" and the payload of such a row, the most
    recent one (the row itself when it is the only one), and its only
    outward call is the cache read: no upstream call, no cache write, the
    table as it was. *)
Theorem fresh_cache_row_is_served :
  (forall (o : Oracle Forecast.Reply) (req : Request)
          (rows : list Forecast.Row) (r : Forecast.Row),
      method req <> "OPTIONS"%string ->
      cache_read_error o = None ->
      In r rows ->
      Forecast.row_location r = locationOf req ->
      clock o 0 - Forecast.sixHours <= Forecast.row_fetched_at r ->
      exists cached,
        In cached rows /\
        Forecast.row_location cached = locationOf req /\
        clock o 0 - Forecast.sixHours <= Forecast.row_fetched_at cached /\
        (forall x, In x rows -> Forecast.row_location x = locationOf req ->
                   Forecast.row_fetched_at x <= Forecast.row_fetched_at cached) /\
        ((forall x, In x rows -> Forecast.row_location x = locationOf req ->
                    clock o 0 - Forecast.sixHours <= Forecast.row_fetched_at x ->
                    x = r) -> cached = r) /\
        Forecast.serve o req rows =
        (ok200 (Forecast.forecast_data cached) "cache"
               "Data from cache (less than 6 hours old)",
         mkSys rows 1 0
               [CacheRead (locationOf req) (clock o 0 - Forecast.sixHours)])) /\
  (forall (o : Oracle Current.WeatherJson) (req : Request)
          (rows : list Current.WeatherData) (r : Current.WeatherData),
      method req <> "OPTIONS"%string ->
      cache_read_error o = None ->
      In r rows ->
      Current.location r = locationOf req ->
      clock o 0 - Current.thirtyMinutes <= Current.fetched_at r ->
      exists cached,
        In cached rows /\
        Current.location cached = locationOf req /\
        clock o 0 - Current.thirtyMinutes <= Current.fetched_at cached /\
        (forall x, In x rows -> Current.location x = locationOf req ->
                   Current.fetched_at x <= Current.fetched_at cached) /\
        ((forall x, In x rows -> Current.location x = locationOf req ->
                    clock o 0 - Current.thirtyMinutes <= Current.fetched_at x ->
                    x = r) -> cached = r) /\
        Current.serve o req rows =
        (ok200 cached "cache" "Data from cache (less than 30 minutes old)",
         mkSys rows 1 0
               [CacheRead (locationOf req) (clock o 0 - Current.thirtyMinutes)])).
Proof.
  split; intros o req rows r M E I L C.
  - destruct (cacheHit_finds Forecast.row_location Forecast.row_fetched_at
                o rows _ _ r E I L C) as (cached & H & P1 & P2 & P3 & P4 & P5).
    exists cached. repeat split; auto.
    apply (forecast_cache_hit o req rows cached M H).
  - destruct (cacheHit_finds Current.rowLocation Current.rowFetchedAt
                o rows _ _ r E I L C) as (cached & H & P1 & P2 & P3 & P4 & P5).
    exists cached. repeat split; auto.
    apply (current_cache_hit o req rows cached M H).
Qed.

Lemma fresh_cache_row_is_served_witness :
  fst (Forecast.serve
         (mkOracle _ utc at0100 (fun _ => 0%Q) (Some "k"%string) None
                   (HttpReply 200 (Forecast.mkReply (Some []))) None)
         getColina [cachedForecast]) =
  ok200 (Forecast.forecast_data cachedForecast) "cache"
        "Data from cache (less than 6 hours old)" /\
  fst (Current.serve
         (mkOracle _ utc at0100 (fun _ => 0%Q) (Some "k"%string) None
                   (HttpReply 200 (Current.mkWeatherJson None None None None None))
                   None)
         getColina [cachedWeather]) =
  ok200 cachedWeather "cache" "Data from cache (less than 30 minutes old)".
Proof.
  destruct fresh_cache_row_is_served as (F & C). split.
  - destruct (F (mkOracle _ utc at0100 (fun _ => 0%Q) (Some "k"%string) None
                          (HttpReply 200 (Forecast.mkReply (Some []))) None)
                getColina [cachedForecast] cachedForecast)
      as (cached & I & _ & _ & _ & _ & S).
    + discriminate.
    + reflexivity.
    + now left.
    + reflexivity.
    + vm_compute. discriminate.
    + destruct I as [<- | []]. now rewrite S.
  - destruct (C (mkOracle _ utc at0100 (fun _ => 0%Q) (Some "k"%string) None
                          (HttpReply 200 (Current.mkWeatherJson None None None None None))
                          None)
                getColina [cachedWeather] cachedWeather)
      as (cached & I & _ & _ & _ & _ & S).
    + discriminate.
    + reflexivity.
    + now left.
    + reflexivity.
    + vm_compute. discriminate.
    + destruct I as [<- | []]. now rewrite S.
Defined.

End CacheHit.

(* ================================================================== *)
(** ** The mock path of the current-weather handler *)
(* ================================================================== *)

Section MockPath.

Import Http Rt Current Spec.

Lemma at_inside (arr : list string) (i : Z) :
  0 <= i < Z.of_nat (List.length arr) ->
  exists s, at_ arr i = Value s /\ In s arr.
Proof.
  intros B. unfold at_.
  destruct (i <? 0) eqn:N; [apply Z.ltb_lt in N; lia |].
  destruct (nth_error arr (Z.to_nat i)) as [s |] eqn:E.
  - exists s. split; [reflexivity |]. eapply nth_error_In; eauto.
  - apply nth_error_None in E. lia.
Qed.

Lemma floor_in_range (x : Q) (n : Z) :
  (0 <= x)%Q -> (x < inject_Z n)%Q -> 0 <= Qfloor x < n.
Proof.
  intros L U. split.
  - rewrite <- (Qfloor_Z 0). now apply Qfloor_resp_le.
  - pose proof (Qfloor_le x) as F.
    assert (X : (inject_Z (Qfloor x) < inject_Z n)%Q) by lra.
    now rewrite <- Zlt_Qlt in X.
Qed.

(** C5.  A request other than the preflight to the current-weather handler,
    for a location of which the cache table holds no row fetched within the
    last 30 minutes, no provider key being configured and [Math.random]
    drawing from [0, 1): the handler answers 200 with source "mock" and a
    payload for the location whose temperature is in [18, 28], humidity in
    [50, 80] and wind speed in [5, 20], whose wind direction is one of the 8
    cardinal points and whose description is one of the four fixed ones; it
    hands that payload to the cache insert, which appends it to the table
    unless the insert fails; it does not call upstream. *)
Theorem mock_data_without_api_key
        (o : Oracle WeatherJson) (req : Request) (rows : list WeatherData) :
  method req <> "OPTIONS"%string ->
  (forall r, In r rows -> location r = locationOf req ->
             fetched_at r < clock o 0 - thirtyMinutes) ->
  keyConfigured o = None ->
  (forall k, 0 <= random o k /\ random o k < 1)%Q ->
  exists mock t h w dir desc,
    fst (serve o req rows) =
      ok200 mock "mock"
            "Mock data - Add OPENWEATHER_API_KEY secret for real weather data" /\
    location mock = locationOf req /\
    temperature mock = Some t /\ (18 <= t <= 28)%Q /\
    humidity mock = Some h /\ (50 <= h <= 80)%Q /\
    wind_speed mock = Some w /\ (5 <= w <= 20)%Q /\
    wind_direction mock = Value dir /\ In dir directions /\
    weather_description mock = Value desc /\ In desc descriptions /\
    trace (snd (serve o req rows)) =
      [CacheRead (locationOf req) (clock o 0 - thirtyMinutes); CacheInsert mock] /\
    ~ calledUpstream (snd (serve o req rows)) /\
    (insert_error o = None -> table (snd (serve o req rows)) = rows ++ [mock]) /\
    (insert_error o <> None -> table (snd (serve o req rows)) = rows).
Proof.
  intros M Nf K Rg.
  assert (H : cacheHit rowLocation rowFetchedAt o rows (locationOf req)
                       (clock o 0 - thirtyMinutes) = None).
  { unfold cacheHit. destruct (cache_read_error o); [reflexivity |].
    now apply select_none. }
  rewrite (current_mock o req rows M H K). cbv zeta. cbn [fst snd trace table].
  destruct (Rg 0%nat) as (A0 & B0). destruct (Rg 1%nat) as (A1 & B1).
  destruct (Rg 2%nat) as (A2 & B2). destruct (Rg 3%nat) as (A3 & B3).
  destruct (Rg 4%nat) as (A4 & B4).
  destruct (at_inside directions (Js.mathFloor (random o 3 * 8))) as (dir & Ed & Id).
  { apply (floor_in_range _ 8); change (inject_Z 8) with 8%Q; lra. }
  destruct (at_inside descriptions (Js.mathFloor (random o 4 * 4))) as (desc & Es & Is).
  { apply (floor_in_range _ 4); change (inject_Z 4) with 4%Q; lra. }
  assert (T : (18 <= Js.nearest64 (18 + Js.nearest64 (random o 0 * 10)) <= 28)%Q).
  { assert (P : (0 <= Js.nearest64 (random o 0 * 10) <= 10)%Q).
    { apply nearest64_between; [vm_compute; reflexivity | vm_compute; reflexivity | lra]. }
    apply nearest64_between; [vm_compute; reflexivity | vm_compute; reflexivity | lra]. }
  assert (U : (50 <= Js.nearest64 (50 + Js.nearest64 (random o 1 * 30)) <= 80)%Q).
  { assert (P : (0 <= Js.nearest64 (random o 1 * 30) <= 30)%Q).
    { apply nearest64_between; [vm_compute; reflexivity | vm_compute; reflexivity | lra]. }
    apply nearest64_between; [vm_compute; reflexivity | vm_compute; reflexivity | lra]. }
  assert (W : (5 <= Js.nearest64 (5 + Js.nearest64 (random o 2 * 15)) <= 20)%Q).
  { assert (P : (0 <= Js.nearest64 (random o 2 * 15) <= 15)%Q).
    { apply nearest64_between; [vm_compute; reflexivity | vm_compute; reflexivity | lra]. }
    apply nearest64_between; [vm_compute; reflexivity | vm_compute; reflexivity | lra]. }
  eexists. exists (Js.nearest64 (18 + Js.nearest64 (random o 0 * 10)))%Q,
             (Js.nearest64 (50 + Js.nearest64 (random o 1 * 30)))%Q,
             (Js.nearest64 (5 + Js.nearest64 (random o 2 * 15)))%Q, dir, desc.
  split; [reflexivity |].
  cbn [mockOf location temperature humidity wind_speed wind_direction
       weather_description].
  repeat match goal with |- _ /\ _ => split end;
    try reflexivity; try assumption; try apply T; try apply U; try apply W.
  - intros (l & k & [X | [X | []]]); discriminate.
  - intros ->. reflexivity.
  - destruct (insert_error o); [reflexivity | congruence].
Qed.

Lemma mock_data_without_api_key_witness :
  exists mock,
    fst (serve (mkOracle _ utc at0100 someDraws None None
                         (NetworkFailure "unreachable") None)
               getColina []) =
      ok200 mock "mock"
            "Mock data - Add OPENWEATHER_API_KEY secret for real weather data" /\
    wind_direction mock = Value "NW" /\
    weather_description mock = Value "Parcialmente nublado".
Proof.
  destruct (mock_data_without_api_key
              (mkOracle _ utc at0100 someDraws None None
                        (NetworkFailure "unreachable") None)
              getColina [])
    as (mock & t & h & w & dir & desc & E & _).
  - discriminate.
  - intros r [].
  - reflexivity.
  - intros k. unfold someDraws. cbn [random].
    do 5 (destruct k as [| k]; [split; reflexivity || discriminate |]).
    destruct k; split; reflexivity || discriminate.
  - exists mock. split; [exact E |].
    vm_compute in E. injection E as <-. split; reflexivity.
Defined.

End MockPath.

(* ================================================================== *)
(** ** Upstream failures and cache-write failures *)
(* ================================================================== *)

Section UpstreamAndInsert.

Import Http Rt Spec.

Lemma no_fresh_row_misses {R J} (rowLocation : R -> string) (rowFetchedAt : R -> Z)
      (o : Oracle J) (rows : list R) (location : string) (cutoff : Z) :
  (forall r, In r rows -> rowLocation r = location -> rowFetchedAt r < cutoff) ->
  cacheHit rowLocation rowFetchedAt o rows location cutoff = None.
Proof.
  intros H. unfold cacheHit. destruct (cache_read_error o); [reflexivity |].
  now apply select_none.
Qed.

(** Closes a goal whose hypothesis finds an event in a trace that does not
    hold it. *)
Ltac absurd_event :=
  match goal with
  | H : calledUpstream _ |- _ =>
      let l := fresh in let k := fresh in
      destruct H as (l & k & H); cbn [snd trace] in H;
      repeat (destruct H as [H | H]; [discriminate |]); destruct H
  | H : In _ (trace _) |- _ =>
      cbn [snd trace] in H;
      repeat (destruct H as [H | H]; [discriminate |]); destruct H
  end.

(** C6.  When the upstream reply carries a non-success status, a run that
    calls upstream answers 500 with the error "Weather API error: " followed
    by the status and the fixed details "Failed to fetch weather data", and
    writes nothing to the cache.  Upstream is called by every request other
    than the preflight for a location without a fresh cache row, a provider
    key being configured. *)
Theorem upstream_error_status_is_reported :
  (forall (o : Oracle Forecast.Reply) (req : Request)
          (rows : list Forecast.Row) (st : N) (json : Forecast.Reply),
      upstream o = HttpReply st json ->
      isOk st = false ->
      (calledUpstream (snd (Forecast.serve o req rows)) ->
       fst (Forecast.serve o req rows) =
         mkResponse 500 jsonHeaders
           (Failure ("Weather API error: " ++ Js.decimal (Z.of_N st))
                    "Failed to fetch weather data") /\
       ~ wroteCache (snd (Forecast.serve o req rows))) /\
      (method req <> "OPTIONS"%string ->
       (forall r, In r rows -> Forecast.row_location r = locationOf req ->
                  Forecast.row_fetched_at r < clock o 0 - Forecast.sixHours) ->
       forall key, keyConfigured o = Some key ->
       trace (snd (Forecast.serve o req rows)) =
         [CacheRead (locationOf req) (clock o 0 - Forecast.sixHours);
          UpstreamCall (locationOf req) key])) /\
  (forall (o : Oracle Current.WeatherJson) (req : Request)
          (rows : list Current.WeatherData) (st : N) (json : Current.WeatherJson),
      upstream o = HttpReply st json ->
      isOk st = false ->
      (calledUpstream (snd (Current.serve o req rows)) ->
       fst (Current.serve o req rows) =
         mkResponse 500 jsonHeaders
           (Failure ("Weather API error: " ++ Js.decimal (Z.of_N st))
                    "Failed to fetch weather data") /\
       ~ wroteCache (snd (Current.serve o req rows))) /\
      (method req <> "OPTIONS"%string ->
       (forall r, In r rows -> Current.location r = locationOf req ->
                  Current.fetched_at r < clock o 0 - Current.thirtyMinutes) ->
       forall key, keyConfigured o = Some key ->
       trace (snd (Current.serve o req rows)) =
         [CacheRead (locationOf req) (clock o 0 - Current.thirtyMinutes);
          UpstreamCall (locationOf req) key])).
Proof.
  split; intros o req rows st json U S; split.
  - intros C.
    destruct (string_dec (method req) "OPTIONS") as [M | M].
    { rewrite (forecast_preflight o req rows M) in C. absurd_event. }
    destruct (cacheHit Forecast.row_location Forecast.row_fetched_at o rows
                (locationOf req) (clock o 0 - Forecast.sixHours)) as [c |] eqn:H.
    { rewrite (forecast_cache_hit o req rows c M H) in C. absurd_event. }
    destruct (keyConfigured o) as [key |] eqn:K.
    + rewrite (forecast_upstream_error o req rows key st json M H K U S).
      split; [reflexivity |]. intros (row & I). absurd_event.
    + rewrite (forecast_no_key o req rows M H K) in C. absurd_event.
  - intros M Nf key K.
    pose proof (no_fresh_row_misses _ _ o rows _ _ Nf) as H.
    now rewrite (forecast_upstream_error o req rows key st json M H K U S).
  - intros C.
    destruct (string_dec (method req) "OPTIONS") as [M | M].
    { rewrite (current_preflight o req rows M) in C. absurd_event. }
    destruct (cacheHit Current.rowLocation Current.rowFetchedAt o rows
                (locationOf req) (clock o 0 - Current.thirtyMinutes)) as [c |] eqn:H.
    { rewrite (current_cache_hit o req rows c M H) in C. absurd_event. }
    destruct (keyConfigured o) as [key |] eqn:K.
    + rewrite (current_upstream_error o req rows key st json M H K U S).
      split; [reflexivity |]. intros (row & I). absurd_event.
    + rewrite (current_mock o req rows M H K) in C. absurd_event.
  - intros M Nf key K.
    pose proof (no_fresh_row_misses Current.rowLocation Current.rowFetchedAt
                  o rows _ _ Nf) as H.
    now rewrite (current_upstream_error o req rows key st json M H K U S).
Qed.

Lemma upstream_error_status_is_reported_witness :
  fst (Forecast.serve
         (mkOracle _ utc at0100 (fun _ => 0%Q) (Some "k"%string) None
                   (HttpReply 404 (Forecast.mkReply (Some []))) None)
         getColina []) =
    mkResponse 500 jsonHeaders
      (Failure "Weather API error: 404" "Failed to fetch weather data") /\
  fst (Current.serve
         (mkOracle _ utc at0100 (fun _ => 0%Q) (Some "k"%string) None
                   (HttpReply 404 (Current.mkWeatherJson None None None None None))
                   None)
         getColina []) =
    mkResponse 500 jsonHeaders
      (Failure "Weather API error: 404" "Failed to fetch weather data").
Proof.
  destruct upstream_error_status_is_reported as (F & C). split.
  - destruct (F (mkOracle _ utc at0100 (fun _ => 0%Q) (Some "k"%string) None
                          (HttpReply 404 (Forecast.mkReply (Some []))) None)
                getColina [] 404%N _ eq_refl eq_refl) as (A & B).
    refine (proj1 (A _)). exists "Colina"%string, "k"%string.
    rewrite (B ltac:(discriminate) ltac:(intros r []) "k"%string eq_refl).
    right; left; reflexivity.
  - destruct (C (mkOracle _ utc at0100 (fun _ => 0%Q) (Some "k"%string) None
                          (HttpReply 404 (Current.mkWeatherJson None None None None None))
                          None)
                getColina [] 404%N _ eq_refl eq_refl) as (A & B).
    refine (proj1 (A _)). exists "Colina"%string, "k"%string.
    rewrite (B ltac:(discriminate) ltac:(intros r []) "k"%string eq_refl).
    right; left; reflexivity.
Defined.

(** C7.  A run that reaches the cache write after calling upstream built the
    row it writes from the upstream reply, and answers 200 with source "api"
    and that payload whatever the insert answers: the answer is the same
    under every outcome of the insert, and a failed insert leaves the table
    as it was. *)
Theorem cache_insert_failure_keeps_answer :
  (forall (o : Oracle Forecast.Reply) (req : Request)
          (rows : list Forecast.Row) (row : Forecast.Row),
      In (CacheInsert row) (trace (snd (Forecast.serve o req rows))) ->
      calledUpstream (snd (Forecast.serve o req rows)) ->
      (exists st json days,
         upstream o = HttpReply st json /\ isOk st = true /\
         Forecast.forecastOf (tz o) (clock o 1) json = inr days /\
         row = Forecast.mkRow (locationOf req)
                 (Forecast.mkForecastData (locationOf req) days (clock o 2))
                 (clock o 3)) /\
      fst (Forecast.serve o req rows) =
        ok200 (Forecast.forecast_data row) "api"
              "Fresh 5-day forecast from OpenWeatherMap" /\
      (forall e,
         fst (Forecast.serve (withInsertError o e) req rows) =
         fst (Forecast.serve o req rows)) /\
      (insert_error o <> None ->
       table (snd (Forecast.serve o req rows)) = rows)) /\
  (forall (o : Oracle Current.WeatherJson) (req : Request)
          (rows : list Current.WeatherData) (row : Current.WeatherData),
      In (CacheInsert row) (trace (snd (Current.serve o req rows))) ->
      calledUpstream (snd (Current.serve o req rows)) ->
      (exists st json,
         upstream o = HttpReply st json /\ isOk st = true /\
         row = Current.normalize (locationOf req) json (clock o 1)) /\
      fst (Current.serve o req rows) =
        ok200 row "api" "Fresh data from weather service" /\
      (forall e,
         fst (Current.serve (withInsertError o e) req rows) =
         fst (Current.serve o req rows)) /\
      (insert_error o <> None ->
       table (snd (Current.serve o req rows)) = rows)).
Proof.
  split; intros o req rows row W C.
  - destruct (string_dec (method req) "OPTIONS") as [M | M].
    { rewrite (forecast_preflight o req rows M) in C. absurd_event. }
    destruct (cacheHit Forecast.row_location Forecast.row_fetched_at o rows
                (locationOf req) (clock o 0 - Forecast.sixHours)) as [c |] eqn:H.
    { rewrite (forecast_cache_hit o req rows c M H) in C. absurd_event. }
    destruct (keyConfigured o) as [key |] eqn:K;
      [| rewrite (forecast_no_key o req rows M H K) in C; absurd_event].
    destruct (upstream o) as [msg | st json] eqn:U.
    { rewrite (forecast_network_failure o req rows key msg M H K U) in W.
      absurd_event. }
    destruct (isOk st) eqn:S;
      [| rewrite (forecast_upstream_error o req rows key st json M H K U S) in W;
         absurd_event].
    destruct (Forecast.forecastOf (tz o) (clock o 1) json) as [e | days] eqn:A.
    { rewrite (forecast_aggregate_throws o req rows key st json e M H K U S A) in W.
      absurd_event. }
    pose proof (forecast_fresh o req rows key st json days M H K U S A) as E.
    cbv zeta in E. rewrite E in W |- *. cbn [fst snd trace table] in W |- *.
    destruct W as [W | [W | [W | []]]]; try discriminate.
    injection W as <-. repeat split.
    + exists st, json, days. auto.
    + intros e.
      now rewrite (forecast_fresh (withInsertError o e) req rows key st json days
                     M H K U S A).
    + destruct (insert_error o); [reflexivity | congruence].
  - destruct (string_dec (method req) "OPTIONS") as [M | M].
    { rewrite (current_preflight o req rows M) in C. absurd_event. }
    destruct (cacheHit Current.rowLocation Current.rowFetchedAt o rows
                (locationOf req) (clock o 0 - Current.thirtyMinutes)) as [c |] eqn:H.
    { rewrite (current_cache_hit o req rows c M H) in C. absurd_event. }
    destruct (keyConfigured o) as [key |] eqn:K;
      [| rewrite (current_mock o req rows M H K) in C; absurd_event].
    destruct (upstream o) as [msg | st json] eqn:U.
    { rewrite (current_network_failure o req rows key msg M H K U) in W.
      absurd_event. }
    destruct (isOk st) eqn:S;
      [| rewrite (current_upstream_error o req rows key st json M H K U S) in W;
         absurd_event].
    pose proof (current_fresh o req rows key st json M H K U S) as E.
    cbv zeta in E. rewrite E in W |- *. cbn [fst snd trace table] in W |- *.
    destruct W as [W | [W | [W | []]]]; try discriminate.
    injection W as <-. repeat split.
    + exists st, json. auto.
    + intros e.
      now rewrite (current_fresh (withInsertError o e) req rows key st json
                     M H K U S).
    + destruct (insert_error o); [reflexivity | congruence].
Qed.

Lemma cache_insert_failure_keeps_answer_witness :
  (exists data,
     fst (Forecast.serve failingInsert getColina []) =
       ok200 data "api" "Fresh 5-day forecast from OpenWeatherMap" /\
     map Forecast.date (Forecast.forecast data) = ["2024-01-11"; "2024-01-12"]%string /\
     table (snd (Forecast.serve failingInsert getColina [])) = []) /\
  (exists data,
     fst (Current.serve failingInsertNow getColina []) =
       ok200 data "api" "Fresh data from weather service" /\
     Current.wind_direction data = Current.Value "S" /\
     table (snd (Current.serve failingInsertNow getColina [])) = []).
Proof.
  destruct cache_insert_failure_keeps_answer as (F & C). split.
  - destruct (F failingInsert getColina []
                (Forecast.mkRow "Colina"
                   (Forecast.mkForecastData "Colina"
                      (map Forecast.toDayForecast
                         [ ("2024-01-11"%string,
                            Forecast.mkGroup [5; 7]%Q ["cielo claro"; "nubes"]%string
                                             [Js.Fin 36; Js.Fin 36]);
                           ("2024-01-12"%string,
                            Forecast.mkGroup [1]%Q ["lluvia ligera"]%string
                                             [Js.Fin 36]) ])
                      1704848400000)
                   1704848400000))
      as (_ & E & _ & T).
    + vm_compute. right; right; left. reflexivity.
    + exists "Colina"%string, "k"%string. vm_compute. right; left. reflexivity.
    + eexists. split; [exact E | split; [reflexivity |]].
      apply T. discriminate.
  - destruct (C failingInsertNow getColina []
                (Current.normalize "Colina"
                   (Current.mkWeatherJson (Some 21%Q) (Some 40%Q) (Some 3%Q)
                      (Some 180%Q) (Some "cielo claro"%string))
                   1704848400000))
      as (_ & E & _ & T).
    + vm_compute. right; right; left. reflexivity.
    + exists "Colina"%string, "k"%string. vm_compute. right; left. reflexivity.
    + eexists. split; [exact E | split; [reflexivity |]].
      apply T. discriminate.
Defined.

End UpstreamAndInsert.

(* ================================================================== *)
(** ** Normalisation of the current-weather reply *)
(* ================================================================== *)

Section Normalisation.

Import Current.

(** C4, on the code.  [degToCardinal] sends 0, 90, 180, 270 and 45 degrees
    to "N", "E", "S", "W" and "NE", and the normalisation of a reply records
    these strings for 90, 180, 270 and 45 degrees; for 0 degrees it records
    [null], because line 317 tests the degrees for truthiness before it
    converts them. *)
Theorem wind_direction_of_zero_degrees_is_null
        (loc : string) (t : Z) (temp hum spd : option Q) (desc : option string) :
  degToCardinal 0 = Value "N" /\
  degToCardinal 90 = Value "E" /\
  degToCardinal 180 = Value "S" /\
  degToCardinal 270 = Value "W" /\
  degToCardinal 45 = Value "NE" /\
  wind_direction (normalize loc (mkWeatherJson temp hum spd (Some 90%Q) desc) t)
    = Value "E" /\
  wind_direction (normalize loc (mkWeatherJson temp hum spd (Some 180%Q) desc) t)
    = Value "S" /\
  wind_direction (normalize loc (mkWeatherJson temp hum spd (Some 270%Q) desc) t)
    = Value "W" /\
  wind_direction (normalize loc (mkWeatherJson temp hum spd (Some 45%Q) desc) t)
    = Value "NE" /\
  wind_direction (normalize loc (mkWeatherJson temp hum spd (Some 0%Q) desc) t)
    = Null.
Proof. repeat split; reflexivity. Qed.

Lemma numOrNull_zero (q : Q) : (q == 0)%Q -> numOrNull (Some q) = None.
Proof.
  intros E. unfold numOrNull, Js.truthyNum.
  now rewrite (Qeq_eq_bool _ _ E).
Qed.

Lemma windDirection_zero (q : Q) : (q == 0)%Q -> windDirection (Some q) = Null.
Proof.
  intros E. unfold windDirection, Js.truthyNum.
  now rewrite (Qeq_eq_bool _ _ E).
Qed.

(** C10.  In the normalisation of a reply, a temperature, a humidity, a wind
    speed or a wind direction that is present and equal to 0 is recorded as
    [null], and the snapshot is the one the handler builds when that field
    is absent. *)
Theorem zero_readings_are_recorded_as_null
        (q : Q) (loc : string) (t : Z)
        (temp hum spd deg : option Q) (desc : option string) :
  (q == 0)%Q ->
  (temperature (normalize loc (mkWeatherJson (Some q) hum spd deg desc) t) = None /\
   normalize loc (mkWeatherJson (Some q) hum spd deg desc) t =
   normalize loc (mkWeatherJson None hum spd deg desc) t) /\
  (humidity (normalize loc (mkWeatherJson temp (Some q) spd deg desc) t) = None /\
   normalize loc (mkWeatherJson temp (Some q) spd deg desc) t =
   normalize loc (mkWeatherJson temp None spd deg desc) t) /\
  (wind_speed (normalize loc (mkWeatherJson temp hum (Some q) deg desc) t) = None /\
   normalize loc (mkWeatherJson temp hum (Some q) deg desc) t =
   normalize loc (mkWeatherJson temp hum None deg desc) t) /\
  (wind_direction (normalize loc (mkWeatherJson temp hum spd (Some q) desc) t) = Null /\
   normalize loc (mkWeatherJson temp hum spd (Some q) desc) t =
   normalize loc (mkWeatherJson temp hum spd None desc) t).
Proof.
  intros E. unfold normalize.
  cbn [main_temp main_humidity wind_speed_ms wind_deg weather0_description
       temperature humidity wind_speed wind_direction].
  rewrite (numOrNull_zero q E), (windDirection_zero q E).
  repeat split; reflexivity.
Qed.

Lemma zero_readings_are_recorded_as_null_witness :
  temperature
    (normalize "Colina"
       (mkWeatherJson (Some 0%Q) (Some 40%Q) (Some 3%Q) (Some 180%Q)
                      (Some "nieve"%string))
       1704848400000) = None.
Proof.
  apply (zero_readings_are_recorded_as_null
           0%Q "Colina" 1704848400000 (Some 0%Q) (Some 40%Q) (Some 3%Q)
           (Some 180%Q) (Some "nieve"%string)).
  reflexivity.
Defined.

End Normalisation.

(* ================================================================== *)
(** ** Forecast aggregation: what a group holds *)
(* ================================================================== *)

Section GroupContents.

Import Forecast Spec Notions.

Lemma get_set_other (k k0 : string) (g : Group) (m : DailyMap) :
  k <> k0 -> get k (set k0 g m) = get k m.
Proof.
  intros N. apply str_eqb_false in N.
  induction m as [| [k' g'] m IH]; simpl.
  - now rewrite N.
  - destruct (Js.str_eqb k0 k') eqn:E; simpl.
    + apply str_eqb_true in E. subst k'. now rewrite N.
    + now rewrite IH.
Qed.

Lemma has_false_get (k : string) (m : DailyMap) :
  has k m = false -> get k m = None.
Proof.
  induction m as [| [k' g'] m IH]; simpl; [reflexivity |].
  destruct (Js.str_eqb k k'); [discriminate | exact IH].
Qed.

Lemma In_get (k : string) (g : Group) (m : DailyMap) :
  NoDup (map fst m) -> In (k, g) m -> get k m = Some g.
Proof.
  induction m as [| [k' g'] m IH]; simpl; [tauto |].
  intros D [E | I].
  - injection E as -> ->. now rewrite str_eqb_refl.
  - inversion D as [| ? ? N D']; subst.
    destruct (Js.str_eqb k k') eqn:E; [| auto].
    apply str_eqb_true in E. subst k'. exfalso. apply N.
    apply (in_map fst) in I. exact I.
Qed.

(** What the callback leaves under every key. *)
Lemma addItem_get (m m' : DailyMap) (item : Item) :
  addItem m item = inr m' ->
  forall k,
    get k m' =
    if Js.str_eqb (dateKeyOf item) k
    then Some (extend (match get k m with Some g => g | None => emptyGroup end)
                      [item])
    else get k m.
Proof.
  unfold addItem, itemDate, Js.newDate, dateKeyOf, extend, temp, description, speed.
  destruct (Z.abs (dt item * 1000) <=? Js.maxTimeValue); simpl; [| discriminate].
  set (k0 := Js.isoDateOfTime (dt item * 1000)).
  destruct (wind item) as [s |]; [| discriminate].
  destruct (has k0 m) eqn:Hk; simpl.
  - destruct (has_get _ _ Hk) as (data & G & _). rewrite G.
    destruct (main item) as [t |]; [| discriminate].
    destruct (weather item) as [[| c rest] |]; try discriminate.
    intros H k. injection H as <-. destruct (Js.str_eqb k0 k) eqn:E.
    + apply str_eqb_true in E. subst k. now rewrite get_set_same, G.
    + apply str_eqb_false in E. apply get_set_other. congruence.
  - rewrite get_set_same.
    destruct (main item) as [t |]; [| discriminate].
    destruct (weather item) as [[| c rest] |]; try discriminate.
    intros H k. injection H as <-. rewrite set_set.
    destruct (Js.str_eqb k0 k) eqn:E.
    + apply str_eqb_true in E. subst k.
      now rewrite get_set_same, (has_false_get _ _ Hk).
    + apply str_eqb_false in E. apply get_set_other. congruence.
Qed.

Lemma extend_extend (g : Group) (a b : list Item) :
  extend (extend g a) b = extend g (a ++ b).
Proof.
  unfold extend. simpl. now rewrite !map_app, !app_assoc.
Qed.

(** What the loop leaves under every key: the group it found there, or a
    new one, extended by the samples of that date in the order of the list;
    no group where there was none and no sample of that date came. *)
Lemma forEach_get (items : list Item) :
  forall m m',
    forEach items m = inr m' ->
    forall k,
      get k m' =
      match get k m, samplesOf k items with
      | None, [] => None
      | None, s => Some (groupOf s)
      | Some g, s => Some (extend g s)
      end.
Proof.
  induction items as [| item items IH]; intros m m' H k; simpl in H.
  - injection H as <-. simpl. destruct (get k m) as [g |]; [| reflexivity].
    unfold extend. simpl. rewrite !app_nil_r. now destruct g.
  - destruct (addItem m item) as [e | m1] eqn:A; [discriminate |].
    rewrite (IH _ _ H k), (addItem_get _ _ _ A k). clear IH H.
    assert (S : samplesOf k (item :: items) =
                if Js.str_eqb (dateKeyOf item) k
                then item :: samplesOf k items else samplesOf k items)
      by reflexivity.
    rewrite S. clear S.
    destruct (Js.str_eqb (dateKeyOf item) k).
    + unfold groupOf. destruct (get k m) as [g |];
        rewrite extend_extend; reflexivity.
    + reflexivity.
Qed.

Lemma firstOccurrences_NoDup (ks : list string) : NoDup (firstOccurrences ks).
Proof.
  induction ks as [| k ks IH]; simpl; constructor.
  - intros I. apply filter_In in I. destruct I as (_ & N).
    now rewrite str_eqb_refl in N.
  - now apply NoDup_filter.
Qed.

Lemma firstOccurrences_complete (k : string) (ks : list string) :
  In k ks -> In k (firstOccurrences ks).
Proof.
  induction ks as [| k0 ks IH]; simpl; [tauto |].
  intros [E | I]; [now left |].
  destruct (string_dec k0 k) as [E | N]; [now left | right].
  apply filter_In. split; [auto |].
  apply negb_true_iff, str_eqb_false. congruence.
Qed.

(** The keys of the map that the transformation starts from. *)
Lemma groupByDate_keys (tz : Z -> Z) (now : Z) (items : list Item) (m : DailyMap) :
  groupByDate tz now items = inr m ->
  map fst m = firstOccurrences (map dateKeyOf (retained tz now items)).
Proof.
  unfold groupByDate, retained. intros F.
  rewrite (forEach_keys _ _ _ F). cbn [map app].
  now rewrite filter_all by reflexivity.
Qed.

Lemma firstn_In {A} (n : nat) (l : list A) (x : A) : In x (firstn n l) -> In x l.
Proof.
  revert n. induction l as [| a l IH]; intros [| n]; simpl; try tauto.
  intros [H | H]; eauto.
Qed.

Lemma firstn_NoDup {A} (n : nat) (l : list A) : NoDup l -> NoDup (firstn n l).
Proof.
  intros D. rewrite <- (firstn_skipn n l) in D. now apply NoDup_app_remove_r in D.
Qed.

(** X1.  Every entry of the aggregated output is computed from the retained
    samples of its own date and from nothing else: there is at least one such
    sample, and the entry is the day summary of their temperatures,
    descriptions and converted wind speeds, taken in the order of the
    upstream series. *)
Theorem entry_summarises_the_samples_of_its_date
        (tz : Z -> Z) (now : Z) (items : list Item) (out : list DayForecast)
        (d : DayForecast) :
  aggregate tz now items = inr out ->
  In d out ->
  samplesOf (date d) (retained tz now items) <> [] /\
  d = toDayForecast
        (date d, groupOf (samplesOf (date d) (retained tz now items))).
Proof.
  intros A I. destruct (aggregate_inv _ _ _ _ A) as (m & F & ->).
  apply in_map_iff in I. destruct I as ((k & g) & <- & I).
  apply firstn_In in I. cbn [toDayForecast date].
  assert (G : groupByDate tz now items = inr m) by exact F.
  pose proof (groupByDate_keys _ _ _ _ G) as K.
  assert (D : NoDup (map fst m)) by (rewrite K; apply firstOccurrences_NoDup).
  pose proof (In_get _ _ _ D I) as Gk.
  rewrite (forEach_get _ _ _ F k) in Gk. cbn [get] in Gk.
  fold (retained tz now items) in Gk.
  destruct (samplesOf k (retained tz now items)) as [| s0 s]; [discriminate |].
  injection Gk as <-. split; [discriminate | reflexivity].
Qed.

Lemma entry_summarises_the_samples_of_its_date_witness :
  samplesOf "2024-01-11" (retained utc 1704848400000 sampleSeries) <> [] /\
  toDayForecast
    ("2024-01-11"%string,
     mkGroup [5; 7]%Q ["cielo claro"; "nubes"]%string [Js.Fin 36; Js.Fin 36]) =
  toDayForecast
    ("2024-01-11"%string,
     groupOf (samplesOf "2024-01-11" (retained utc 1704848400000 sampleSeries))).
Proof.
  refine (entry_summarises_the_samples_of_its_date
            utc 1704848400000 sampleSeries
            (map toDayForecast
               [ ("2024-01-11"%string,
                  mkGroup [5; 7]%Q ["cielo claro"; "nubes"]%string
                          [Js.Fin 36; Js.Fin 36]);
                 ("2024-01-12"%string,
                  mkGroup [1]%Q ["lluvia ligera"]%string [Js.Fin 36]) ])
            (toDayForecast
               ("2024-01-11"%string,
                mkGroup [5; 7]%Q ["cielo claro"; "nubes"]%string
                        [Js.Fin 36; Js.Fin 36]))
            _ _).
  - vm_compute. reflexivity.
  - left. reflexivity.
Defined.

(** X2.  The dates of the aggregated output are pairwise distinct, each is
    the date of a retained sample of the series, and a retained sample's date
    is missing from the output only when the output already has five
    entries. *)
Theorem output_dates_distinct_and_complete
        (tz : Z -> Z) (now : Z) (items : list Item) (out : list DayForecast) :
  aggregate tz now items = inr out ->
  NoDup (map date out) /\
  (forall d, In d out ->
     exists item, In item items /\ notToday tz now item = true /\
                  validItem item /\ date d = dateKeyOf item) /\
  ((List.length out < 5)%nat ->
   forall item, In item items -> notToday tz now item = true ->
                In (dateKeyOf item) (map date out)).
Proof.
  intros A. destruct (aggregate_inv _ _ _ _ A) as (m & F & ->).
  assert (G : groupByDate tz now items = inr m) by exact F.
  pose proof (groupByDate_keys _ _ _ _ G) as K.
  rewrite date_toDayForecast, <- firstn_map, K.
  split; [apply firstn_NoDup, firstOccurrences_NoDup | split].
  - intros d I. apply (in_map date) in I.
    rewrite date_toDayForecast, <- firstn_map, K in I.
    apply firstn_In, firstOccurrences_In, in_map_iff in I.
    destruct I as (item & E & I). exists item.
    pose proof (forEach_valid _ _ _ F) as V. rewrite Forall_forall in V.
    specialize (V item I). apply filter_In in I. destruct I as (I & N).
    split; [exact I | split; [exact N | split; [exact V | auto]]].
  - rewrite length_map. intros L item I N.
    assert (X : firstn 5 m = m).
    { apply firstn_all2. rewrite length_firstn in L. lia. }
    assert (Y : firstn 5 (map fst m) = map fst m) by (now rewrite firstn_map, X).
    rewrite <- K, Y, K. apply firstOccurrences_complete, in_map.
    apply filter_In. auto.
Qed.

Lemma output_dates_distinct_and_complete_witness :
  NoDup [ "2024-01-11"; "2024-01-12" ]%string /\
  In "2024-01-12"%string [ "2024-01-11"; "2024-01-12" ]%string.
Proof.
  destruct (output_dates_distinct_and_complete
              utc 1704848400000 sampleSeries
              (map toDayForecast
                 [ ("2024-01-11"%string,
                    mkGroup [5; 7]%Q ["cielo claro"; "nubes"]%string
                            [Js.Fin 36; Js.Fin 36]);
                   ("2024-01-12"%string,
                    mkGroup [1]%Q ["lluvia ligera"]%string [Js.Fin 36]) ]))
    as (D & _ & C).
  - vm_compute. reflexivity.
  - split; [exact D |].
    apply (C ltac:(simpl; lia)
             (mkItem 1705017600 (Some 1%Q) (Some ["lluvia ligera"%string]) (Some 10%Q))).
    + right; right; right; left. reflexivity.
    + vm_compute. reflexivity.
Defined.

End GroupContents.

(* ================================================================== *)
(** ** Forecast aggregation: when it throws *)
(* ================================================================== *)

Section AggregationErrors.

Import Http Rt Forecast Spec Notions.

(** The callback throws on a sample the error that [errorOf] names, whatever
    the map holds, and takes every other sample in. *)
Lemma addItem_errorOf (m : DailyMap) (item : Item) :
  match errorOf item with
  | Some e => addItem m item = inl e
  | None => exists m', addItem m item = inr m'
  end.
Proof.
  unfold errorOf, addItem, itemDate, Js.newDate.
  destruct (Z.abs (dt item * 1000) <=? Js.maxTimeValue); simpl; [| reflexivity].
  set (k := Js.isoDateOfTime (dt item * 1000)).
  destruct (wind item) as [s |]; [| reflexivity].
  assert (G : exists data,
             get k (if negb (has k m) then set k emptyGroup m else m) = Some data).
  { destruct (has k m) eqn:Hk; simpl.
    - destruct (has_get _ _ Hk) as (data & G & _). eauto.
    - rewrite get_set_same. eauto. }
  destruct G as (data & ->).
  destruct (main item) as [t |]; [| reflexivity].
  destruct (weather item) as [[| c rest] |]; try reflexivity. eauto.
Qed.

Lemma errorOf_valid (item : Item) : errorOf item = None <-> validItem item.
Proof.
  unfold errorOf, validItem, validTime, wellFormed.
  destruct (Z.abs (dt item * 1000) <=? Js.maxTimeValue) eqn:V; simpl.
  - apply Z.leb_le in V.
    destruct (wind item) as [s |], (main item) as [t |],
             (weather item) as [[| c rest] |];
      split; try discriminate; try (intros _; repeat split; eauto; fail);
      try (intros (_ & (? & X) & (? & Y) & (? & ? & W)); discriminate).
  - split; [discriminate |]. intros (X & _). apply Z.leb_le in X. congruence.
Qed.

Lemma forEach_firstError (items : list Item) :
  forall m,
    match firstError items with
    | Some e => forEach items m = inl e
    | None => exists m', forEach items m = inr m'
    end.
Proof.
  induction items as [| item items IH]; intros m; simpl; [eauto |].
  pose proof (addItem_errorOf m item) as A.
  destruct (errorOf item) as [e |].
  - now rewrite A.
  - destruct A as (m1 & ->). apply IH.
Qed.

(** The filter of line 115 keeps every sample without a valid date: the
    [NaN] of its [getDate()] differs from every day. *)
Lemma invalid_is_retained (tz : Z -> Z) (now : Z) (item : Item) :
  ~ validTime item -> notToday tz now item = true.
Proof.
  unfold validTime, notToday, itemDate, Js.newDate. intros V.
  destruct (Z.abs (dt item * 1000) <=? Js.maxTimeValue) eqn:E; [| reflexivity].
  apply Z.leb_le in E. contradiction.
Qed.

(** X3.  The aggregation fails exactly when a sample that passes the filter
    of line 115 carries a timestamp that makes no valid date (beyond 8.64e15
    ms from the epoch) or lacks [wind], [main] or a first element of
    [weather]; what it throws is the error of the first such sample, the
    [RangeError] "Invalid time value" going before the [TypeError] of a
    missing reading.  A sample with an invalid timestamp always passes the
    filter; a sample of the current day is dropped by it and does no harm.
    A reply without [list] fails on line 115.  A request that gets such a
    reply from upstream is answered 500 with the message of the error, and
    nothing is cached. *)
Theorem forecast_fails_on_the_first_bad_sample :
  (forall item, errorOf item = None <-> validItem item) /\
  (forall (tz : Z -> Z) (now : Z) (items : list Item),
      match firstError (retained tz now items) with
      | Some e => aggregate tz now items = inl e
      | None => exists out, aggregate tz now items = inr out
      end) /\
  (forall (tz : Z -> Z) (now : Z) (item : Item),
      ~ validTime item ->
      notToday tz now item = true /\
      errorOf item = Some (Js.ErrorObj "Invalid time value")) /\
  (forall (tz : Z -> Z) (now : Z),
      forecastOf tz now (mkReply None) =
        inl (Js.ErrorObj "Cannot read properties of undefined (reading 'filter')") /\
      forall items, forecastOf tz now (mkReply (Some items)) = aggregate tz now items) /\
  (forall (o : Oracle Reply) (req : Request) (rows : list Row)
          (key : string) (st : N) (json : Reply) (msg : string),
      method req <> "OPTIONS"%string ->
      (forall r, In r rows -> row_location r = locationOf req ->
                 row_fetched_at r < clock o 0 - sixHours) ->
      keyConfigured o = Some key ->
      upstream o = HttpReply st json ->
      isOk st = true ->
      forecastOf (tz o) (clock o 1) json = inl (Js.ErrorObj msg) ->
      fst (serve o req rows) = error500 msg /\
      calledUpstream (snd (serve o req rows)) /\
      ~ wroteCache (snd (serve o req rows)) /\
      table (snd (serve o req rows)) = rows).
Proof.
  split; [exact errorOf_valid | split; [| split; [| split]]].
  - intros tz now items. unfold aggregate, groupByDate, retained.
    pose proof (forEach_firstError (filter (notToday tz now) items) []) as F.
    destruct (firstError _) as [e |].
    + now rewrite F.
    + destruct F as (m & ->). eauto.
  - intros tz now item V. split; [now apply invalid_is_retained |].
    unfold errorOf. unfold validTime in V.
    destruct (Z.abs (dt item * 1000) <=? Js.maxTimeValue) eqn:E; [| reflexivity].
    apply Z.leb_le in E. contradiction.
  - intros tz now. split; reflexivity.
  - intros o req rows key st json msg M Nf K U S A.
    assert (H : cacheHit row_location row_fetched_at o rows (locationOf req)
                         (clock o 0 - sixHours) = None).
    { unfold cacheHit. destruct (cache_read_error o); [reflexivity |].
      now apply select_none. }
    rewrite (forecast_aggregate_throws o req rows key st json _ M H K U S A).
    cbn [fst snd table trace]. repeat split.
    + exists (locationOf req), key. right; left. reflexivity.
    + intros (row & [X | [X | []]]); discriminate.
Qed.

Lemma forecast_fails_on_the_first_bad_sample_witness :
  fst (serve (mkOracle _ utc at0100 (fun _ => 0%Q) (Some "k"%string) None
                       (HttpReply 200
                          (mkReply
                             (Some
                                [ mkItem 1704855600 None None None;
                                  mkItem 1704931200 (Some 5%Q)
                                         (Some ["cielo claro"%string]) (Some 10%Q);
                                  mkItem 1704942000 None (Some []) (Some 10%Q);
                                  mkItem 8640000000001 (Some 7%Q)
                                         (Some ["nubes"%string]) (Some 10%Q) ])))
                       None)
             getColina []) =
  error500 "Cannot read properties of undefined (reading 'temp')".
Proof.
  destruct forecast_fails_on_the_first_bad_sample as (_ & _ & _ & _ & H).
  refine (proj1 (H (mkOracle _ utc at0100 (fun _ => 0%Q) (Some "k"%string) None
                             (HttpReply 200
                                (mkReply
                                   (Some
                                      [ mkItem 1704855600 None None None;
                                        mkItem 1704931200 (Some 5%Q)
                                               (Some ["cielo claro"%string])
                                               (Some 10%Q);
                                        mkItem 1704942000 None (Some []) (Some 10%Q);
                                        mkItem 8640000000001 (Some 7%Q)
                                               (Some ["nubes"%string])
                                               (Some 10%Q) ])))
                             None)
                   getColina [] "k"%string 200%N _ _ _ _ _ _ _ _)).
  - discriminate.
  - intros r [].
  - reflexivity.
  - reflexivity.
  - reflexivity.
  - vm_compute. reflexivity.
Defined.

End AggregationErrors.

(* ================================================================== *)
(** ** Wind: conversion, daily mean, direction *)
(* ================================================================== *)

Section Wind.

Import Forecast Spec Notions.
Local Open Scope Q_scope.

Lemma mul_mono (x y c : Q) : 0 <= c -> x <= y -> Js.jsLe (Js.mul x c) (Js.mul y c).
Proof.
  intros P L. unfold Js.mul. apply round64_mono.
  apply Qmult_le_compat_r; assumption.
Qed.

Lemma windSpeedKmh_mono (s s' : Q) :
  s <= s' -> Js.jsLe (windSpeedKmh s) (windSpeedKmh s').
Proof.
  intros L. unfold windSpeedKmh. apply jsRoundTo1_mono, mul_mono; [| exact L].
  vm_compute. discriminate.
Qed.

(** X4.  The conversion of line 120 yields a number with one decimal (the
    double nearest to a whole number of tenths), keeps the order of speeds,
    turns no speed that is not negative into a negative one and no speed
    that is not positive into a positive one, and sends 0 to 0. *)
Theorem wind_conversion_is_monotone (s s' : Q) :
  oneDecimal (windSpeedKmh s) /\
  (s <= s' -> Js.jsLe (windSpeedKmh s) (windSpeedKmh s')) /\
  (0 <= s -> Js.jsLe (Js.Fin 0) (windSpeedKmh s)) /\
  (s <= 0 -> Js.jsLe (windSpeedKmh s) (Js.Fin 0)) /\
  windSpeedKmh 0 = Js.Fin 0.
Proof.
  assert (Z0 : windSpeedKmh 0 = Js.Fin 0) by (vm_compute; reflexivity).
  split; [| split; [| split; [| split]]].
  - unfold windSpeedKmh. apply jsRoundTo1_oneDecimal, round64_not_NaN.
  - apply windSpeedKmh_mono.
  - intros L. rewrite <- Z0. apply windSpeedKmh_mono, L.
  - intros L. rewrite <- Z0. apply windSpeedKmh_mono, L.
  - exact Z0.
Qed.

Lemma wind_conversion_is_monotone_witness :
  Js.jsLe (windSpeedKmh (5 # 2)) (windSpeedKmh (7 # 2)) /\
  Js.jsLe (Js.Fin 0) (windSpeedKmh (5 # 2)).
Proof.
  destruct (wind_conversion_is_monotone (5 # 2) (7 # 2)) as (_ & M & P & _).
  split; [apply M | apply P]; discriminate.
Defined.

(** The conversion on the doubles of 0.875 and 1.625 m/s: the products are
    a little below 3.15 and a little above 5.85, and the speeds in km/h are
    3.1 and 5.9.  The primitive floats agree. *)
Example wind_conversion_of_rounded_products :
  windSpeedKmh (7 # 8) = Js.Fin (Js.double (31 # 10)) /\
  Binary64.value (Binary64.windSpeedKmh (Binary64.ofDecimal 875 3))
    = Js.Fin (Js.double (31 # 10)) /\
  windSpeedKmh (13 # 8) = Js.Fin (Js.double (59 # 10)) /\
  Binary64.value (Binary64.windSpeedKmh (Binary64.ofDecimal 1625 3))
    = Js.Fin (Js.double (59 # 10)).
Proof. repeat split; vm_compute; reflexivity. Qed.

Lemma windMean_toDayForecast (k : string) (g : Group) (ws : list Q) :
  windSpeeds g = map Js.Fin ws ->
  day_wind_speed (toDayForecast (k, g)) = windMean ws.
Proof.
  intros E. cbn [toDayForecast day_wind_speed]. unfold windMean.
  now rewrite E, length_map.
Qed.

(** X5.  The day's [wind_speed] is a whole number whenever it is finite.
    For a date group whose wind speeds are finite and at least one, it is a
    number (not [NaN]) and it grows with each wind speed of the group: a day
    whose speeds are, one by one, at least those of another day of as many
    samples gets a [wind_speed] at least as large. *)
Theorem day_wind_speed_is_whole_and_monotone
        (k : string) (g g' : Group) (ws ws' : list Q) :
  (forall v, day_wind_speed (toDayForecast (k, g)) = Js.Fin v ->
             exists n : Z, v = inject_Z n) /\
  (windSpeeds g = map Js.Fin ws ->
   windSpeeds g' = map Js.Fin ws' ->
   ws <> [] ->
   Forall2 Qle ws ws' ->
   day_wind_speed (toDayForecast (k, g)) <> Js.NaN /\
   Js.jsLe (day_wind_speed (toDayForecast (k, g)))
           (day_wind_speed (toDayForecast (k, g')))).
Proof.
  split.
  - cbn [toDayForecast day_wind_speed]. intros v.
    destruct (Js.divLen _ _); simpl; try discriminate.
    intros H. injection H as <-. eauto.
  - intros E E' N L.
    rewrite (windMean_toDayForecast k g ws E), (windMean_toDayForecast k g' ws' E').
    unfold windMean. rewrite <- (Forall2_length L).
    destruct ws as [| w ws0]; [congruence |]. cbn [List.length].
    split.
    + apply jsLe_not_NaN, jsMathRound_mono, divLen_mono, sum_mono, Forall2_Qle_refl.
    + apply jsMathRound_mono, divLen_mono, sum_mono, L.
Qed.

Lemma day_wind_speed_is_whole_and_monotone_witness :
  Js.jsLe
    (day_wind_speed
       (toDayForecast
          ("2024-01-11"%string,
           mkGroup [5; 7] ["cielo claro"; "nubes"]%string [Js.Fin 9; Js.Fin 10])))
    (day_wind_speed
       (toDayForecast
          ("2024-01-11"%string,
           mkGroup [5; 7] ["cielo claro"; "nubes"]%string [Js.Fin 9; Js.Fin 12]))).
Proof.
  refine (proj2 (proj2 (day_wind_speed_is_whole_and_monotone
                          "2024-01-11"%string
                          (mkGroup [5; 7] ["cielo claro"; "nubes"]%string
                                   [Js.Fin 9; Js.Fin 10])
                          (mkGroup [5; 7] ["cielo claro"; "nubes"]%string
                                   [Js.Fin 9; Js.Fin 12])
                          [9; 10] [9; 12])
                   eq_refl eq_refl _ _)).
  - discriminate.
  - repeat constructor; discriminate.
Defined.

(** The sum of line 146 is rounded after each addition, so the day's
    [wind_speed] depends on the order of the samples: the speeds 0.1, 4.1
    and 0.3 give 1, and 2 in the order 0.3, 0.1, 4.1.  The primitive floats
    agree. *)
Example day_wind_speed_depends_on_order :
  windMean [Js.double (1 # 10); Js.double (41 # 10); Js.double (3 # 10)] = Js.Fin 1 /\
  windMean [Js.double (3 # 10); Js.double (1 # 10); Js.double (41 # 10)] = Js.Fin 2 /\
  Binary64.value
    (PrimFloat.div
       (fold_left PrimFloat.add
          [Binary64.ofDecimal 1 1; Binary64.ofDecimal 41 1; Binary64.ofDecimal 3 1]
          (Binary64.ofInt 0))
       (Binary64.ofInt 3))
    = Js.divLen
        (Js.sum (map Js.Fin [Js.double (1 # 10); Js.double (41 # 10);
                             Js.double (3 # 10)])) 3 /\
  Binary64.value
    (PrimFloat.div
       (fold_left PrimFloat.add
          [Binary64.ofDecimal 3 1; Binary64.ofDecimal 1 1; Binary64.ofDecimal 41 1]
          (Binary64.ofInt 0))
       (Binary64.ofInt 3))
    = Js.divLen
        (Js.sum (map Js.Fin [Js.double (3 # 10); Js.double (1 # 10);
                             Js.double (41 # 10)])) 3.
Proof. repeat split; vm_compute; reflexivity. Qed.

End Wind.

Section Direction.

Import Current.
Local Open Scope Q_scope.

Lemma floor_unique (x : Q) (k : Z) :
  inject_Z k <= x -> x < inject_Z k + 1 -> Qfloor x = k.
Proof.
  intros L U.
  pose proof (Qfloor_le x) as F. pose proof (Qlt_floor x) as G.
  rewrite inject_Z_plus in G. change (inject_Z 1) with 1 in G.
  assert (A : inject_Z (Qfloor x) < inject_Z (k + 1)).
  { rewrite inject_Z_plus. change (inject_Z 1) with 1. lra. }
  assert (B : inject_Z k < inject_Z (Qfloor x + 1)).
  { rewrite inject_Z_plus. change (inject_Z 1) with 1. lra. }
  rewrite <- Zlt_Qlt in A, B. lia.
Qed.

Lemma div45_le (x y : Q) : x <= y -> x / 45 <= y / 45.
Proof.
  intros H. unfold Qdiv. apply Qmult_le_compat_r; [exact H | discriminate].
Qed.

(** The doubles below a bound [b] that is a double stop one unit in the last
    place of [b] short of it. *)
Lemma double_below (deg b : Q) (e nb : Z) :
  Js.isDouble deg -> (-1022 <= e)%Z ->
  b == inject_Z nb * Js.pow2 (e - 52) ->
  Js.pow2 e <= deg -> deg < b ->
  deg <= b - Js.pow2 (e - 52).
Proof.
  intros D He Eb L U.
  pose proof (pow2_pos e) as Pe. pose proof (pow2_pos (e - 52)) as Pu.
  destruct (double_grid deg e D) as (n & En); [| exact He |].
  { rewrite Qabs_pos by lra. exact L. }
  assert (X : inject_Z n < inject_Z nb).
  { apply (Qmult_lt_r _ _ (Js.pow2 (e - 52)) Pu). rewrite <- En, <- Eb. exact U. }
  rewrite <- Zlt_Qlt in X.
  assert (Y : inject_Z n <= inject_Z (nb - 1)) by (rewrite <- Zle_Qle; lia).
  rewrite En, Eb.
  unfold Z.sub in Y. rewrite inject_Z_plus, inject_Z_opp in Y.
  change (inject_Z 1) with 1 in Y.
  setoid_replace (inject_Z nb * Js.pow2 (e - 52) - Js.pow2 (e - 52))
    with ((inject_Z nb + - (1)) * Js.pow2 (e - 52)) by ring.
  apply Qmult_le_compat_r; [exact Y | lra].
Qed.

(** The quotient of line 307 for a double below the upper end [b] of a
    sector stays below the half that [Math.round] would send up. *)
Lemma quotient_below_half (deg b : Q) (e nb k : Z) :
  Js.isDouble deg -> (-1022 <= e)%Z ->
  b == inject_Z nb * Js.pow2 (e - 52) ->
  Js.nearest64 (Js.pow2 e / 45) < inject_Z k + (1 # 2) ->
  Js.nearest64 ((b - Js.pow2 (e - 52)) / 45) < inject_Z k + (1 # 2) ->
  deg < b ->
  Js.nearest64 (deg / 45) < inject_Z k + (1 # 2).
Proof.
  intros D He Eb C1 C2 U.
  destruct (Qlt_le_dec deg (Js.pow2 e)) as [S | S].
  - eapply Qle_lt_trans; [| exact C1].
    apply nearest64_mono, div45_le. lra.
  - eapply Qle_lt_trans; [| exact C2].
    apply nearest64_mono, div45_le.
    apply (double_below deg b e nb); assumption.
Qed.

Lemma pow2_minus_48 : Js.pow2 (-48) == 1 # 281474976710656.
Proof. reflexivity. Qed.

(** What [degToCardinal] does with a quotient that rounds to [k]. *)
Lemma degToCardinal_of_quotient (deg : Q) (k : Z) :
  - (9) <= Js.nearest64 (deg / 45) <= 9 ->
  inject_Z k - (1 # 2) <= Js.nearest64 (deg / 45) ->
  Js.nearest64 (deg / 45) < inject_Z k + (1 # 2) ->
  degToCardinal deg = at_ directions (Z.rem k 8).
Proof.
  intros R L U. unfold degToCardinal, Js.div.
  assert (M : 9 <= Js.maxDouble) by (vm_compute; discriminate).
  rewrite round64_finite by lra.
  unfold Js.mathRound. rewrite (floor_unique _ k) by lra. reflexivity.
Qed.

(** X6.  For a double in the 45-degree sector around the [k]-th multiple of
    45 (from 22.5 below it, included, to 22.5 above it, excluded), for [k]
    from 0 to 8, [degToCardinal] gives the [k mod 8]-th of N, NE, E, SE, S,
    SW, W, NW: every direction from -22.5 degrees to below 382.5 gets its
    nearest point, 360 degrees is N again, and a half-way direction goes to
    the next point. *)
Theorem cardinal_of_the_compass_sectors (deg : Q) (k : Z) :
  Js.isDouble deg ->
  (0 <= k <= 8)%Z ->
  45 * inject_Z k - (45 # 2) <= deg ->
  deg < 45 * inject_Z k + (45 # 2) ->
  degToCardinal deg = at_ directions (k mod 8) /\
  exists s, degToCardinal deg = Value s /\ In s directions.
Proof.
  intros D K L U.
  assert (Lo : inject_Z k - (1 # 2) <= Js.nearest64 (deg / 45)).
  { apply Qle_trans with (Js.nearest64 (inject_Z k - (1 # 2))).
    - assert (k = 0 \/ k = 1 \/ k = 2 \/ k = 3 \/ k = 4 \/ k = 5 \/ k = 6 \/
              k = 7 \/ k = 8)%Z as C by lia.
      repeat (destruct C as [-> | C]; [vm_compute; discriminate |]).
      subst k. vm_compute. discriminate.
    - apply nearest64_mono.
      apply Qle_trans with ((45 * inject_Z k - (45 # 2)) / 45); [| now apply div45_le].
      apply Qle_lteq. right. field. }
  assert (Up : Js.nearest64 (deg / 45) < inject_Z k + (1 # 2)).
  { assert (k = 0 \/ k = 1 \/ k = 2 \/ k = 3 \/ k = 4 \/ k = 5 \/ k = 6 \/
            k = 7 \/ k = 8)%Z as C by lia.
    destruct C as [-> | [-> | [-> | [-> | [-> | [-> | [-> | [-> | ->]]]]]]]].
    - apply (quotient_below_half deg (45 # 2) 4 (45 * 2 ^ 47) 0 D);
        [lia | vm_compute; reflexivity | vm_compute; reflexivity
        | vm_compute; reflexivity | unfold inject_Z in U; lra].
    - apply (quotient_below_half deg (135 # 2) 6 (135 * 2 ^ 45) 1 D);
        [lia | vm_compute; reflexivity | vm_compute; reflexivity
        | vm_compute; reflexivity | unfold inject_Z in U; lra].
    - apply (quotient_below_half deg (225 # 2) 6 (225 * 2 ^ 45) 2 D);
        [lia | vm_compute; reflexivity | vm_compute; reflexivity
        | vm_compute; reflexivity | unfold inject_Z in U; lra].
    - apply (quotient_below_half deg (315 # 2) 7 (315 * 2 ^ 44) 3 D);
        [lia | vm_compute; reflexivity | vm_compute; reflexivity
        | vm_compute; reflexivity | unfold inject_Z in U; lra].
    - apply (quotient_below_half deg (405 # 2) 7 (405 * 2 ^ 44) 4 D);
        [lia | vm_compute; reflexivity | vm_compute; reflexivity
        | vm_compute; reflexivity | unfold inject_Z in U; lra].
    - apply (quotient_below_half deg (495 # 2) 7 (495 * 2 ^ 44) 5 D);
        [lia | vm_compute; reflexivity | vm_compute; reflexivity
        | vm_compute; reflexivity | unfold inject_Z in U; lra].
    - apply (quotient_below_half deg (585 # 2) 8 (585 * 2 ^ 43) 6 D);
        [lia | vm_compute; reflexivity | vm_compute; reflexivity
        | vm_compute; reflexivity | unfold inject_Z in U; lra].
    - apply (quotient_below_half deg (675 # 2) 8 (675 * 2 ^ 43) 7 D);
        [lia | vm_compute; reflexivity | vm_compute; reflexivity
        | vm_compute; reflexivity | unfold inject_Z in U; lra].
    - apply (quotient_below_half deg (765 # 2) 8 (765 * 2 ^ 43) 8 D);
        [lia | vm_compute; reflexivity | vm_compute; reflexivity
        | vm_compute; reflexivity | unfold inject_Z in U; lra]. }
  assert (R : - (9) <= Js.nearest64 (deg / 45) <= 9).
  { assert (0 <= inject_Z k <= 8).
    { change 0 with (inject_Z 0). change 8 with (inject_Z 8).
      rewrite <- !Zle_Qle. exact K. }
    lra. }
  rewrite (degToCardinal_of_quotient deg k R Lo Up).
  rewrite Z.rem_mod_nonneg by lia.
  split; [reflexivity |].
  apply at_inside. change (Z.of_nat (List.length directions)) with 8%Z.
  apply Z.mod_pos_bound. lia.
Qed.

Lemma cardinal_of_the_compass_sectors_witness :
  degToCardinal (675 # 2) = Value "N" /\ degToCardinal (45 # 2) = Value "NE".
Proof.
  split.
  - apply (cardinal_of_the_compass_sectors (675 # 2) 8);
      try lia; try (vm_compute; intuition discriminate).
  - apply (cardinal_of_the_compass_sectors (45 # 2) 1);
      try lia; try (vm_compute; intuition discriminate).
Defined.

(** Far from the compass the quotient of line 307 is rounded past the
    sector: 45 * 2^53 + 64 degrees lie in the sector of the multiple
    [2^53 + 1], whose point is NE, and get E.  The primitive floats agree on
    the quotient. *)
Example cardinal_far_from_the_compass :
  degToCardinal (inject_Z (45 * 2 ^ 53 + 64)) = Value "E" /\
  at_ directions ((2 ^ 53 + 1) mod 8) = Value "NE" /\
  Js.div (inject_Z (45 * 2 ^ 53 + 64)) 45 = Js.Fin (inject_Z (2 ^ 53 + 2)) /\
  Binary64.value (PrimFloat.div (Binary64.ofInt (45 * 2 ^ 53 + 64)) (Binary64.ofInt 45))
    = Js.Fin (inject_Z (2 ^ 53 + 2)).
Proof. repeat split; vm_compute; reflexivity. Qed.

(** X7.  For a double below -22.5 degrees and down to -337.5,
    [degToCardinal] has no cardinal point to give: the remainder of line 307
    is negative there and the array access answers [undefined]. *)
Theorem cardinal_of_negative_degrees_is_undefined (deg : Q) :
  Js.isDouble deg ->
  - (675 # 2) <= deg -> deg < - (45 # 2) -> degToCardinal deg = Undefined.
Proof.
  intros D L U.
  assert (D' : Js.isDouble (- deg)).
  { destruct D as (D1 & D2). split.
    - unfold Js.nearest64 in *. rewrite Qred_correct in *. unfold Js.near in *.
      destruct (Qcompare_spec deg 0) as [C | C | C];
        destruct (Qcompare_spec (- deg) 0) as [C' | C' | C'];
        try (exfalso; lra).
      lra.
    - now rewrite Qabs_opp. }
  assert (Up : Js.nearest64 (deg / 45) < - (1 # 2)).
  { assert (X : - deg >= (45 # 2) + Js.pow2 (-48)).
    { destruct (double_grid (- deg) 4 D') as (n & En); [| lia |].
      - rewrite Qabs_pos by lra. change (Js.pow2 4) with 16. lra.
      - change (4 - 52)%Z with (-48)%Z in En. rewrite pow2_minus_48 in *.
        assert (Y : (45 # 2) < inject_Z n * (1 # 281474976710656)) by lra.
        assert (Z1 : (6333186975989760 < n)%Z).
        { unfold Qlt, Qmult, inject_Z in Y. simpl in Y. lia. }
        assert (Z2 : inject_Z 6333186975989761 <= inject_Z n).
        { rewrite <- Zle_Qle. lia. }
        rewrite En.
        apply Qle_trans with (inject_Z 6333186975989761 * (1 # 281474976710656)).
        + vm_compute. discriminate.
        + apply Qmult_le_compat_r; [exact Z2 | discriminate]. }
    apply Qle_lt_trans
      with (Js.nearest64 ((- ((45 # 2) + Js.pow2 (-48))) / 45)).
    - apply nearest64_mono, div45_le. lra.
    - vm_compute. reflexivity. }
  assert (Lo : - (15 # 2) <= Js.nearest64 (deg / 45)).
  { apply Qle_trans with (Js.nearest64 (- (15 # 2))); [vm_compute; discriminate |].
    apply nearest64_mono.
    apply Qle_trans with ((- (675 # 2)) / 45); [vm_compute; discriminate |].
    now apply div45_le. }
  unfold degToCardinal, Js.div.
  assert (M : 9 <= Js.maxDouble) by (vm_compute; discriminate).
  rewrite round64_finite by lra.
  set (r := Js.mathRound (Js.nearest64 (deg / 45))).
  assert (B : (-7 <= r <= -1)%Z).
  { subst r. unfold Js.mathRound.
    set (q := Js.nearest64 (deg / 45)) in *. clearbody q.
    pose proof (Qfloor_le (q + (1 # 2))) as F.
    pose proof (Qlt_floor (q + (1 # 2))) as G.
    rewrite inject_Z_plus in G. change (inject_Z 1) with 1 in G.
    assert (A : inject_Z (-8) < inject_Z (Qfloor (q + (1 # 2)))).
    { change (inject_Z (-8)) with (-8 # 1). lra. }
    assert (C : inject_Z (Qfloor (q + (1 # 2))) < inject_Z 0).
    { change (inject_Z 0) with 0. lra. }
    rewrite <- Zlt_Qlt in A, C. lia. }
  clearbody r.
  assert (E : Z.rem r 8 = r) by (apply Z.rem_small_iff; lia).
  rewrite E. unfold at_.
  destruct (r <? 0)%Z eqn:N; [reflexivity |].
  apply Z.ltb_ge in N. lia.
Qed.

Lemma cardinal_of_negative_degrees_is_undefined_witness :
  degToCardinal (- (90)) = Undefined.
Proof.
  apply cardinal_of_negative_degrees_is_undefined;
    try (vm_compute; intuition discriminate).
Defined.

End Direction.

(* ================================================================== *)
(** ** Normalisation: what is kept *)
(* ================================================================== *)

Section NormalisationKeeps.

Import Current.
Local Open Scope Q_scope.

Lemma numOrNull_nonzero (q : Q) : ~ q == 0 -> numOrNull (Some q) = Some q.
Proof.
  intros N. unfold numOrNull, Js.truthyNum.
  destruct (Qeq_bool q 0) eqn:E; [| reflexivity].
  apply Qeq_bool_eq in E. contradiction.
Qed.

(** X8.  The normalisation of a reply records the location asked for and the
    clock reading, copies a temperature, a humidity and a wind speed that are
    present and not zero as they come (the wind speed stays in the upstream
    unit, it is not converted as in the forecast), converts a wind direction
    that is present and not zero with [degToCardinal], keeps a description
    that is not empty, and records [null] for every field that is absent and
    for an empty description. *)
Theorem normalisation_keeps_nonzero_readings
        (loc : string) (json : WeatherJson) (t : Z) :
  location (normalize loc json t) = loc /\
  fetched_at (normalize loc json t) = t /\
  (forall q, main_temp json = Some q -> ~ q == 0 ->
             temperature (normalize loc json t) = Some q) /\
  (forall q, main_humidity json = Some q -> ~ q == 0 ->
             humidity (normalize loc json t) = Some q) /\
  (forall q, wind_speed_ms json = Some q -> ~ q == 0 ->
             wind_speed (normalize loc json t) = Some q) /\
  (forall q, wind_deg json = Some q -> ~ q == 0 ->
             wind_direction (normalize loc json t) = degToCardinal q) /\
  (forall s, weather0_description json = Some s -> s <> ""%string ->
             weather_description (normalize loc json t) = Value s) /\
  (main_temp json = None -> temperature (normalize loc json t) = None) /\
  (main_humidity json = None -> humidity (normalize loc json t) = None) /\
  (wind_speed_ms json = None -> wind_speed (normalize loc json t) = None) /\
  (wind_deg json = None -> wind_direction (normalize loc json t) = Null) /\
  (weather0_description json = None \/ weather0_description json = Some ""%string ->
   weather_description (normalize loc json t) = Null).
Proof.
  unfold normalize.
  cbn [location fetched_at temperature humidity wind_speed wind_direction
       weather_description].
  repeat split.
  - intros q -> N. now apply numOrNull_nonzero.
  - intros q -> N. now apply numOrNull_nonzero.
  - intros q -> N. now apply numOrNull_nonzero.
  - intros q -> N. unfold windDirection, Js.truthyNum.
    destruct (Qeq_bool q 0) eqn:E; [| reflexivity].
    apply Qeq_bool_eq in E. contradiction.
  - intros s -> N. destruct s; [congruence | reflexivity].
  - now intros ->.
  - now intros ->.
  - now intros ->.
  - now intros ->.
  - intros [-> | ->]; reflexivity.
Qed.

Lemma normalisation_keeps_nonzero_readings_witness :
  wind_speed
    (normalize "Colina"
       (mkWeatherJson (Some 21) (Some 40) (Some (31 # 10)) (Some 180)
                      (Some "cielo claro"%string))
       1704848400000) = Some (31 # 10) /\
  wind_direction
    (normalize "Colina"
       (mkWeatherJson (Some 21) (Some 40) (Some (31 # 10)) (Some 180)
                      (Some "cielo claro"%string))
       1704848400000) = Value "S".
Proof.
  destruct (normalisation_keeps_nonzero_readings
              "Colina"
              (mkWeatherJson (Some 21) (Some 40) (Some (31 # 10)) (Some 180)
                             (Some "cielo claro"%string))
              1704848400000)
    as (_ & _ & _ & _ & W & D & _).
  split.
  - apply W; [reflexivity | discriminate].
  - rewrite (D 180); [reflexivity | reflexivity | discriminate].
Defined.

End NormalisationKeeps.

(* ================================================================== *)
(** ** Every run goes one of the listed ways *)
(* ================================================================== *)

Section Runs.

Import Http Rt Spec Notions.

Lemma forecast_run (o : Oracle Forecast.Reply) (req : Request)
      (rows : list Forecast.Row) :
  ForecastRun o req rows (Forecast.serve o req rows).
Proof.
  destruct (string_dec (method req) "OPTIONS") as [M | M].
  { rewrite (forecast_preflight o req rows M). now constructor. }
  destruct (cacheHit Forecast.row_location Forecast.row_fetched_at o rows
              (locationOf req) (clock o 0 - Forecast.sixHours)) as [c |] eqn:H.
  { rewrite (forecast_cache_hit o req rows c M H). now constructor. }
  destruct (keyConfigured o) as [key |] eqn:K;
    [| rewrite (forecast_no_key o req rows M H K); now constructor].
  destruct (upstream o) as [msg | st json] eqn:U.
  { rewrite (forecast_network_failure o req rows key msg M H K U).
    now constructor. }
  destruct (isOk st) eqn:S;
    [| rewrite (forecast_upstream_error o req rows key st json M H K U S);
       now apply (FUpstreamError o req rows key st json)].
  destruct (Forecast.forecastOf (tz o) (clock o 1) json) as [e | days] eqn:A.
  - rewrite (forecast_aggregate_throws o req rows key st json e M H K U S A).
    now apply (FAggregateThrows o req rows key st json e).
  - rewrite (forecast_fresh o req rows key st json days M H K U S A).
    now apply (FFresh o req rows key st json days).
Qed.

Lemma current_run (o : Oracle Current.WeatherJson) (req : Request)
      (rows : list Current.WeatherData) :
  CurrentRun o req rows (Current.serve o req rows).
Proof.
  destruct (string_dec (method req) "OPTIONS") as [M | M].
  { rewrite (current_preflight o req rows M). now constructor. }
  destruct (cacheHit Current.rowLocation Current.rowFetchedAt o rows
              (locationOf req) (clock o 0 - Current.thirtyMinutes)) as [c |] eqn:H.
  { rewrite (current_cache_hit o req rows c M H). now constructor. }
  destruct (keyConfigured o) as [key |] eqn:K;
    [| rewrite (current_mock o req rows M H K); now constructor].
  destruct (upstream o) as [msg | st json] eqn:U.
  { rewrite (current_network_failure o req rows key msg M H K U).
    now constructor. }
  destruct (isOk st) eqn:S.
  - rewrite (current_fresh o req rows key st json M H K U S).
    now apply (CFresh o req rows key st json).
  - rewrite (current_upstream_error o req rows key st json M H K U S).
    now apply (CUpstreamError o req rows key st json).
Qed.

End Runs.

(* ================================================================== *)
(** ** What every answer and every run look like *)
(* ================================================================== *)

Section Envelopes.

Import Http Rt Spec Notions.

Lemma cors_in_json : incl corsHeaders jsonHeaders.
Proof. unfold jsonHeaders. apply incl_appl, incl_refl. Qed.

(** X9.  Every answer of either handler carries the two CORS headers.  An
    OPTIONS request is answered 200 without a body and without any outward
    call or clock reading, whatever the location, the configuration and the
    cache hold.  Every other request is answered with the JSON content type
    and either status 200 and a success body whose source is "cache" or "api"
    (or "mock", for the current-weather handler only), or status 500 and an
    error body with the details "Failed to fetch weather data". *)
Theorem answers_are_enveloped :
  (forall (o : Oracle Forecast.Reply) (req : Request)
          (rows : list Forecast.Row),
      incl corsHeaders (headers (fst (Forecast.serve o req rows))) /\
      (method req = "OPTIONS"%string ->
       Forecast.serve o req rows =
       (mkResponse 200 corsHeaders NoBody, mkSys rows 0 0 [])) /\
      (method req <> "OPTIONS"%string ->
       envelope ["cache"; "api"]%string (fst (Forecast.serve o req rows)))) /\
  (forall (o : Oracle Current.WeatherJson) (req : Request)
          (rows : list Current.WeatherData),
      incl corsHeaders (headers (fst (Current.serve o req rows))) /\
      (method req = "OPTIONS"%string ->
       Current.serve o req rows =
       (mkResponse 200 corsHeaders NoBody, mkSys rows 0 0 [])) /\
      (method req <> "OPTIONS"%string ->
       envelope ["cache"; "api"; "mock"]%string (fst (Current.serve o req rows)))).
Proof.
  assert (OK : forall D (data : D) (src msg : string) (l : list string),
             In src l -> envelope l (ok200 data src msg)).
  { intros D data src msg l I. split; [reflexivity | left].
    split; [reflexivity |]. exists data, src, msg. auto. }
  assert (KO : forall D (e : string) (l : list string),
             envelope l (@error500 D e)).
  { intros D e l. split; [reflexivity | right].
    split; [reflexivity |]. exists e. reflexivity. }
  split; intros o req rows.
  - destruct (forecast_run o req rows); cbn [fst].
    + split; [apply incl_refl | split; [reflexivity | contradiction]].
    + split; [apply cors_in_json | split; [contradiction | intros _]].
      apply OK. simpl. auto.
    + split; [apply cors_in_json | split; [contradiction | intros _; apply KO]].
    + split; [apply cors_in_json | split; [contradiction | intros _; apply KO]].
    + split; [apply cors_in_json | split; [contradiction | intros _; apply KO]].
    + destruct e; (split; [apply cors_in_json
                          | split; [contradiction | intros _; apply KO]]).
    + split; [apply cors_in_json | split; [contradiction | intros _]].
      apply OK. simpl. auto.
  - destruct (current_run o req rows); cbn [fst].
    + split; [apply incl_refl | split; [reflexivity | contradiction]].
    + split; [apply cors_in_json | split; [contradiction | intros _]].
      apply OK. simpl. auto.
    + split; [apply cors_in_json | split; [contradiction | intros _]].
      apply OK. simpl. auto.
    + split; [apply cors_in_json | split; [contradiction | intros _; apply KO]].
    + split; [apply cors_in_json | split; [contradiction | intros _; apply KO]].
    + split; [apply cors_in_json | split; [contradiction | intros _]].
      apply OK. simpl. auto.
Qed.

Lemma answers_are_enveloped_witness :
  Forecast.serve failingInsert (mkRequest "OPTIONS" None) [cachedForecast] =
  (mkResponse 200 corsHeaders NoBody, mkSys [cachedForecast] 0 0 []) /\
  envelope ["cache"; "api"; "mock"]%string
           (fst (Current.serve failingInsertNow getColina [])).
Proof.
  destruct answers_are_enveloped as (F & C). split.
  - apply (F failingInsert (mkRequest "OPTIONS" None) [cachedForecast]).
    reflexivity.
  - apply (C failingInsertNow getColina []). discriminate.
Defined.

(** X10.  The outward calls of a run come in one order and at most once
    each: the cache read, then the upstream call, then one cache insert (the
    current-weather handler can also insert after the read alone, on its mock
    path).  A run leaves the table as it was or with one row added at the
    end, a row for the location asked for, and the latter only after an
    insert that did not fail.  A run that issues an insert answers 200 from
    fresh ("api") or mock data; a run that answers 500 issues none. *)
Theorem runs_are_orderly :
  (forall (o : Oracle Forecast.Reply) (req : Request)
          (rows : list Forecast.Row),
      orderly false (trace (snd (Forecast.serve o req rows))) /\
      (table (snd (Forecast.serve o req rows)) = rows \/
       exists row,
         table (snd (Forecast.serve o req rows)) = rows ++ [row] /\
         In (CacheInsert row) (trace (snd (Forecast.serve o req rows))) /\
         insert_error o = None /\
         Forecast.row_location row = locationOf req) /\
      (wroteCache (snd (Forecast.serve o req rows)) ->
       status (fst (Forecast.serve o req rows)) = 200%N /\
       sourceOf (fst (Forecast.serve o req rows)) = Some "api"%string) /\
      (status (fst (Forecast.serve o req rows)) = 500%N ->
       table (snd (Forecast.serve o req rows)) = rows /\
       ~ wroteCache (snd (Forecast.serve o req rows)))) /\
  (forall (o : Oracle Current.WeatherJson) (req : Request)
          (rows : list Current.WeatherData),
      orderly true (trace (snd (Current.serve o req rows))) /\
      (table (snd (Current.serve o req rows)) = rows \/
       exists row,
         table (snd (Current.serve o req rows)) = rows ++ [row] /\
         In (CacheInsert row) (trace (snd (Current.serve o req rows))) /\
         insert_error o = None /\
         Current.location row = locationOf req) /\
      (wroteCache (snd (Current.serve o req rows)) ->
       status (fst (Current.serve o req rows)) = 200%N /\
       (sourceOf (fst (Current.serve o req rows)) = Some "api"%string \/
        sourceOf (fst (Current.serve o req rows)) = Some "mock"%string)) /\
      (status (fst (Current.serve o req rows)) = 500%N ->
       table (snd (Current.serve o req rows)) = rows /\
       ~ wroteCache (snd (Current.serve o req rows)))).
Proof.
  assert (NW0 : forall R, ~ wroteCache (@mkSys R [] 0 0 [])).
  { intros R (row & []). }
  assert (NW1 : forall R (rows : list R) n l c,
             ~ wroteCache (mkSys rows n 0 [CacheRead l c])).
  { intros R rows n l c (row & [X | []]). discriminate. }
  assert (NW2 : forall R (rows : list R) n l c k,
             ~ wroteCache (mkSys rows n 0 [CacheRead l c; UpstreamCall l k])).
  { intros R rows n l c k (row & [X | [X | []]]); discriminate. }
  split; intros o req rows.
  - destruct (forecast_run o req rows); cbn [fst snd trace table].
    + split; [now left | split; [now left | split]].
      * intros (row & []).
      * discriminate.
    + split; [right; eauto 6 | split; [now left | split]].
      * intros W. now apply NW1 in W.
      * discriminate.
    + split; [right; eauto 6 | split; [now left | split]].
      * intros W. now apply NW1 in W.
      * intros _. split; [reflexivity | apply NW1].
    + split; [right; eauto 8 | split; [now left | split]].
      * intros W. now apply NW2 in W.
      * intros _. split; [reflexivity | apply NW2].
    + split; [right; eauto 8 | split; [now left | split]].
      * intros W. now apply NW2 in W.
      * intros _. split; [reflexivity | apply NW2].
    + split; [right; eauto 8 | split; [now left | split]].
      * intros W. now apply NW2 in W.
      * intros _. split; [reflexivity | apply NW2].
    + split; [right; do 2 eexists; right; right; left; eauto | split; [| split]].
      * destruct (insert_error o) eqn:IE; [now left | right].
        eexists. split; [reflexivity |]. simpl. auto 6.
      * intros _. split; reflexivity.
      * discriminate.
  - destruct (current_run o req rows); cbn [fst snd trace table].
    + split; [now left | split; [now left | split]].
      * intros (row & []).
      * discriminate.
    + split; [right; eauto 6 | split; [now left | split]].
      * intros W. exfalso. revert W. apply NW1.
      * discriminate.
    + split; [right; do 2 eexists; right; right; right; eauto | split; [| split]].
      * destruct (insert_error o) eqn:IE; [now left | right].
        eexists. split; [reflexivity |]. simpl. auto 6.
      * intros _. split; [reflexivity | now right].
      * discriminate.
    + split; [right; eauto 8 | split; [now left | split]].
      * intros W. now apply NW2 in W.
      * intros _. split; [reflexivity | apply NW2].
    + split; [right; eauto 8 | split; [now left | split]].
      * intros W. now apply NW2 in W.
      * intros _. split; [reflexivity | apply NW2].
    + split; [right; do 2 eexists; right; right; left; eauto | split; [| split]].
      * destruct (insert_error o) eqn:IE; [now left | right].
        eexists. split; [reflexivity |]. simpl. auto 6.
      * intros _. split; [reflexivity | now left].
      * discriminate.
Qed.

Lemma runs_are_orderly_witness :
  status (fst (Forecast.serve failingInsert getColina [])) = 200%N /\
  sourceOf (fst (Forecast.serve failingInsert getColina [])) = Some "api"%string.
Proof.
  destruct runs_are_orderly as (F & _).
  destruct (F failingInsert getColina []) as (_ & _ & W & _).
  apply W. eexists. vm_compute. right; right; left. reflexivity.
Defined.

End Envelopes.

(* ================================================================== *)
(** ** The cache: what is served, what a failed read does, round trips *)
(* ================================================================== *)

Section CacheBehaviour.

Import Http Rt Spec Notions.

Lemma cacheHit_some {R J} (rowLocation : R -> string) (rowFetchedAt : R -> Z)
      (o : Oracle J) (rows : list R) (location : string) (cutoff : Z) (r : R) :
  cacheHit rowLocation rowFetchedAt o rows location cutoff = Some r ->
  cache_read_error o = None /\
  In r rows /\ rowLocation r = location /\ cutoff <= rowFetchedAt r /\
  forall x, In x rows -> rowLocation x = location -> rowFetchedAt x <= rowFetchedAt r.
Proof.
  unfold cacheHit. destruct (cache_read_error o); [discriminate |].
  intros S. split; [reflexivity |]. now apply select_some in S.
Qed.

Lemma cacheHit_read_error {R J} (rowLocation : R -> string) (rowFetchedAt : R -> Z)
      (o : Oracle J) (rows : list R) (location : string) (cutoff : Z) (e : string) :
  cache_read_error o = Some e ->
  cacheHit rowLocation rowFetchedAt o rows location cutoff = None.
Proof. unfold cacheHit. now intros ->. Qed.

(** The row that was appended last and is newer than every other row of its
    location is the one the select returns, as long as it is fresh. *)
Lemma cacheHit_last {R J} (rowLocation : R -> string) (rowFetchedAt : R -> Z)
      (o : Oracle J) (rows : list R) (location : string) (cutoff : Z) (row : R) :
  cache_read_error o = None ->
  rowLocation row = location ->
  cutoff <= rowFetchedAt row ->
  (forall r, In r rows -> rowLocation r = location ->
             rowFetchedAt r < rowFetchedAt row) ->
  cacheHit rowLocation rowFetchedAt o (rows ++ [row]) location cutoff = Some row.
Proof.
  intros E L C N. unfold cacheHit. rewrite E.
  destruct (select_finds R rowLocation rowFetchedAt (rows ++ [row]) location
              cutoff row) as (r' & S); auto.
  { apply in_or_app. right. now left. }
  rewrite S. f_equal.
  apply select_some in S. destruct S as (I & L' & _ & U).
  apply in_app_or in I. destruct I as [I | [<- | []]]; [| reflexivity].
  specialize (N r' I L').
  assert (Ir : In row (rows ++ [row])) by (apply in_or_app; right; now left).
  specialize (U row Ir L). lia.
Qed.

(** X11.  An answer with source "cache" always carries the payload of a row
    of the table that is of the location asked for and was fetched within
    the freshness window, the most recent such row; the read did not fail,
    and the run made no other outward call and left the table as it was. *)
Theorem cache_answers_are_fresh_rows :
  (forall (o : Oracle Forecast.Reply) (req : Request)
          (rows : list Forecast.Row),
      sourceOf (fst (Forecast.serve o req rows)) = Some "cache"%string ->
      exists cached,
        In cached rows /\
        Forecast.row_location cached = locationOf req /\
        clock o 0 - Forecast.sixHours <= Forecast.row_fetched_at cached /\
        (forall x, In x rows -> Forecast.row_location x = locationOf req ->
                   Forecast.row_fetched_at x <= Forecast.row_fetched_at cached) /\
        cache_read_error o = None /\
        Forecast.serve o req rows =
        (ok200 (Forecast.forecast_data cached) "cache"
               "Data from cache (less than 6 hours old)",
         mkSys rows 1 0
               [CacheRead (locationOf req) (clock o 0 - Forecast.sixHours)])) /\
  (forall (o : Oracle Current.WeatherJson) (req : Request)
          (rows : list Current.WeatherData),
      sourceOf (fst (Current.serve o req rows)) = Some "cache"%string ->
      exists cached,
        In cached rows /\
        Current.location cached = locationOf req /\
        clock o 0 - Current.thirtyMinutes <= Current.fetched_at cached /\
        (forall x, In x rows -> Current.location x = locationOf req ->
                   Current.fetched_at x <= Current.fetched_at cached) /\
        cache_read_error o = None /\
        Current.serve o req rows =
        (ok200 cached "cache" "Data from cache (less than 30 minutes old)",
         mkSys rows 1 0
               [CacheRead (locationOf req) (clock o 0 - Current.thirtyMinutes)])).
Proof.
  split; intros o req rows.
  - destruct (forecast_run o req rows) as [| cached M H | | | | ? ? ? e |];
      cbn [fst]; try discriminate; [| destruct e; discriminate].
    intros _. apply cacheHit_some in H. destruct H as (E & I & L & C & U).
    exists cached. repeat split; auto.
  - destruct (current_run o req rows) as [| cached M H | | | |];
      cbn [fst]; try discriminate.
    intros _. apply cacheHit_some in H. destruct H as (E & I & L & C & U).
    exists cached. repeat split; auto.
Qed.

Lemma cache_answers_are_fresh_rows_witness :
  exists cached,
    In cached [cachedWeather] /\
    clock (mkOracle Current.WeatherJson utc at0100 (fun _ => 0%Q) None None
                    (NetworkFailure "unreachable") None) 0
      - Current.thirtyMinutes <= Current.fetched_at cached.
Proof.
  destruct cache_answers_are_fresh_rows as (_ & C).
  destruct (C (mkOracle Current.WeatherJson utc at0100 (fun _ => 0%Q) None None
                        (NetworkFailure "unreachable") None)
              getColina [cachedWeather])
    as (cached & I & _ & F & _).
  - vm_compute. reflexivity.
  - exists cached. split; assumption.
Defined.

(** X12.  A cache read that fails is not reported: whatever the table
    holds, the handler answers, and calls out, exactly as it does when the
    read succeeds on an empty table, and what it leaves in the table is what
    it would add to the empty one; the error of the read shows nowhere. *)
Theorem failed_cache_read_is_a_miss :
  (forall (o : Oracle Forecast.Reply) (req : Request)
          (rows : list Forecast.Row) (e : string),
      cache_read_error o = Some e ->
      fst (Forecast.serve o req rows) =
      fst (Forecast.serve (withReadError o None) req []) /\
      trace (snd (Forecast.serve o req rows)) =
      trace (snd (Forecast.serve (withReadError o None) req [])) /\
      table (snd (Forecast.serve o req rows)) =
      rows ++ table (snd (Forecast.serve (withReadError o None) req []))) /\
  (forall (o : Oracle Current.WeatherJson) (req : Request)
          (rows : list Current.WeatherData) (e : string),
      cache_read_error o = Some e ->
      fst (Current.serve o req rows) =
      fst (Current.serve (withReadError o None) req []) /\
      trace (snd (Current.serve o req rows)) =
      trace (snd (Current.serve (withReadError o None) req [])) /\
      table (snd (Current.serve o req rows)) =
      rows ++ table (snd (Current.serve (withReadError o None) req []))).
Proof.
  split; intros o req rows e E.
  - assert (H0 : cacheHit Forecast.row_location Forecast.row_fetched_at
                   (withReadError o None) [] (locationOf req)
                   (clock (withReadError o None) 0 - Forecast.sixHours) = None)
      by reflexivity.
    pose proof (cacheHit_read_error Forecast.row_location Forecast.row_fetched_at
                  o rows (locationOf req) (clock o 0 - Forecast.sixHours) e E) as H1.
    destruct (string_dec (method req) "OPTIONS") as [M | M].
    { rewrite !(forecast_preflight _ req _ M). cbn [fst snd trace table].
      now rewrite app_nil_r. }
    destruct (keyConfigured o) as [key |] eqn:K.
    2:{ rewrite (forecast_no_key o req rows M H1 K),
          (forecast_no_key (withReadError o None) req [] M H0 K).
        cbn [fst snd trace table]. now rewrite app_nil_r. }
    destruct (upstream o) as [msg | st json] eqn:U.
    { rewrite (forecast_network_failure o req rows key msg M H1 K U),
        (forecast_network_failure (withReadError o None) req [] key msg M H0 K U).
      cbn [fst snd trace table]. now rewrite app_nil_r. }
    destruct (isOk st) eqn:S.
    2:{ rewrite (forecast_upstream_error o req rows key st json M H1 K U S),
          (forecast_upstream_error (withReadError o None) req [] key st json
             M H0 K U S).
        cbn [fst snd trace table]. now rewrite app_nil_r. }
    destruct (Forecast.forecastOf (tz o) (clock o 1) json) as [x | days] eqn:A.
    + rewrite (forecast_aggregate_throws o req rows key st json x M H1 K U S A),
        (forecast_aggregate_throws (withReadError o None) req [] key st json x
           M H0 K U S A).
      cbn [fst snd trace table]. now rewrite app_nil_r.
    + rewrite (forecast_fresh o req rows key st json days M H1 K U S A),
        (forecast_fresh (withReadError o None) req [] key st json days
           M H0 K U S A).
      cbn [fst snd trace table withReadError insert_error clock].
      destruct (insert_error o); [now rewrite app_nil_r | easy].
  - assert (H0 : cacheHit Current.rowLocation Current.rowFetchedAt
                   (withReadError o None) [] (locationOf req)
                   (clock (withReadError o None) 0 - Current.thirtyMinutes) = None)
      by reflexivity.
    pose proof (cacheHit_read_error Current.rowLocation Current.rowFetchedAt
                  o rows (locationOf req) (clock o 0 - Current.thirtyMinutes) e E)
      as H1.
    destruct (string_dec (method req) "OPTIONS") as [M | M].
    { rewrite !(current_preflight _ req _ M). cbn [fst snd trace table].
      now rewrite app_nil_r. }
    destruct (keyConfigured o) as [key |] eqn:K.
    2:{ rewrite (current_mock o req rows M H1 K),
          (current_mock (withReadError o None) req [] M H0 K).
        cbn [fst snd trace table withReadError insert_error clock random].
        destruct (insert_error o); [now rewrite app_nil_r | easy]. }
    destruct (upstream o) as [msg | st json] eqn:U.
    { rewrite (current_network_failure o req rows key msg M H1 K U),
        (current_network_failure (withReadError o None) req [] key msg M H0 K U).
      cbn [fst snd trace table]. now rewrite app_nil_r. }
    destruct (isOk st) eqn:S.
    + rewrite (current_fresh o req rows key st json M H1 K U S),
        (current_fresh (withReadError o None) req [] key st json M H0 K U S).
      cbn [fst snd trace table withReadError insert_error clock].
      destruct (insert_error o); [now rewrite app_nil_r | easy].
    + rewrite (current_upstream_error o req rows key st json M H1 K U S),
        (current_upstream_error (withReadError o None) req [] key st json
           M H0 K U S).
      cbn [fst snd trace table]. now rewrite app_nil_r.
Qed.

Lemma failed_cache_read_is_a_miss_witness :
  fst (Current.serve
         (mkOracle Current.WeatherJson utc at0100 someDraws None
                   (Some "connection refused"%string)
                   (NetworkFailure "unreachable") None)
         getColina [cachedWeather]) =
  fst (Current.serve
         (mkOracle Current.WeatherJson utc at0100 someDraws None None
                   (NetworkFailure "unreachable") None)
         getColina []) /\
  sourceOf
    (fst (Current.serve
            (mkOracle Current.WeatherJson utc at0100 someDraws None
                      (Some "connection refused"%string)
                      (NetworkFailure "unreachable") None)
            getColina [cachedWeather])) = Some "mock"%string.
Proof.
  destruct failed_cache_read_is_a_miss as (_ & C).
  destruct (C (mkOracle Current.WeatherJson utc at0100 someDraws None
                        (Some "connection refused"%string)
                        (NetworkFailure "unreachable") None)
              getColina [cachedWeather] "connection refused"%string eq_refl)
    as (E & _).
  split; [exact E |].
  rewrite E. vm_compute. reflexivity.
Defined.

(** X13.  What a run writes to the cache, the next request reads back: after
    a run whose insert did not fail, a request other than the preflight for
    the same location, made while the written row is within the freshness
    window, its cache read not failing, is answered from the cache with the
    very payload the first run answered with (fresh data, or mock data in the
    current-weather handler), and calls nothing but the cache read; this
    holds when the written row is newer than the rows the table already held
    for that location. *)
Theorem written_row_is_read_back :
  (forall (o1 o2 : Oracle Forecast.Reply) (req1 req2 : Request)
          (rows : list Forecast.Row) (row : Forecast.Row),
      In (CacheInsert row) (trace (snd (Forecast.serve o1 req1 rows))) ->
      insert_error o1 = None ->
      (forall r, In r rows -> Forecast.row_location r = locationOf req1 ->
                 Forecast.row_fetched_at r < Forecast.row_fetched_at row) ->
      method req2 <> "OPTIONS"%string ->
      locationOf req2 = locationOf req1 ->
      cache_read_error o2 = None ->
      clock o2 0 - Forecast.sixHours <= Forecast.row_fetched_at row ->
      fst (Forecast.serve o1 req1 rows) =
        ok200 (Forecast.forecast_data row) "api"
              "Fresh 5-day forecast from OpenWeatherMap" /\
      Forecast.serve o2 req2 (table (snd (Forecast.serve o1 req1 rows))) =
        (ok200 (Forecast.forecast_data row) "cache"
               "Data from cache (less than 6 hours old)",
         mkSys (rows ++ [row]) 1 0
               [CacheRead (locationOf req2) (clock o2 0 - Forecast.sixHours)])) /\
  (forall (o1 o2 : Oracle Current.WeatherJson) (req1 req2 : Request)
          (rows : list Current.WeatherData) (row : Current.WeatherData),
      In (CacheInsert row) (trace (snd (Current.serve o1 req1 rows))) ->
      insert_error o1 = None ->
      (forall r, In r rows -> Current.location r = locationOf req1 ->
                 Current.fetched_at r < Current.fetched_at row) ->
      method req2 <> "OPTIONS"%string ->
      locationOf req2 = locationOf req1 ->
      cache_read_error o2 = None ->
      clock o2 0 - Current.thirtyMinutes <= Current.fetched_at row ->
      (exists source message,
         fst (Current.serve o1 req1 rows) = ok200 row source message /\
         (source = "api"%string \/ source = "mock"%string)) /\
      Current.serve o2 req2 (table (snd (Current.serve o1 req1 rows))) =
        (ok200 row "cache" "Data from cache (less than 30 minutes old)",
         mkSys (rows ++ [row]) 1 0
               [CacheRead (locationOf req2) (clock o2 0 - Current.thirtyMinutes)])).
Proof.
  split; intros o1 o2 req1 req2 rows row W IE N M2 L2 E2 C2.
  - destruct (forecast_run o1 req1 rows) as [| | | | | ? ? ? e |];
      cbn [fst snd trace table] in W |- *;
      try (repeat (destruct W as [W | W]; [discriminate |]); now destruct W).
    destruct W as [W | [W | [W | []]]]; try discriminate.
    injection W as <-. rewrite IE. split; [reflexivity |].
    apply forecast_cache_hit; [exact M2 |].
    rewrite L2. apply cacheHit_last; auto.
  - destruct (current_run o1 req1 rows);
      cbn [fst snd trace table] in W |- *;
      try (repeat (destruct W as [W | W]; [discriminate |]); now destruct W).
    + destruct W as [W | [W | []]]; try discriminate.
      injection W as <-. rewrite IE. split; [eauto |].
      apply current_cache_hit; [exact M2 |].
      rewrite L2. apply cacheHit_last; auto.
    + destruct W as [W | [W | [W | []]]]; try discriminate.
      injection W as <-. rewrite IE. split; [eauto |].
      apply current_cache_hit; [exact M2 |].
      rewrite L2. apply cacheHit_last; auto.
Qed.

End CacheBehaviour.

Section CacheRoundTrip.

Import Http Rt Spec Notions.

Lemma written_row_is_read_back_witness :
  Forecast.serve workingInsert getColina
                 (table (snd (Forecast.serve workingInsert getColina []))) =
  (ok200 (Forecast.forecast_data writtenRow) "cache"
         "Data from cache (less than 6 hours old)",
   mkSys [writtenRow] 1 0 [CacheRead "Colina" (1704848400000 - Forecast.sixHours)]).
Proof.
  destruct written_row_is_read_back as (F & _).
  destruct (F workingInsert workingInsert getColina getColina [] writtenRow)
    as (_ & E).
  - vm_compute. right; right; left. reflexivity.
  - reflexivity.
  - intros r [].
  - discriminate.
  - reflexivity.
  - reflexivity.
  - vm_compute. discriminate.
  - exact E.
Defined.

End CacheRoundTrip.

(* ================================================================== *)
(** ** Missing key, unreachable provider, default location *)
(* ================================================================== *)

Section Failures.

Import Http Rt Spec Notions.

Lemma keyConfigured_none {J} (o : Oracle J) :
  api_key o = None \/ api_key o = Some ""%string -> keyConfigured o = None.
Proof. unfold keyConfigured. now intros [-> | ->]. Qed.

(** X14.  The forecast handler has no mock data: without a provider key
    (none, or an empty one), a request other than the preflight for a
    location without a fresh cache row is answered 500 with the error
    "OPENWEATHER_API_KEY is not set in environment secrets."; the provider is
    not called and nothing is cached.  With a fresh cache row the key is not
    looked at. *)
Theorem forecast_needs_the_key_on_a_miss
        (o : Oracle Forecast.Reply) (req : Request) (rows : list Forecast.Row) :
  method req <> "OPTIONS"%string ->
  api_key o = None \/ api_key o = Some ""%string ->
  ((forall r, In r rows -> Forecast.row_location r = locationOf req ->
              Forecast.row_fetched_at r < clock o 0 - Forecast.sixHours) ->
   Forecast.serve o req rows =
   (mkResponse 500 jsonHeaders
      (Failure "OPENWEATHER_API_KEY is not set in environment secrets."
               "Failed to fetch weather data"),
    mkSys rows 1 0 [CacheRead (locationOf req) (clock o 0 - Forecast.sixHours)])) /\
  (forall r, In r rows -> Forecast.row_location r = locationOf req ->
             clock o 0 - Forecast.sixHours <= Forecast.row_fetched_at r ->
             cache_read_error o = None ->
             sourceOf (fst (Forecast.serve o req rows)) = Some "cache"%string).
Proof.
  intros M K. apply keyConfigured_none in K. split.
  - intros Nf.
    pose proof (no_fresh_row_misses Forecast.row_location Forecast.row_fetched_at
                  o rows _ _ Nf) as H.
    apply (forecast_no_key o req rows M H K).
  - intros r I L C E.
    destruct (cacheHit_finds Forecast.row_location Forecast.row_fetched_at
                o rows _ _ r E I L C) as (cached & H & _).
    now rewrite (forecast_cache_hit o req rows cached M H).
Qed.

Lemma forecast_needs_the_key_on_a_miss_witness :
  fst (Forecast.serve noKey getColina []) =
    error500 "OPENWEATHER_API_KEY is not set in environment secrets." /\
  sourceOf (fst (Forecast.serve noKey getColina [cachedForecast])) =
    Some "cache"%string.
Proof.
  split.
  - destruct (forecast_needs_the_key_on_a_miss noKey getColina []) as (A & _).
    + discriminate.
    + now left.
    + rewrite A; [reflexivity | intros r []].
  - destruct (forecast_needs_the_key_on_a_miss noKey getColina [cachedForecast])
      as (_ & B).
    + discriminate.
    + now left.
    + apply (B cachedForecast); [now left | reflexivity | | reflexivity].
      vm_compute. discriminate.
Defined.

(** X15.  When the provider cannot be reached (the [fetch] rejects), a run
    that calls it answers 500 with the message of the failure as the error,
    writes nothing to the cache and leaves the table as it was; there is no
    second attempt and no fall-back to mock or stale data. *)
Theorem unreachable_provider_is_reported :
  (forall (o : Oracle Forecast.Reply) (req : Request)
          (rows : list Forecast.Row) (msg : string),
      upstream o = NetworkFailure msg ->
      calledUpstream (snd (Forecast.serve o req rows)) ->
      exists key,
        Forecast.serve o req rows =
        (mkResponse 500 jsonHeaders (Failure msg "Failed to fetch weather data"),
         mkSys rows 1 0
               [CacheRead (locationOf req) (clock o 0 - Forecast.sixHours);
                UpstreamCall (locationOf req) key])) /\
  (forall (o : Oracle Current.WeatherJson) (req : Request)
          (rows : list Current.WeatherData) (msg : string),
      upstream o = NetworkFailure msg ->
      calledUpstream (snd (Current.serve o req rows)) ->
      exists key,
        Current.serve o req rows =
        (mkResponse 500 jsonHeaders (Failure msg "Failed to fetch weather data"),
         mkSys rows 1 0
               [CacheRead (locationOf req) (clock o 0 - Current.thirtyMinutes);
                UpstreamCall (locationOf req) key])).
Proof.
  split; intros o req rows msg U C.
  - destruct (forecast_run o req rows) as [| | | key msg' ? ? ? U' | ? ? ? ? ? ? U' ?
                                           | ? ? ? ? ? ? ? U' | ? ? ? ? ? ? ? U'];
      try (destruct C as (l & k & C); cbn [snd trace] in C;
           repeat (destruct C as [C | C]; [discriminate |]); now destruct C);
      rewrite U in U'; try discriminate.
    injection U' as <-. now exists key.
  - destruct (current_run o req rows) as [| | | key msg' ? ? ? U' | ? ? ? ? ? ? U' ?
                                          | ? ? ? ? ? ? U' ?];
      try (destruct C as (l & k & C); cbn [snd trace] in C;
           repeat (destruct C as [C | C]; [discriminate |]); now destruct C);
      rewrite U in U'; try discriminate.
    injection U' as <-. now exists key.
Qed.

Lemma unreachable_provider_is_reported_witness :
  fst (Forecast.serve unreachable getColina []) = error500 "error sending request".
Proof.
  destruct unreachable_provider_is_reported as (F & _).
  destruct (F unreachable getColina [] "error sending request"%string eq_refl)
    as (key & E).
  - exists "Colina"%string, "k"%string. vm_compute. right; left. reflexivity.
  - now rewrite E.
Defined.

(** A request without a [location] parameter, or with an empty one, is
    served as a request for "Santiago" (lines 42 and 220). *)
Remark location_defaults_to_santiago (m : string) :
  (forall (o : Oracle Forecast.Reply) (rows : list Forecast.Row),
      Forecast.serve o (mkRequest m None) rows =
        Forecast.serve o (mkRequest m (Some "Santiago"%string)) rows /\
      Forecast.serve o (mkRequest m (Some ""%string)) rows =
        Forecast.serve o (mkRequest m (Some "Santiago"%string)) rows) /\
  (forall (o : Oracle Current.WeatherJson) (rows : list Current.WeatherData),
      Current.serve o (mkRequest m None) rows =
        Current.serve o (mkRequest m (Some "Santiago"%string)) rows /\
      Current.serve o (mkRequest m (Some ""%string)) rows =
        Current.serve o (mkRequest m (Some "Santiago"%string)) rows).
Proof. repeat split. Qed.

End Failures.

(* ================================================================== *)
(** ** Forecast aggregation: the empty forecast *)
(* ================================================================== *)

Section EmptyForecast.

Import Http Rt Forecast Spec Notions.

(** X16.  The aggregated output is empty exactly when the filter of line 115
    retains no sample (an empty series, or one whose samples are all of the
    current day of the month); the handler then answers 200 with source
    "api" and an empty forecast, and hands that empty forecast to the cache
    insert like any other. *)
Theorem empty_forecast_when_nothing_is_retained :
  (forall (tz : Z -> Z) (now : Z) (items : list Item),
      aggregate tz now items = inr [] <-> retained tz now items = []) /\
  (forall (o : Oracle Reply) (req : Request) (rows : list Row)
          (key : string) (st : N) (items : list Item),
      method req <> "OPTIONS"%string ->
      (forall r, In r rows -> row_location r = locationOf req ->
                 row_fetched_at r < clock o 0 - sixHours) ->
      keyConfigured o = Some key ->
      upstream o = HttpReply st (mkReply (Some items)) ->
      isOk st = true ->
      (forall item, In item items -> notToday (tz o) (clock o 1) item = false) ->
      fst (serve o req rows) =
        ok200 (mkForecastData (locationOf req) [] (clock o 2)) "api"
              "Fresh 5-day forecast from OpenWeatherMap" /\
      In (CacheInsert (mkRow (locationOf req)
                             (mkForecastData (locationOf req) [] (clock o 2))
                             (clock o 3)))
         (trace (snd (serve o req rows)))).
Proof.
  assert (E : forall tz now items,
             retained tz now items = [] -> aggregate tz now items = inr []).
  { intros tz now items R. unfold aggregate, groupByDate.
    unfold retained in R. now rewrite R. }
  split.
  - intros tz now items. split; [| apply E].
    intros A. destruct (aggregate_inv _ _ _ _ A) as (m & F & O).
    assert (G : groupByDate tz now items = inr m) by exact F.
    pose proof (groupByDate_keys _ _ _ _ G) as K.
    destruct (retained tz now items) as [| item kept] eqn:R; [reflexivity |].
    exfalso. cbn [map firstOccurrences] in K.
    destruct m as [| e m]; [discriminate |]. discriminate.
  - intros o req rows key st items M Nf K U S N.
    pose proof (no_fresh_row_misses row_location row_fetched_at o rows _ _ Nf) as H.
    assert (R : retained (tz o) (clock o 1) items = []).
    { unfold retained. clear - N.
      induction items as [| item items IH]; [reflexivity |]. simpl.
      rewrite (N item (or_introl eq_refl)). apply IH.
      intros x I. apply N. now right. }
    pose proof (forecast_fresh o req rows key st (mkReply (Some items)) [] M H K U S
                  (E _ _ _ R)) as X.
    cbv zeta in X. rewrite X. cbn [fst snd trace].
    split; [reflexivity |]. right; right; left. reflexivity.
Qed.

Lemma empty_forecast_when_nothing_is_retained_witness :
  fst (serve (mkOracle _ utc at0100 (fun _ => 0%Q) (Some "k"%string) None
                       (HttpReply 200
                          (mkReply
                             (Some [ mkItem 1704855600 (Some (Js.double (2016 # 100)))
                                            (Some ["nubes"%string]) (Some 10%Q) ])))
                       None)
             getColina []) =
  ok200 (mkForecastData "Colina" [] 1704848400000) "api"
        "Fresh 5-day forecast from OpenWeatherMap".
Proof.
  destruct empty_forecast_when_nothing_is_retained as (_ & H).
  refine (proj1 (H (mkOracle _ utc at0100 (fun _ => 0%Q) (Some "k"%string) None
                             (HttpReply 200
                                (mkReply
                                   (Some
                                      [ mkItem 1704855600
                                               (Some (Js.double (2016 # 100)))
                                               (Some ["nubes"%string])
                                               (Some 10%Q) ])))
                             None)
                   getColina [] "k"%string 200%N _ _ _ _ _ _ _)).
  - discriminate.
  - intros r [].
  - reflexivity.
  - reflexivity.
  - reflexivity.
  - intros item [<- | []]. vm_compute. reflexivity.
Defined.

End EmptyForecast.
